(** * Hyperliquid spot order-book collector: the snapshot transformer, the
    message dispatch of both variants, the CSV writer and the writes of a
    save, then the loader of the spot metadata, the start-up, the folder
    names, the progress rate and the connections with their timers,
    embedded from [src/nosave.ts] (memory cache, "mode A") and
    [src/yessave.ts] (file persistence, "mode B").

    ECMAScript numbers are IEEE 754 binary64 values; they are modelled with
    the Standard Library's executable specification of floating-point
    arithmetic ([SpecFloat], precision 53, [emax] 1024), so [parseFloat],
    [toFixed] and the arithmetic of the transformer compute the values a
    JavaScript engine computes.  Strings are sequences of code units below
    256. *)

From Stdlib Require Import ZArith List String Ascii Lia Bool.
From Stdlib Require Import Floats.SpecFloat.
From Stdlib Require Import DecimalString Decimal DecimalNat DecimalN DecimalFacts.
From stdpp Require Import base gmap sets list strings.

Local Open Scope string_scope.
#[local] Set Warnings "-register-all".

(** ** ECMAScript numbers *)

Module Num.

Local Open Scope Z_scope.

Definition prec : Z := 53.
Definition emax : Z := 1024.

Definition number : Set := spec_float.

Definition add : number -> number -> number := SFadd prec emax.
Definition sub : number -> number -> number := SFsub prec emax.
Definition mul : number -> number -> number := SFmul prec emax.
Definition div : number -> number -> number := SFdiv prec emax.

(** [x > y], [x <= y]: comparisons with a NaN are false. *)
Definition gt (x y : number) : bool := SFltb y x.
Definition le (x y : number) : bool := SFleb x y.

Definition valid (x : number) : bool := valid_binary prec emax x.

(** An integer literal of the source, such as [0] or [100]. *)
Definition of_Z (z : Z) : number := binary_normalize prec emax z 0 false.

Definition zero : number := S754_zero false.

(** The binary64 value nearest to the rational [n / d] ([n >= 0], [d > 0]),
    ties to even: the quotient is computed with enough bits and a location
    for the remainder, then rounded, as [SFdiv] does for two mantissas. *)
Definition round_ratio (neg : bool) (n d : Z) : number :=
  match n with
  | Z0 => S754_zero neg
  | _ =>
      let '(mz, ez, lz) := SFdiv_core_binary prec emax n 0 d 0 in
      binary_round_aux prec emax neg mz ez lz
  end.

(** What rounding a positive mantissa gives: the sign is kept, a finite
    result is bounded, and it is not below the truncated mantissa [m1] at
    exponent [e1]. *)
Definition rounded_ok (s : bool) (e1 m1 : Z) (x : number) : Prop :=
  match x with
  | S754_zero s' => s' = s /\ m1 = 0
  | S754_infinity s' => s' = s
  | S754_finite s' m3 e3 =>
      s' = s /\ bounded prec emax m3 e3 = true /\
      (e1 < e3 \/ (e3 = e1 /\ m1 <= Zpos m3))
  | S754_nan => False
  end.

(** The value [m * 10^k] of a decimal literal, rounded. *)
Definition of_decimal (neg : bool) (m k : Z) : number :=
  if 0 <=? k then round_ratio neg (m * 10 ^ k) 1
  else round_ratio neg m (10 ^ (- k)).

(** *** Decimal digits *)

Definition string_of_N (n : N) : string := NilZero.string_of_uint (N.to_uint n).
Definition string_of_Zabs (z : Z) : string := string_of_N (Z.abs_N z).

Fixpoint zeros (n : nat) : string :=
  match n with
  | O => ""
  | S n' => String "0" (zeros n')
  end.

Fixpoint str_take (n : nat) (s : string) : string :=
  match n, s with
  | S n', String c s' => String c (str_take n' s')
  | _, _ => ""
  end.

Fixpoint str_drop (n : nat) (s : string) : string :=
  match n, s with
  | S n', String _ s' => str_drop n' s'
  | _, _ => s
  end.

(** *** Number::toString (radix 10)

    For a positive finite [x = m * 2^e] the digits are those of the
    shortest decimal [s * 10^(n-k)] that rounds to [x]; among several of that
    length the one closest to [x].  A decimal rounds to [x] when it lies
    between the midpoints to the neighbouring binary64 values, the midpoints
    included when [m] is even. *)

(** [s * 10^p] compared with [c * 2^q]. *)
Definition cmp_dec_bin (s p c q : Z) : comparison :=
  (s * 10 ^ Z.max p 0 * 2 ^ Z.max (- q) 0 ?= c * 2 ^ Z.max q 0 * 10 ^ Z.max (- p) 0).

(** The greatest [l] with [10^l <= m * 2^e], searched upwards from [l]. *)
Fixpoint log10_from (fuel : nat) (m e l : Z) : Z :=
  match fuel with
  | O => l
  | S fuel' =>
      match cmp_dec_bin 1 (l + 1) m e with
      | Gt => l
      | _ => log10_from fuel' m e (l + 1)
      end
  end.

(** The search starts below the logarithm: [1233 / 4096] is just under
    [log10 2], and [m * 2^e] has [Z.log2 m + e + 1] bits. *)
Definition log10_floor (m e : Z) : Z :=
  log10_from 8 m e ((Z.log2 m + e) * 1233 / 4096 - 1).

(** floor of [m * 2^e / 10^p]. *)
Definition floor_scaled (m e p : Z) : Z :=
  (m * 2 ^ Z.max e 0 * 10 ^ Z.max (- p) 0) / (2 ^ Z.max (- e) 0 * 10 ^ Z.max p 0).

(** Does [s * 10^p] round to [m * 2^e]?  In units of [2^(e-2)] the value is
    [4m], the upper midpoint [4m+2], the lower one [4m-2], or [4m-1] when
    the value below is closer (at a power of two above the subnormals). *)
Definition rounds_to (m e s p : Z) : bool :=
  let lo := if (m =? 2 ^ (prec - 1)) && (3 - emax - prec <? e) then 4 * m - 1 else 4 * m - 2 in
  let hi := 4 * m + 2 in
  let incl := Z.even m in
  let above_lo := match cmp_dec_bin s p lo (e - 2) with Gt => true | Eq => incl | Lt => false end in
  let below_hi := match cmp_dec_bin s p hi (e - 2) with Lt => true | Eq => incl | Gt => false end in
  above_lo && below_hi.

(** The digits [s] (with [k] digits, or [10^k]) at exponent [p] for [m * 2^e]. *)
Definition pick_digits (m e p : Z) : option Z :=
  let a := floor_scaled m e p in
  let oka := rounds_to m e a p in
  let okb := rounds_to m e (a + 1) p in
  match oka, okb with
  | false, false => None
  | true, false => Some a
  | false, true => Some (a + 1)
  | true, true =>
      (* both round to x: the closer one, the even one on a tie *)
      match cmp_dec_bin (2 * a + 1) p (2 * m) e with
      | Gt => Some a
      | Lt => Some (a + 1)
      | Eq => Some (if Z.even a then a else a + 1)
      end
  end.

Fixpoint shortest_from (fuel : nat) (m e l k : Z) : Z * Z :=
  let p := l - k + 1 in
  match fuel with
  | O => (floor_scaled m e p, p)
  | S fuel' =>
      match pick_digits m e p with
      | Some s => (s, p)
      | None => shortest_from fuel' m e l (k + 1)
      end
  end.

Fixpoint strip_zeros (fuel : nat) (s : string) : string :=
  match fuel with
  | O => s
  | S fuel' =>
      match String.length s with
      | O | S O => s
      | S n' => if String.eqb (str_drop n' s) "0" then strip_zeros fuel' (str_take n' s) else s
      end
  end.

(** The digit string of [s] and the exponent [n] of [x]: [x] is
    [0.d1 d2 ... dk * 10^n]. *)
Definition shortest_digits (m e : Z) : string * Z :=
  let '(s, p) := shortest_from 17 m e (log10_floor m e) 1 in
  let ds := string_of_Zabs s in
  (strip_zeros 20 ds, p + Z.of_nat (String.length ds)).

Definition exponent_suffix (n : Z) : string :=
  String "e" (String (if 0 <=? n - 1 then "+"%char else "-"%char) (string_of_Zabs (n - 1))).

Definition format_digits (ds : string) (n : Z) : string :=
  let k := Z.of_nat (String.length ds) in
  if (k <=? n) && (n <=? 21) then ds +:+ zeros (Z.to_nat (n - k))
  else if (0 <? n) && (n <=? 21) then
    str_take (Z.to_nat n) ds +:+ "." +:+ str_drop (Z.to_nat n) ds
  else if (-6 <? n) && (n <=? 0) then "0." +:+ zeros (Z.to_nat (- n)) +:+ ds
  else if k =? 1 then ds +:+ exponent_suffix n
  else str_take 1 ds +:+ "." +:+ str_drop 1 ds +:+ exponent_suffix n.

Definition toString (x : number) : string :=
  match x with
  | S754_nan => "NaN"
  | S754_zero _ => "0"
  | S754_infinity s => if s then "-Infinity" else "Infinity"
  | S754_finite s m e =>
      let '(ds, n) := shortest_digits (Zpos m) e in
      (if s then "-" else "") +:+ format_digits ds n
  end.

(** *** Number.prototype.toFixed

    [n] is the integer for which [n / 10^f - x] is closest to zero, the
    larger one of two; it is written with [f] digits after the point. *)

Definition fixed_int (m e : Z) (f : nat) : Z :=
  let num := m * 2 ^ Z.max e 0 * 10 ^ Z.of_nat f in
  let den := 2 ^ Z.max (- e) 0 in
  (2 * num + den) / (2 * den).

Definition fixed_digits (n : Z) (f : nat) : string :=
  let ds := string_of_Zabs n in
  match f with
  | O => ds
  | _ =>
      let k := String.length ds in
      let ds' := if (k <=? f)%nat then zeros (f + 1 - k) +:+ ds else ds in
      let k' := String.length ds' in
      str_take (k' - f) ds' +:+ "." +:+ str_drop (k' - f) ds'
  end.

Definition toFixed (x : number) (f : nat) : string :=
  match x with
  | S754_nan | S754_infinity _ => toString x
  | S754_zero _ => fixed_digits 0 f
  | S754_finite s m e =>
      (if s then "-" else "") +:+
      (match cmp_dec_bin 1 21 (Zpos m) e with
       | Gt => fixed_digits (fixed_int (Zpos m) e f) f
       | _ => toString (S754_finite false m e)
       end)
  end.

(** *** parseFloat on a string

    Leading white space is skipped, then the longest prefix that is a
    StrDecimalLiteral is read; without one the result is NaN. *)

Definition is_digit (c : ascii) : bool :=
  let n := nat_of_ascii c in ((48 <=? n) && (n <=? 57))%nat.

Definition digit_value (c : ascii) : Z := Z.of_nat (nat_of_ascii c) - 48.

Definition is_white_space (c : ascii) : bool :=
  match nat_of_ascii c with
  | 9%nat | 10%nat | 11%nat | 12%nat | 13%nat | 32%nat | 160%nat => true
  | _ => false
  end.

Fixpoint skip_white_space (s : string) : string :=
  match s with
  | String c s' => if is_white_space c then skip_white_space s' else s
  | EmptyString => s
  end.

(** Reads decimal digits: the value with the digits appended to [acc], how
    many were read, and the rest. *)
Fixpoint scan_digits (s : string) (acc : Z) (cnt : Z) : Z * Z * string :=
  match s with
  | String c s' =>
      if is_digit c then scan_digits s' (10 * acc + digit_value c) (cnt + 1)
      else (acc, cnt, s)
  | EmptyString => (acc, cnt, s)
  end.

Definition scan_sign (s : string) : bool * string :=
  match s with
  | String "-" r => (true, r)
  | String "+" r => (false, r)
  | _ => (false, s)
  end.

(** The ExponentPart, when one is complete; otherwise it is not part of the
    literal and counts as 0. *)
Definition scan_exponent (s : string) : Z :=
  match s with
  | String c r =>
      if (Ascii.eqb c "e" || Ascii.eqb c "E")%bool then
        let '(neg, r') := scan_sign r in
        let '(ev, ne, _) := scan_digits r' 0 0 in
        if 0 <? ne then (if neg then - ev else ev) else 0
      else 0
  | EmptyString => 0
  end.

Definition parse_decimal (s : string) : number :=
  let '(neg, s1) := scan_sign (skip_white_space s) in
  if String.prefix "Infinity" s1 then S754_infinity neg
  else
    let '(ip, ni, s2) := scan_digits s1 0 0 in
    let '(mant, nf, s3) :=
      match s2 with
      | String "." r => scan_digits r ip 0
      | _ => (ip, 0, s2)
      end in
    if (ni =? 0) && (nf =? 0) then S754_nan
    else of_decimal neg mant (scan_exponent s3 - nf).

End Num.

(** ** ECMAScript values and the operations the program applies to them *)

Module JS.

(** Exceptions: every handler of the program catches all of them and ignores
    the exception value. *)
Inductive exn : Set := TypeError.

Inductive result (A : Type) : Type :=
| Ok (a : A)
| Throw (e : exn).
Arguments Ok {A} a.
Arguments Throw {A} e.

Definition bind {A B : Type} (r : result A) (k : A -> result B) : result B :=
  match r with
  | Ok a => k a
  | Throw e => Throw e
  end.

Notation "'let*' x ':=' e 'in' k" := (bind e (fun x => k))
  (at level 10, x name, e at level 100, k at level 200).

(** A value that [JSON.parse] can return, or [undefined] (what reading an
    absent property gives).  An object is the list of its own properties. *)
Inductive value : Type :=
| VUndefined
| VNull
| VBool (b : bool)
| VNum (x : Num.number)
| VStr (s : string)
| VArr (elems : list value)
| VObj (props : list (string * value)).

Fixpoint own_property (name : string) (props : list (string * value)) : option value :=
  match props with
  | [] => None
  | (k, v) :: rest => if String.eqb k name then Some v else own_property name rest
  end.

(** [v.name] for a name that no built-in prototype defines ([channel],
    [data], [coin], [levels], [px], [sz]): an own property of an object,
    [undefined] on any other value, a TypeError on [undefined] and [null]. *)
Definition Get (v : value) (name : string) : result value :=
  match v with
  | VUndefined | VNull => Throw TypeError
  | VObj props => Ok (default VUndefined (own_property name props))
  | _ => Ok VUndefined
  end.

Definition string_of_nat (n : nat) : string :=
  NilZero.string_of_uint (Nat.to_uint n).

(** [v[i]] for an array index [i]. *)
Definition GetIndex (v : value) (i : nat) : result value :=
  match v with
  | VUndefined | VNull => Throw TypeError
  | VArr elems => Ok (nth i elems VUndefined)
  | VObj props => Ok (default VUndefined (own_property (string_of_nat i) props))
  | VStr s =>
      Ok (match String.get i s with
          | Some c => VStr (String c "")
          | None => VUndefined
          end)
  | _ => Ok VUndefined
  end.

Fixpoint mapM {A B : Type} (f : A -> result B) (l : list A) : result (list B) :=
  match l with
  | [] => Ok []
  | a :: rest => let* b := f a in let* bs := mapM f rest in Ok (b :: bs)
  end.

(** [v.map(f)]: only an array has a callable [map]; on every other value the
    call throws a TypeError. *)
Definition array_map {B : Type} (v : value) (f : value -> result B) : result (list B) :=
  match v with
  | VArr elems => mapM f elems
  | _ => Throw TypeError
  end.

(** ToBoolean. *)
Definition truthy (v : value) : bool :=
  match v with
  | VUndefined | VNull => false
  | VBool b => b
  | VNum (S754_zero _) | VNum S754_nan => false
  | VNum _ => true
  | VStr s => negb (String.eqb s "")
  | VArr _ | VObj _ => true
  end.

(** ToString.  An array joins the strings of its elements with commas,
    [null] and [undefined] elements giving the empty string.  A parsed object
    inherits [Object.prototype.toString] unless it has an own [toString]
    property, which cannot be called: the conversion then throws. *)
Fixpoint ToString (v : value) : result string :=
  match v with
  | VUndefined => Ok "undefined"
  | VNull => Ok "null"
  | VBool b => Ok (if b then "true" else "false")
  | VNum x => Ok (Num.toString x)
  | VStr s => Ok s
  | VArr elems =>
      (fix join (l : list value) : result string :=
         match l with
         | [] => Ok ""
         | x :: rest =>
             let* a := match x with
                       | VUndefined | VNull => Ok ""
                       | _ => ToString x
                       end in
             match rest with
             | [] => Ok a
             | _ => let* b := join rest in Ok (a +:+ "," +:+ b)
             end
         end) elems
  | VObj props =>
      match own_property "toString" props with
      | Some _ => Throw TypeError
      | None => Ok "[object Object]"
      end
  end.

(** The global [parseFloat]: the argument is converted to a string first. *)
Definition parseFloat (v : value) : result Num.number :=
  let* s := ToString v in Ok (Num.parse_decimal s).

(** [v === s] for a string literal [s]. *)
Definition strict_eq_string (v : value) (s : string) : bool :=
  match v with
  | VStr s' => String.eqb s' s
  | _ => false
  end.

(** The receiver of a String.prototype method call such as
    [coin.startsWith(...)] or [price.padEnd(...)]: on any other value the
    call throws (the property is not a function, or the value is
    [undefined] or [null]). *)
Definition string_receiver (v : value) : result string :=
  match v with
  | VStr s => Ok s
  | _ => Throw TypeError
  end.

(** [o || d] on an optional string: [undefined] and [""] are falsy. *)
Definition or_else (o : option string) (d : string) : string :=
  match o with
  | Some s => if String.eqb s "" then d else s
  | None => d
  end.

End JS.

(** ** The records of both variants *)

Record OrderbookLevel : Type := {
  level : nat;
  price : JS.value;
  size : JS.value;
  cumulative : string;
  timestamp : string
}.

Record CoinOrderbook : Type := {
  symbol : string;
  displaySymbol : string;
  lastUpdate : string;
  midPrice : string;
  spread : string;
  spreadPercentage : string;
  bids : list OrderbookLevel;
  asks : list OrderbookLevel
}.

(** The object [{ price: level.px, size: level.sz }] of the first pass. *)
Record PriceSize : Type := {
  ps_price : JS.value;
  ps_size : JS.value
}.

(** ** The snapshot transformer and the dispatch of [src/nosave.ts] *)

Module NoSave.

Import JS.

(** [l2Data.levels[i].map((level) => ({ price: level.px, size: level.sz }))] *)
Definition read_side (side : value) : result (list PriceSize) :=
  array_map side (fun level =>
    let* px := Get level "px" in
    let* sz := Get level "sz" in
    Ok {| ps_price := px; ps_size := sz |}).

(** The callback of the second [map], run over the slice from index [idx]
    on; [acc] is the running [bidCumulative] or [askCumulative]. *)
Fixpoint top_levels (timestamp : string) (entries : list PriceSize)
    (idx : nat) (acc : Num.number) : result (list OrderbookLevel) :=
  match entries with
  | [] => Ok []
  | entry :: rest =>
      let* sz := parseFloat (ps_size entry) in
      let acc' := Num.add acc sz in
      let lv := {| level := idx + 1;
                   price := ps_price entry;
                   size := ps_size entry;
                   cumulative := Num.toFixed acc' 4;
                   timestamp := timestamp |} in
      let* more := top_levels timestamp rest (S idx) acc' in
      Ok (lv :: more)
  end.

(** The body of the [try] block.  [now] is [new Date().toISOString()].
    [spotSymbolMapping] is a [Map]; [allMidsCache] is a plain object, and
    [allMidsCache[coin]] is read here as its own entry for [coin]: that is
    what the source reads for every coin that names no property a plain
    object inherits, as every coin that starts with "@" (the only ones
    the message handler passes on). *)
Definition processOrderbookData_try
    (spotSymbolMapping allMidsCache : gmap string string) (now : string)
    (coin : string) (l2Data : value) : result CoinOrderbook :=
  let displaySymbol := or_else (spotSymbolMapping !! coin) coin in
  let midPrice := or_else (allMidsCache !! coin) "0" in
  let* levels0 := Get l2Data "levels" in
  let* side0 := GetIndex levels0 0 in
  let* bids := read_side side0 in
  let* levels1 := Get l2Data "levels" in
  let* side1 := GetIndex levels1 1 in
  let* asks := read_side side1 in
  let* bestBid := match bids with
                  | first :: _ => parseFloat (ps_price first)
                  | [] => Ok Num.zero
                  end in
  let* bestAsk := match asks with
                  | first :: _ => parseFloat (ps_price first)
                  | [] => Ok Num.zero
                  end in
  let spread := Num.sub bestAsk bestBid in
  let spreadPercentage :=
    if Num.gt bestBid Num.zero
    then Num.toFixed (Num.mul (Num.div spread bestBid) (Num.of_Z 100)) 4
    else "0" in
  let timestamp := now in
  let topBidsCount := Nat.min 10 (length bids) in
  let topAsksCount := Nat.min 10 (length asks) in
  let* topBids := top_levels timestamp (firstn topBidsCount bids) 0 Num.zero in
  let* topAsks := top_levels timestamp (firstn topAsksCount asks) 0 Num.zero in
  Ok {| symbol := coin;
        displaySymbol := displaySymbol;
        lastUpdate := timestamp;
        midPrice := midPrice;
        spread := Num.toFixed spread 8;
        spreadPercentage := spreadPercentage +:+ "%";
        bids := topBids;
        asks := topAsks |}.

(** [processOrderbookData]: [None] is the [null] returned by the [catch]
    block after it has logged the failure with [console.error]. *)
Definition processOrderbookData
    (spotSymbolMapping allMidsCache : gmap string string) (now : string)
    (coin : string) (l2Data : value) : option CoinOrderbook :=
  match processOrderbookData_try spotSymbolMapping allMidsCache now coin l2Data with
  | Ok coinData => Some coinData
  | Throw _ => None
  end.

(** The tests of the message handler that come before [processCount++]:
    [Ok (Some (coin, message.data))] when the message goes on to the
    transformer, [Ok None] when the handler leaves the [if] or returns,
    [Throw] when a TypeError reaches the handler's [catch]. *)
Definition accept (message : value) : result (option (string * value)) :=
  let* channel := Get message "channel" in
  if strict_eq_string channel "l2Book" then
    let* data := Get message "data" in
    if truthy data then
      let* coin := Get data "coin" in
      let* coin_string := string_receiver coin in
      if negb (String.prefix "@" coin_string) then Ok None
      else Ok (Some (coin_string, data))
    else Ok None
  else Ok None.

(** The mutable state a connection's message handler works on.
    [processCount] belongs to the connection, [latestOrderbooks] and
    [allMidsCache] are globals. *)
Record state : Type := {
  allMidsCache : gmap string string;
  processCount : nat;
  latestOrderbooks : gmap string CoinOrderbook
}.

Definition init : state :=
  {| allMidsCache := ∅; processCount := 0; latestOrderbooks := ∅ |}.

(** [ws.on('message', ...)].  [data] is the result of
    [JSON.parse(data.toString())], [None] when it throws.  The progress line
    written to stdout after the cache update is not part of the state; an
    exception raised while it is formatted is caught like the others. *)
Definition on_message (spotSymbolMapping : gmap string string) (now : string)
    (data : option value) (st : state) : state :=
  match data with
  | None => st
  | Some message =>
      match accept message with
      | Throw _ => st
      | Ok None => st
      | Ok (Some (coin, payload)) =>
          let count := S (processCount st) in
          match processOrderbookData spotSymbolMapping (allMidsCache st) now coin payload with
          | None =>
              {| allMidsCache := allMidsCache st;
                 processCount := count;
                 latestOrderbooks := latestOrderbooks st |}
          | Some coinData =>
              {| allMidsCache := allMidsCache st;
                 processCount := count;
                 latestOrderbooks := <[symbol coinData := coinData]> (latestOrderbooks st) |}
          end
      end
  end.

(** The messages of a connection, in the order the transport delivers them. *)
Definition run (spotSymbolMapping : gmap string string)
    (msgs : list (string * option value)) (st : state) : state :=
  fold_left (fun st m => on_message spotSymbolMapping (fst m) (snd m) st) msgs st.

End NoSave.

(** ** The snapshot transformer and the dispatch of [src/yessave.ts] *)

Module YesSave.

Import JS.

(** [l2Data.levels[i].map((level) => ({ price: level.px, size: level.sz }))] *)
Definition read_side (side : value) : result (list PriceSize) :=
  array_map side (fun level =>
    let* px := Get level "px" in
    let* sz := Get level "sz" in
    Ok {| ps_price := px; ps_size := sz |}).

(** The callback of the second [map], run over the slice from index [idx]
    on; [acc] is the running [bidCumulative] or [askCumulative]. *)
Fixpoint top_levels (timestamp : string) (entries : list PriceSize)
    (idx : nat) (acc : Num.number) : result (list OrderbookLevel) :=
  match entries with
  | [] => Ok []
  | entry :: rest =>
      let* sz := parseFloat (ps_size entry) in
      let acc' := Num.add acc sz in
      let lv := {| level := idx + 1;
                   price := ps_price entry;
                   size := ps_size entry;
                   cumulative := Num.toFixed acc' 4;
                   timestamp := timestamp |} in
      let* more := top_levels timestamp rest (S idx) acc' in
      Ok (lv :: more)
  end.

(** The body of the [try] block.  [now] is [new Date().toISOString()].
    [spotSymbolMapping] is a [Map]; [allMidsCache] is a plain object, and
    [allMidsCache[coin]] is read here as its own entry for [coin]: that is
    what the source reads for every coin that names no property a plain
    object inherits, as every coin that starts with "@" (the only ones
    the message handler passes on). *)
Definition processOrderbookData_try
    (spotSymbolMapping allMidsCache : gmap string string) (now : string)
    (coin : string) (l2Data : value) : result CoinOrderbook :=
  let displaySymbol := or_else (spotSymbolMapping !! coin) coin in
  let midPrice := or_else (allMidsCache !! coin) "0" in
  let* levels0 := Get l2Data "levels" in
  let* side0 := GetIndex levels0 0 in
  let* bids := read_side side0 in
  let* levels1 := Get l2Data "levels" in
  let* side1 := GetIndex levels1 1 in
  let* asks := read_side side1 in
  let* bestBid := match bids with
                  | first :: _ => parseFloat (ps_price first)
                  | [] => Ok Num.zero
                  end in
  let* bestAsk := match asks with
                  | first :: _ => parseFloat (ps_price first)
                  | [] => Ok Num.zero
                  end in
  let spread := Num.sub bestAsk bestBid in
  let spreadPercentage :=
    if Num.gt bestBid Num.zero
    then Num.toFixed (Num.mul (Num.div spread bestBid) (Num.of_Z 100)) 4
    else "0" in
  let timestamp := now in
  let topBidsCount := Nat.min 10 (length bids) in
  let topAsksCount := Nat.min 10 (length asks) in
  let* topBids := top_levels timestamp (firstn topBidsCount bids) 0 Num.zero in
  let* topAsks := top_levels timestamp (firstn topAsksCount asks) 0 Num.zero in
  Ok {| symbol := coin;
        displaySymbol := displaySymbol;
        lastUpdate := timestamp;
        midPrice := midPrice;
        spread := Num.toFixed spread 8;
        spreadPercentage := spreadPercentage +:+ "%";
        bids := topBids;
        asks := topAsks |}.

(** [processOrderbookData]: [None] is the [null] returned by the [catch]
    block after it has logged the failure with [console.error]. *)
Definition processOrderbookData
    (spotSymbolMapping allMidsCache : gmap string string) (now : string)
    (coin : string) (l2Data : value) : option CoinOrderbook :=
  match processOrderbookData_try spotSymbolMapping allMidsCache now coin l2Data with
  | Ok coinData => Some coinData
  | Throw _ => None
  end.

(** The tests of the message handler that come before [processCount++]:
    [Ok (Some (coin, message.data))] when the message goes on to the
    transformer, [Ok None] when the handler leaves the [if] or returns,
    [Throw] when a TypeError reaches the handler's [catch]. *)
Definition accept (message : value) : result (option (string * value)) :=
  let* channel := Get message "channel" in
  if strict_eq_string channel "l2Book" then
    let* data := Get message "data" in
    if truthy data then
      let* coin := Get data "coin" in
      let* coin_string := string_receiver coin in
      if negb (String.prefix "@" coin_string) then Ok None
      else Ok (Some (coin_string, data))
    else Ok None
  else Ok None.

(** The mutable state the handlers of one connection work on.
    [isRunning], [allMidsCache] and [saveQueue] belong to the module;
    [updateCount], [processCount] and [updatedCoins] are locals of the
    [connectWebSocket] call, which a later connection starts again at zero
    and empty while the queue goes on.  A promise is identified by the order
    of its creation ([promises] counts them); [saveQueue] holds the promises
    [savePromise] that have not settled, each with the record its
    [saveOrderbookToFile] call is writing.  [shutdowns] holds, for every
    SIGINT handler suspended at [await Promise.all(...)], the promises of its
    array that have not settled yet.  [exited] is set by [process.exit]. *)
Record state : Type := {
  isRunning : bool;
  exited : bool;
  allMidsCache : gmap string string;
  updateCount : nat;
  processCount : nat;
  updatedCoins : gset string;
  saveQueue : gmap nat CoinOrderbook;
  promises : nat;
  shutdowns : list (gset nat)
}.

(** The first connection of a process. *)
Definition init : state :=
  {| isRunning := true; exited := false; allMidsCache := ∅;
     updateCount := 0; processCount := 0; updatedCoins := ∅;
     saveQueue := ∅; promises := 0; shutdowns := [] |}.

(** [Promise.race(Array.from(saveQueue));] as an expression statement of a
    function that is not [async]: the promise it builds is dropped, nothing
    is awaited and no continuation is attached, so control goes on to the
    next statement with the state as it was. *)
Definition Promise_race_dropped (queue : list nat) (st : state) : state := st.

(** [ws.on('message', ...)].  [data] is the result of
    [JSON.parse(data.toString())], [None] when it throws.  The progress line
    written to stdout at the end is not part of the state; an exception
    raised while it is formatted is caught like the others. *)
Definition on_message (spotSymbolMapping : gmap string string) (now : string)
    (data : option value) (st : state) : state :=
  match data with
  | None => st
  | Some message =>
      match accept message with
      | Throw _ => st
      | Ok None => st
      | Ok (Some (coin, payload)) =>
          let count := S (processCount st) in
          match processOrderbookData spotSymbolMapping (allMidsCache st) now coin payload with
          | None =>
              {| isRunning := isRunning st; exited := exited st;
                 allMidsCache := allMidsCache st;
                 updateCount := updateCount st;
                 processCount := count;
                 updatedCoins := updatedCoins st;
                 saveQueue := saveQueue st;
                 promises := promises st;
                 shutdowns := shutdowns st |}
          | Some coinData =>
              let savePromise := promises st in
              let st' :=
                {| isRunning := isRunning st; exited := exited st;
                   allMidsCache := allMidsCache st;
                   updateCount := S (updateCount st);
                   processCount := count;
                   updatedCoins := {[displaySymbol coinData]} ∪ updatedCoins st;
                   saveQueue := <[savePromise := coinData]> (saveQueue st);
                   promises := S (promises st);
                   shutdowns := shutdowns st |} in
              if (100 <? base.size (saveQueue st'))%nat
              then Promise_race_dropped (elements (dom (saveQueue st'))) st'
              else st'
          end
      end
  end.

(** The promise [p] of a [saveOrderbookToFile] call settles (the function
    catches its own errors, so it is fulfilled after success and after
    failure alike): the [finally] callback deletes it from [saveQueue], and
    every [Promise.all] waiting for it loses one pending promise; a SIGINT
    handler whose promises have all settled resumes and calls
    [process.exit(0)].  When the promise settles, in terms of the directory
    and the three writes of the call, is the matter of [Saving] below. *)
Definition on_settled (p : nat) (st : state) : state :=
  match saveQueue st !! p with
  | None => st
  | Some _ =>
      let waits := map (fun w => w ∖ {[p]}) (shutdowns st) in
      {| isRunning := isRunning st;
         exited := exited st || existsb (fun w => bool_decide (w = ∅)) waits;
         allMidsCache := allMidsCache st;
         updateCount := updateCount st;
         processCount := processCount st;
         updatedCoins := updatedCoins st;
         saveQueue := delete p (saveQueue st);
         promises := promises st;
         shutdowns := waits |}
  end.

(** [process.on('SIGINT', async () => ...)]: with an empty queue the process
    exits at once, otherwise the handler waits for the promises that are in
    the queue at this moment. *)
Definition on_sigint (st : state) : state :=
  if (0 <? base.size (saveQueue st))%nat then
    {| isRunning := false; exited := exited st;
       allMidsCache := allMidsCache st;
       updateCount := updateCount st;
       processCount := processCount st;
       updatedCoins := updatedCoins st;
       saveQueue := saveQueue st;
       promises := promises st;
       shutdowns := dom (saveQueue st) :: shutdowns st |}
  else
    {| isRunning := false; exited := true;
       allMidsCache := allMidsCache st;
       updateCount := updateCount st;
       processCount := processCount st;
       updatedCoins := updatedCoins st;
       saveQueue := saveQueue st;
       promises := promises st;
       shutdowns := shutdowns st |}.

(** [updateMidPrices] finishes: the cache is replaced, or kept on failure. *)
Definition on_mids (mids : option (gmap string string)) (st : state) : state :=
  match mids with
  | None => st
  | Some m =>
      {| isRunning := isRunning st; exited := exited st;
         allMidsCache := m;
         updateCount := updateCount st;
         processCount := processCount st;
         updatedCoins := updatedCoins st;
         saveQueue := saveQueue st;
         promises := promises st;
         shutdowns := shutdowns st |}
  end.

(** What the event loop runs, one callback at a time. *)
Inductive event : Type :=
| Message (now : string) (data : option value)
| Settled (p : nat)
| Sigint
| MidPrices (mids : option (gmap string string)).

(** Nothing runs after [process.exit]. *)
Definition step (spotSymbolMapping : gmap string string) (st : state) (ev : event) : state :=
  if exited st then st
  else
    match ev with
    | Message now data => on_message spotSymbolMapping now data st
    | Settled p => on_settled p st
    | Sigint => on_sigint st
    | MidPrices mids => on_mids mids st
    end.

Definition run (spotSymbolMapping : gmap string string)
    (evs : list event) (st : state) : state :=
  fold_left (step spotSymbolMapping) evs st.

(** *** [saveOrderbookToFile]: the tabular form *)

Definition LF : string := String (ascii_of_nat 10) "".

Definition csvHeader : string := "Side,Level,Price,Size,Cumulative,Timestamp" +:+ LF.

Fixpoint join (sep : string) (rows : list string) : string :=
  match rows with
  | [] => ""
  | [row] => row
  | row :: rest => row +:+ sep +:+ join sep rest
  end.

(** One template literal
    [`BID,${bid.level},${bid.price},${bid.size},${bid.cumulative},${bid.timestamp}`];
    [level] is an array index plus one, its string its decimal digits. *)
Definition csv_row (side : string) (lv : OrderbookLevel) : result string :=
  let* p := ToString (price lv) in
  let* s := ToString (size lv) in
  Ok (side +:+ "," +:+ string_of_nat (level lv) +:+ "," +:+ p +:+ "," +:+ s +:+ ","
      +:+ cumulative lv +:+ "," +:+ timestamp lv).

(** [csvContent], the text handed to [fs.writeFile(csvPath, ...)]. *)
Definition csvContent (coinData : CoinOrderbook) : result string :=
  let* bidRows := mapM (csv_row "BID") (bids coinData) in
  let* askRows := mapM (csv_row "ASK") (asks coinData) in
  Ok (csvHeader +:+ join LF (bidRows ++ askRows)).

End YesSave.

(** ** The vocabulary of the properties *)

Module Spec.

Import JS.

(** The two variants: the memory cache of [nosave.ts] (mode A) and the file
    persistence of [yessave.ts] (mode B). *)
Inductive variant : Set := ModeA | ModeB.

Definition transformer (v : variant) :
    gmap string string -> gmap string string -> string -> string -> value ->
    option CoinOrderbook :=
  match v with
  | ModeA => NoSave.processOrderbookData
  | ModeB => YesSave.processOrderbookData
  end.

(** The bid side ([i = 0]) or the ask side ([i = 1]) of a raw snapshot:
    the array [l2Data.levels[i]], when there is one. *)
Definition feed_side (l2Data : value) (i : nat) : option (list value) :=
  match Get l2Data "levels" with
  | Ok levels =>
      match GetIndex levels i with
      | Ok (VArr side) => Some side
      | _ => None
      end
  | Throw _ => None
  end.

(** The [px] and [sz] of a level as the transformer stores them. *)
Definition field (level : value) (name : string) : value :=
  match Get level name with
  | Ok v => v
  | Throw _ => VUndefined
  end.

(** The object the first pass makes of a level. *)
Definition entry_of (level : value) : PriceSize :=
  {| ps_price := field level "px"; ps_size := field level "sz" |}.

(** A level whose properties can be read: any value but [null] and
    [undefined]. *)
Definition readable (level : value) : Prop :=
  level <> VNull /\ level <> VUndefined.

(** The numbers the transformer reads from a level. *)
Definition level_price (level : value) : result Num.number :=
  let* px := Get level "px" in parseFloat px.

Definition level_size (level : value) : result Num.number :=
  let* sz := Get level "sz" in parseFloat sz.

(** The best bid or ask: the price of the first level, 0 on an empty side. *)
Definition best_price (side : list value) : result Num.number :=
  match side with
  | first :: _ => level_price first
  | [] => Ok Num.zero
  end.

(** The field [spreadPercentage] as the source builds it from the two best
    prices. *)
Definition spread_percentage (bestBid bestAsk : Num.number) : string :=
  (if Num.gt bestBid Num.zero
   then Num.toFixed
          (Num.mul (Num.div (Num.sub bestAsk bestBid) bestBid) (Num.of_Z 100)) 4
   else "0") +:+ "%".

(** A level whose size is a string that parses to a non-negative number. *)
Definition valid_size (level : value) : Prop :=
  exists s, Get level "sz" = Ok (VStr s) /\
            Num.le Num.zero (Num.parse_decimal s) = true.

(** A level whose price is a string. *)
Definition priced (level : value) : Prop :=
  exists p, Get level "px" = Ok (VStr p).

(** The running sums of [xs] on top of [acc]. *)
Fixpoint running_sums (acc : Num.number) (xs : list Num.number) : list Num.number :=
  match xs with
  | [] => []
  | x :: rest => Num.add acc x :: running_sums (Num.add acc x) rest
  end.

Fixpoint nondecreasing (xs : list Num.number) : Prop :=
  match xs with
  | a :: rest =>
      match rest with
      | b :: _ => Num.le a b = true /\ nondecreasing rest
      | [] => True
      end
  | [] => True
  end.

(** What one side of the output is for the side [feed] of the snapshot: the
    first [min 10 (length feed)] levels in feed order, numbered from 1, with
    the running sums of their sizes, started at zero, written with four
    decimals. *)
Definition side_of (feed : list value) (out : list OrderbookLevel) : Prop :=
  length out = Nat.min 10 (length feed) /\
  (length out <= 10)%nat /\
  map price out = map (fun raw => field raw "px") (firstn 10 feed) /\
  map size out = map (fun raw => field raw "sz") (firstn 10 feed) /\
  map level out = seq 1 (length out) /\
  exists sizes,
    mapM level_size (firstn 10 feed) = Ok sizes /\
    map cumulative out = map (fun x => Num.toFixed x 4) (running_sums Num.zero sizes) /\
    nondecreasing (Num.zero :: running_sums Num.zero sizes).

(** A finite number: neither NaN nor an infinity. *)
Definition is_finite (x : Num.number) : bool :=
  match x with
  | S754_zero _ | S754_finite _ _ _ => true
  | _ => false
  end.

(** A price or size that is missing or is a string that is not a number. *)
Definition non_numeric (v : value) : Prop :=
  v = VUndefined \/ exists s, v = VStr s /\ Num.parse_decimal s = S754_nan.

(** A malformed raw snapshot: a side is missing, or a level lacks its price
    or size or has one that is not numeric. *)
Definition malformed (l2Data : value) : Prop :=
  feed_side l2Data 0 = None \/ feed_side l2Data 1 = None \/
  exists i side lv,
    (i = 0 \/ i = 1)%nat /\ feed_side l2Data i = Some side /\ In lv side /\
    (non_numeric (field lv "px") \/ non_numeric (field lv "sz")).

(** A snapshot that makes the transformer throw: a side is not an array, or
    a side holds a [null] entry. *)
Definition unreadable (l2Data : value) : Prop :=
  feed_side l2Data 0 = None \/ feed_side l2Data 1 = None \/
  exists i side,
    (i = 0 \/ i = 1)%nat /\ feed_side l2Data i = Some side /\ In VNull side.

(** A level object whose [px] and [sz] are each absent or a string. *)
Definition string_or_absent (o : option value) : Prop :=
  o = None \/ exists s, o = Some (VStr s).

Definition loose_level (lv : value) : Prop :=
  exists props, lv = VObj props /\
    string_or_absent (own_property "px" props) /\
    string_or_absent (own_property "sz" props).

(** The handler's counter after a message whose transform failed. *)
Definition counted_A (st : NoSave.state) : NoSave.state :=
  {| NoSave.allMidsCache := NoSave.allMidsCache st;
     NoSave.processCount := S (NoSave.processCount st);
     NoSave.latestOrderbooks := NoSave.latestOrderbooks st |}.

Definition counted_B (st : YesSave.state) : YesSave.state :=
  {| YesSave.isRunning := YesSave.isRunning st;
     YesSave.exited := YesSave.exited st;
     YesSave.allMidsCache := YesSave.allMidsCache st;
     YesSave.updateCount := YesSave.updateCount st;
     YesSave.processCount := S (YesSave.processCount st);
     YesSave.updatedCoins := YesSave.updatedCoins st;
     YesSave.saveQueue := YesSave.saveQueue st;
     YesSave.promises := YesSave.promises st;
     YesSave.shutdowns := YesSave.shutdowns st |}.

(** The channel, payload and symbol of an inbound message. *)
Definition on_l2Book (message : value) : Prop :=
  exists channel, Get message "channel" = Ok channel /\
                  strict_eq_string channel "l2Book" = true.

Definition has_payload (message : value) : Prop :=
  exists data, Get message "data" = Ok data /\ truthy data = true.

Definition tracked_symbol (message : value) : Prop :=
  exists data coin, Get message "data" = Ok data /\
    Get data "coin" = Ok (VStr coin) /\ String.prefix "@" coin = true.

(** The promises created so far are below the counter. *)
Definition fresh (st : YesSave.state) : Prop :=
  forall p, p ∈ dom (YesSave.saveQueue st) -> (p < YesSave.promises st)%nat.

(** Before the first stop signal no SIGINT handler waits and the process
    has not exited. *)
Definition not_stopped (st : YesSave.state) : Prop :=
  YesSave.isRunning st = true ->
  YesSave.shutdowns st = [] /\ YesSave.exited st = false.

(** While the tasks [Q] drain: every waiting SIGINT handler still waits for
    those of [Q] that are in flight, and once the process has exited none of
    [Q] is in flight. *)
Definition draining (Q : gset nat) (st : YesSave.state) : Prop :=
  fresh st /\
  (forall p, p ∈ Q -> (p < YesSave.promises st)%nat) /\
  (forall w, w ∈ YesSave.shutdowns st ->
     forall p, p ∈ Q -> p ∈ dom (YesSave.saveQueue st) -> p ∈ w) /\
  (YesSave.exited st = true ->
     forall p, p ∈ Q -> p ∉ dom (YesSave.saveQueue st)).

End Spec.

(** ** The reader of the tabular form

    The repository only writes the CSV file.  The reader is the inverse the
    round-trip property speaks of. *)

Module Tabular.

Import JS.

Inductive side : Set := BID | ASK.

(** (side, rank, price, size, cumulative) *)
Definition tuple : Type := (side * nat * value * value * string)%type.

Definition tuple_of (sd : side) (lv : OrderbookLevel) : tuple :=
  (sd, level lv, price lv, size lv, cumulative lv).

(** The tuples of the in-memory record, bids first, then asks. *)
Definition tuples (coinData : CoinOrderbook) : list tuple :=
  map (tuple_of BID) (bids coinData) ++ map (tuple_of ASK) (asks coinData).

(** Modelled from the spec: the fields of [s] between the separators
    [sep], for the reader. *)
Fixpoint split_on (sep : ascii) (s : string) : list string :=
  match s with
  | EmptyString => [EmptyString]
  | String c rest =>
      if Ascii.eqb c sep then EmptyString :: split_on sep rest
      else
        match split_on sep rest with
        | f :: fs => String c f :: fs
        | [] => [String c EmptyString]
        end
  end.

(** Modelled from the spec: the side column of a row. *)
Definition parse_side (s : string) : option side :=
  if String.eqb s "BID" then Some BID
  else if String.eqb s "ASK" then Some ASK
  else None.

(** Modelled from the spec: the rank column of a row, a decimal numeral. *)
Definition parse_rank (s : string) : option nat :=
  option_map Nat.of_uint (NilZero.uint_of_string s).

(** Modelled from the spec: the reader of the tabular serialization, which
    the repository does not contain; its columns are those the spec lists
    for the persisted layout (side, rank, price, size, cumulative,
    timestamp), one row per level after the header row. *)
Definition parse_row (row : string) : option tuple :=
  match split_on "," row with
  | [sd; rank; p; s; c; _] =>
      match parse_side sd, parse_rank rank with
      | Some sd', Some n => Some (sd', n, VStr p, VStr s, c)
      | _, _ => None
      end
  | _ => None
  end.

(** Modelled from the spec: the rows after the header, skipping empty
    lines. *)
Fixpoint parse_rows (rows : list string) : option (list tuple) :=
  match rows with
  | [] => Some []
  | row :: rest =>
      if String.eqb row "" then parse_rows rest
      else
        match parse_row row, parse_rows rest with
        | Some t, Some ts => Some (t :: ts)
        | _, _ => None
        end
  end.

(** Modelled from the spec: re-parsing a persisted tabular file, the header
    row first, then one row per level; empty lines are skipped. *)
Definition parse (text : string) : option (list tuple) :=
  match split_on (ascii_of_nat 10) text with
  | header :: rows =>
      if String.eqb header "Side,Level,Price,Size,Cumulative,Timestamp"
      then parse_rows rows
      else None
  | [] => None
  end.

(** A string without the character [c]. *)
Fixpoint lacks (c : ascii) (s : string) : bool :=
  match s with
  | EmptyString => true
  | String a rest => negb (Ascii.eqb a c) && lacks c rest
  end.

(** A string without the column and row separators. *)
Definition separator_free (s : string) : bool :=
  lacks "," s && lacks (ascii_of_nat 10) s.

(** A level whose price and size are strings and whose text fields hold no
    separator, as every decimal string and ISO timestamp does. *)
Definition plain_level (lv : OrderbookLevel) : Prop :=
  exists p s, price lv = VStr p /\ size lv = VStr s /\
    separator_free p = true /\ separator_free s = true /\
    separator_free (cumulative lv) = true /\ separator_free (timestamp lv) = true.

(** The text of a string value. *)
Definition text_of (v : value) : string :=
  match v with
  | VStr s => s
  | _ => ""
  end.

(** The row of a plain level. *)
Definition row_text (sd : string) (lv : OrderbookLevel) : string :=
  sd +:+ "," +:+ string_of_nat (level lv) +:+ "," +:+ text_of (price lv) +:+ ","
  +:+ text_of (size lv) +:+ "," +:+ cumulative lv +:+ "," +:+ timestamp lv.

End Tabular.

(** ** The data model of the specification

    Prices and sizes are decimal strings; a cumulative size is what
    [toFixed(4)] writes, a timestamp what [toISOString] writes. *)

Module DataModel.

Import JS.

(** Every character of [s] satisfies [p]. *)
Fixpoint only (p : ascii -> bool) (s : string) : bool :=
  match s with
  | EmptyString => true
  | String c rest => p c && only p rest
  end.

(** Modelled from the spec: what may follow the first digit of a decimal
    string, more digits and then possibly a point with digits behind it. *)
Fixpoint decimal_from (s : string) : bool :=
  match s with
  | EmptyString => true
  | String c rest =>
      if Num.is_digit c then decimal_from rest
      else if Ascii.eqb c "." then negb (String.eqb rest "") && only Num.is_digit rest
      else false
  end.

(** Modelled from the spec: a decimal string, digits with an optional
    fraction, such as [100.50] or [2]. *)
Definition decimal_string (s : string) : bool :=
  match s with
  | EmptyString => false
  | String c rest => Num.is_digit c && decimal_from rest
  end.

(** The characters of the strings [toFixed] and [toString] give for a
    number: digits, point, signs, the exponent mark and the letters of
    [NaN] and [Infinity]. *)
Definition number_char (c : ascii) : bool :=
  Num.is_digit c ||
  existsb (Ascii.eqb c) ["."; "-"; "+"; "e"; "N"; "a"; "I"; "n"; "f"; "i"; "t"; "y"]%char.

Definition number_text (s : string) : bool := only number_char s.

(** The characters of [Date.prototype.toISOString]:
    [YYYY-MM-DDTHH:mm:ss.sssZ], with a sign before a year of six digits. *)
Definition timestamp_char (c : ascii) : bool :=
  Num.is_digit c || existsb (Ascii.eqb c) ["-"; ":"; "."; "T"; "Z"; "+"]%char.

Definition timestamp_text (s : string) : bool := only timestamp_char s.

(** Modelled from the spec: a DepthLevel of the data model, with a decimal
    string as price and as size, a cumulative size written as a number and
    a timestamp. *)
Definition depth_level (lv : OrderbookLevel) : Prop :=
  exists p s,
    price lv = VStr p /\ size lv = VStr s /\
    decimal_string p = true /\ decimal_string s = true /\
    number_text (cumulative lv) = true /\ timestamp_text (timestamp lv) = true.

(** Modelled from the spec: a level of a raw snapshot that carries its price
    and its size as decimal strings. *)
Definition decimal_level (raw : value) : Prop :=
  exists p s,
    Get raw "px" = Ok (VStr p) /\ Get raw "sz" = Ok (VStr s) /\
    decimal_string p = true /\ decimal_string s = true.

End DataModel.

(** ** Sample inputs *)

Module Examples.

Import JS.

Definition raw_level (px sz : string) : value :=
  VObj [("px", VStr px); ("sz", VStr sz)].

Definition snapshot (bidSide askSide : list value) : value :=
  VObj [("coin", VStr "@1"); ("levels", VArr [VArr bidSide; VArr askSide])].

Definition l2Book_message (data : value) : value :=
  VObj [("channel", VStr "l2Book"); ("data", data)].

(** The snapshot of the worked example. *)
Definition example_bids : list value :=
  [raw_level "100.00" "2"; raw_level "99.50" "3"].

Definition example_asks : list value :=
  [raw_level "100.50" "1"; raw_level "101.00" "4"].

Definition example_snapshot : value := snapshot example_bids example_asks.

(** A bid whose price is not a number, and an ask level without [px] and
    [sz]. *)
Definition garbled_snapshot : value :=
  snapshot [raw_level "abc" "1"] [VObj []].

(** A payload without the [levels] field. *)
Definition no_levels : value := VObj [("coin", VStr "@1")].

(** No bids at all. *)
Definition no_bids_snapshot : value := snapshot [] [raw_level "100.50" "1"].

(** An empty ask side under a bid of 3.7. *)
Definition one_sided_snapshot : value := snapshot [raw_level "3.7" "2"] [].

(** The same in both variants, with ten more bid levels behind the first
    and an eleventh that has no usable size. *)
Definition deep_one_sided_snapshot : value :=
  snapshot (raw_level "3.7" "2" :: repeat (raw_level "3.6" "1") 9
            ++ [VObj [("px", VStr "3.5"); ("sz", VObj [("toString", VNum Num.zero)])]]) [].

(** A price of 310 digits, a one followed by 309 zeros: a decimal string
    above the largest binary64 number.  An empty ask side under a bid at
    that price. *)
Definition huge_price : string := "1" +:+ Num.zeros 309.

Definition huge_bid_snapshot : value := snapshot [raw_level huge_price "2"] [].

Definition stamp : string := "2025-01-01T00:00:00.000Z".

(** The record of the worked example. *)
Definition example_record : CoinOrderbook :=
  {| symbol := "@1"; displaySymbol := "@1"; lastUpdate := stamp; midPrice := "0";
     spread := "0.50000000"; spreadPercentage := "0.5000%";
     bids := [ {| level := 1; price := VStr "100.00"; size := VStr "2";
                  cumulative := "2.0000"; timestamp := stamp |};
               {| level := 2; price := VStr "99.50"; size := VStr "3";
                  cumulative := "5.0000"; timestamp := stamp |} ];
     asks := [ {| level := 1; price := VStr "100.50"; size := VStr "1";
                  cumulative := "1.0000"; timestamp := stamp |};
               {| level := 2; price := VStr "101.00"; size := VStr "4";
                  cumulative := "5.0000"; timestamp := stamp |} ] |}.

(** A valid l2Book message, and [n] of them in a row with no save settling
    in between. *)
Definition example_message : value := l2Book_message example_snapshot.

Definition flood (n : nat) : list YesSave.event :=
  repeat (YesSave.Message stamp (Some example_message)) n.

End Examples.

(** ** Characters of a string *)

Module Text.

(** [s] holds the character [c]. *)
Fixpoint occurs (c : ascii) (s : string) : bool :=
  match s with
  | EmptyString => false
  | String a rest => Ascii.eqb a c || occurs c rest
  end.

End Text.

(** ** Loading the spot metadata and starting the collector

    [initSpotMetadata], the start-up function and the [open] handler are the
    same in both files.  The properties read here ([tokens], [universe],
    [index], [name]) are, like those of a message, names that no built-in
    prototype of a parsed value defines, so [Get] gives what the program
    reads. *)

Module Metadata.

Import JS.

(** SameValueZero, the key comparison of a [Map]: numbers by value ([+0]
    equals [-0], [NaN] equals itself), objects and arrays by identity.  The
    keys stored come from [spotMetadata.tokens] and the keys looked up from
    [spotMetadata.universe], and every array or object of a parsed document
    is an object of its own, so two of them are never the same. *)
Definition same_value_zero (a b : value) : bool :=
  match a, b with
  | VUndefined, VUndefined => true
  | VNull, VNull => true
  | VBool x, VBool y => Bool.eqb x y
  | VNum S754_nan, VNum S754_nan => true
  | VNum x, VNum y => SFeqb x y
  | VStr x, VStr y => String.eqb x y
  | _, _ => false
  end.

(** [tokenMap]: the entries set so far, the latest first. *)
Definition tokenMap_get (tokenMap : list (value * value)) (key : value) : value :=
  match find (fun entry => same_value_zero (fst entry) key) tokenMap with
  | Some entry => snd entry
  | None => VUndefined
  end.

(** The receiver of [forEach]: only an array has one. *)
Definition array_elements (v : value) : result (list value) :=
  match v with
  | VArr elems => Ok elems
  | _ => Throw TypeError
  end.

(** [spotMetadata.tokens.forEach((token) => { tokenMap.set(token.index, token.name); })] *)
Fixpoint load_tokens (tokens : list value) (tokenMap : list (value * value)) :
    result (list (value * value)) :=
  match tokens with
  | [] => Ok tokenMap
  | token :: rest =>
      let* index := Get token "index" in
      let* name := Get token "name" in
      load_tokens rest ((index, name) :: tokenMap)
  end.

(** [tokenMap.get(tokenIndex) || `Token${tokenIndex}`] *)
Definition token_name (tokenMap : list (value * value)) (tokenIndex : value) : result value :=
  let name := tokenMap_get tokenMap tokenIndex in
  if truthy name then Ok name
  else let* digits := ToString tokenIndex in Ok (VStr ("Token" +:+ digits)).

(** The callback of [spotMetadata.universe.forEach] up to its two [set]
    calls: [None] for a pair whose name does not start with [@], otherwise
    the name pushed to [spotCoins], with the display name when the pair has
    exactly two tokens. *)
Definition pair_entry (tokenMap : list (value * value)) (pair : value) :
    result (option (string * option string)) :=
  let* name := Get pair "name" in
  let* name_string := string_receiver name in
  if String.prefix "@" name_string then
    let* tokens := Get pair "tokens" in
    let* tokenNames := array_map tokens (token_name tokenMap) in
    match tokenNames with
    | [first; second] =>
        let* a := ToString first in
        let* b := ToString second in
        Ok (Some (name_string, Some (a +:+ "-" +:+ b)))
    | _ => Ok (Some (name_string, None))
    end
  else Ok None.

(** The two global maps the function fills. *)
Record registry : Type := {
  spotSymbolMapping : gmap string string;
  reverseLookup : gmap string string
}.

Definition empty_registry : registry :=
  {| spotSymbolMapping := ∅; reverseLookup := ∅ |}.

(** [spotMetadata.universe.forEach(...)]: the maps as the loop leaves them,
    also when a callback throws, and [spotCoins] when none does. *)
Fixpoint load_universe (tokenMap : list (value * value)) (universe : list value)
    (maps : registry) (spotCoins : list string) : registry * result (list string) :=
  match universe with
  | [] => (maps, Ok spotCoins)
  | spotPair :: rest =>
      match pair_entry tokenMap spotPair with
      | Throw e => (maps, Throw e)
      | Ok None => load_universe tokenMap rest maps spotCoins
      | Ok (Some (name, None)) =>
          load_universe tokenMap rest maps (spotCoins ++ [name])
      | Ok (Some (name, Some displayName)) =>
          load_universe tokenMap rest
            {| spotSymbolMapping := <[name := displayName]> (spotSymbolMapping maps);
               reverseLookup := <[displayName := name]> (reverseLookup maps) |}
            (spotCoins ++ [name])
      end
  end.

(** The part of the [try] block before the second loop. *)
Definition read_metadata (spotMetadata : value) :
    result (list (value * value) * list value) :=
  let* tokens := Get spotMetadata "tokens" in
  let* tokenList := array_elements tokens in
  let* tokenMap := load_tokens tokenList [] in
  let* universe := Get spotMetadata "universe" in
  let* pairs := array_elements universe in
  Ok (tokenMap, pairs).

(** [initSpotMetadata].  [response] is the result of [response.json()],
    [None] when the request or the parsing fails; the [catch] block returns
    the empty list and leaves the maps as they are at that moment. *)
Definition initSpotMetadata (response : option value) (maps : registry) :
    registry * list string :=
  match response with
  | None => (maps, [])
  | Some spotMetadata =>
      match read_metadata spotMetadata with
      | Throw _ => (maps, [])
      | Ok (tokenMap, pairs) =>
          match load_universe tokenMap pairs maps [] with
          | (maps', Ok spotCoins) => (maps', spotCoins)
          | (maps', Throw _) => (maps', [])
          end
      end
  end.

(** The name of a pair, when it is a string, and the names of a universe
    that start with [@], in order. *)
Definition pair_name (spotPair : value) : option string :=
  match Get spotPair "name" with
  | Ok (VStr s) => Some s
  | _ => None
  end.

Definition spot_names (universe : list value) : list string :=
  List.filter (String.prefix "@") (omap pair_name universe).

(** Metadata as the exchange documents it: a token has a number as index
    and a string as name, a pair a string as name and an array of numbers
    as tokens. *)
Definition plain_token (token : value) : Prop :=
  exists index name, Get token "index" = Ok (VNum index) /\ Get token "name" = Ok (VStr name).

Definition plain_pair (spotPair : value) : Prop :=
  exists name indices,
    Get spotPair "name" = Ok (VStr name) /\
    Get spotPair "tokens" = Ok (VArr (map VNum indices)).

(** The maps hold spot names and hyphenated display names only, and every
    name the reverse map gives is a key of the forward map. *)
Definition well_formed (g : registry) : Prop :=
  (forall n d, spotSymbolMapping g !! n = Some d ->
     String.prefix "@" n = true /\ Text.occurs "-" d = true) /\
  (forall d n, reverseLookup g !! d = Some n ->
     String.prefix "@" n = true /\ Text.occurs "-" d = true /\
     is_Some (spotSymbolMapping g !! n)).

(** The reverse map inverts the forward map while the names are distinct. *)
Definition inverse_on (g : registry) (seen : list string) : Prop :=
  (forall d n, reverseLookup g !! d = Some n -> spotSymbolMapping g !! n = Some d) /\
  (forall n, is_Some (spotSymbolMapping g !! n) -> n ∈ seen).

(** What [runWebSocketCollector] (mode B) and [run] (mode A) have when they
    call [connectWebSocket]. *)
Record session : Type := {
  maps : registry;
  mids : gmap string string;
  spotCoins : list string
}.

(** The start-up function up to the call of [connectWebSocket] (in mode B
    after the output directory has been made): [None] when it returns
    before, for want of spot coins.  [midPrices] is the result of
    the first [updateMidPrices], [None] when it fails and the cache stays
    empty. *)
Definition runWebSocketCollector (response : option value)
    (midPrices : option (gmap string string)) : option session :=
  let '(maps', coins) := initSpotMetadata response empty_registry in
  match coins with
  | [] => None
  | _ => Some {| maps := maps'; mids := default ∅ midPrices; spotCoins := coins |}
  end.

(** The object of one [ws.send(JSON.stringify({ ... }))] of the [open]
    handler. *)
Definition subscription (coin : string) : value :=
  VObj [("method", VStr "subscribe");
        ("subscription", VObj [("type", VStr "l2Book"); ("coin", VStr coin)])].

(** [ws.on('open', ...)]: the requests sent, in order. *)
Definition on_open (spotCoins : list string) : list value :=
  map subscription spotCoins.

End Metadata.

(** ** The vocabulary of the handler properties *)

Module Handlers.

Import JS Spec.

(** Where a cached record comes from. *)
Definition from_message (mapping mids : gmap string string)
    (msgs : list (string * option value)) (k : string) (r : CoinOrderbook) : Prop :=
  symbol r = k /\ String.prefix "@" k = true /\
  exists now message payload,
    In (now, Some message) msgs /\
    NoSave.accept message = Ok (Some (k, payload)) /\
    NoSave.processOrderbookData mapping mids now k payload = Some r.

(** The counters of mode B between two moments of one connection: the
    counters and the set of updated display symbols are locals of the
    [connectWebSocket] call, the queue belongs to the module and may hold
    the unfinished saves of earlier connections. *)
Definition counted (st st' : YesSave.state) : Prop :=
  (YesSave.updateCount st <= YesSave.updateCount st')%nat /\
  (YesSave.processCount st <= YesSave.processCount st')%nat /\
  (YesSave.updateCount st' + YesSave.processCount st
   <= YesSave.updateCount st + YesSave.processCount st')%nat /\
  YesSave.updatedCoins st ⊆ YesSave.updatedCoins st' /\
  (base.size (YesSave.updatedCoins st') + YesSave.updateCount st
   <= base.size (YesSave.updatedCoins st) + YesSave.updateCount st')%nat /\
  (base.size (YesSave.saveQueue st') + YesSave.updateCount st
   <= base.size (YesSave.saveQueue st) + YesSave.updateCount st')%nat.

(** The two variants after the same messages. *)
Definition alike (stA : NoSave.state) (stB : YesSave.state) : Prop :=
  NoSave.allMidsCache stA = YesSave.allMidsCache stB /\
  NoSave.processCount stA = YesSave.processCount stB /\
  YesSave.exited stB = false /\
  YesSave.saveQueue stB !! YesSave.promises stB = None /\
  (forall k r, NoSave.latestOrderbooks stA !! k = Some r ->
               exists p, YesSave.saveQueue stB !! p = Some r) /\
  (forall p r, YesSave.saveQueue stB !! p = Some r ->
               is_Some (NoSave.latestOrderbooks stA !! symbol r)).

(** The records in the queue of mode B are for spot coins, under the display
    symbol the mapping gives. *)
Definition queued_for (mapping : gmap string string) (st : YesSave.state) : Prop :=
  forall p r, YesSave.saveQueue st !! p = Some r ->
    String.prefix "@" (symbol r) = true /\
    displaySymbol r = or_else (mapping !! symbol r) (symbol r).

End Handlers.

(** ** [saveOrderbookToFile]: the folder of a record *)

Module Persist.

(** The characters the regular expression of [replace] matches: slash,
    backslash, colon, asterisk, question mark, double quote (code 34),
    less-than, greater-than and the vertical bar. *)
Definition reserved (c : ascii) : bool :=
  existsb (Ascii.eqb c)
    ["/"; "\"; ":"; "*"; "?"; ascii_of_nat 34; "<"; ">"; "|"]%char.

(** [s.replace(..., '-')] with the [g] flag: every such character becomes
    a hyphen. *)
Fixpoint replace_reserved (s : string) : string :=
  match s with
  | EmptyString => EmptyString
  | String c rest => String (if reserved c then "-"%char else c) (replace_reserved rest)
  end.

Definition safeFolderName (coinData : CoinOrderbook) : string :=
  replace_reserved (displaySymbol coinData).

End Persist.

(** ** [saveOrderbookToFile]: the directory and the three writes

    A call of [saveOrderbookToFile] runs in the message handler up to
    [await fs.mkdir(...)].  When the directory is there it builds the three
    texts, calls [fs.writeFile] three times and waits for
    [Promise.all] of the three promises; an exception at any of these
    points lands in the [catch] block, which logs it, and the function
    returns.  [Promise.all] is rejected as soon as one write has failed,
    whatever the other writes are doing. *)

Module Saving.

Import JS.

(** One [fs.writeFile] call. *)
Inductive write : Set := Pending | Written | Failed.

Inductive file : Set := Json | Csv | Summary.

(** Where a call of [saveOrderbookToFile] stands: suspended at
    [await fs.mkdir(...)]; or past it, with the three writes started; or in
    the [catch] block before any write was started. *)
Inductive task : Set :=
| MakingDir
| Writing (json csv summary : write)
| Caught.

Definition is_pending (w : write) : bool :=
  match w with Pending => true | _ => false end.

Definition is_written (w : write) : bool :=
  match w with Written => true | _ => false end.

Definition is_failed (w : write) : bool :=
  match w with Failed => true | _ => false end.

(** The function has returned, so that its promise is settled: after the
    [catch] block, or after [await Promise.all([...])], which is fulfilled
    when the three writes have succeeded and rejected when one has failed. *)
Definition returned (t : task) : bool :=
  match t with
  | MakingDir => false
  | Caught => true
  | Writing j c s =>
      (is_written j && is_written c && is_written s)
      || is_failed j || is_failed c || is_failed s
  end.

(** A [fs.writeFile] call of the task has been started and has not
    finished. *)
Definition mid_write (t : task) : bool :=
  match t with
  | Writing j c s => is_pending j || is_pending c || is_pending s
  | _ => false
  end.

Definition write_of (f : file) (t : task) : option write :=
  match t with
  | Writing j c s => Some match f with Json => j | Csv => c | Summary => s end
  | _ => None
  end.

Definition finish (f : file) (w : write) (t : task) : task :=
  match t with
  | Writing j c s =>
      match f with
      | Json => Writing w c s
      | Csv => Writing j w s
      | Summary => Writing j c w
      end
  | _ => t
  end.

(** [${v || 'N/A'}] in the summary, for [v] the price or size of the first
    level of a side, [undefined] when the side is empty. *)
Definition shown (v : option value) : result string :=
  match v with
  | Some x => if truthy x then ToString x else Ok "N/A"
  | None => Ok "N/A"
  end.

(** What is evaluated between [await fs.mkdir(...)] and the first
    [fs.writeFile] call and can throw: the rows of [csvContent] and the
    four prices and sizes of the summary.  The other fields of the summary
    are strings, and [JSON.stringify] does not throw on a record made of
    strings, numbers and values that [JSON.parse] has returned. *)
Definition build_texts (coinData : CoinOrderbook) : result unit :=
  let* csvContent := YesSave.csvContent coinData in
  let* bidPrice := shown (option_map price (head (bids coinData))) in
  let* bidSize := shown (option_map size (head (bids coinData))) in
  let* askPrice := shown (option_map price (head (asks coinData))) in
  let* askSize := shown (option_map size (head (asks coinData))) in
  Ok tt.

(** The process: the state of the event loop, and where each call of
    [saveOrderbookToFile] stands, under the number of its promise. *)
Record state : Type := {
  loop : YesSave.state;
  tasks : gmap nat task
}.

Definition init : state := {| loop := YesSave.init; tasks := ∅ |}.

(** What the event loop runs: the callbacks of [YesSave.event], with the
    settlement of a save split into the completions of its [fs.mkdir] and
    of its three [fs.writeFile] calls ([ok] tells success from failure). *)
Inductive event : Type :=
| Message (now : string) (data : option value)
| Sigint
| MidPrices (mids : option (gmap string string))
| MkdirDone (p : nat) (ok : bool)
| WriteDone (p : nat) (f : file) (ok : bool).

(** A message: when the handler has called [saveOrderbookToFile], the new
    call is suspended at [await fs.mkdir(...)]. *)
Definition on_message (spotSymbolMapping : gmap string string) (now : string)
    (data : option value) (st : state) : state :=
  let loop' := YesSave.on_message spotSymbolMapping now data (loop st) in
  {| loop := loop';
     tasks := if (YesSave.promises (loop st) <? YesSave.promises loop')%nat
              then <[YesSave.promises (loop st) := MakingDir]> (tasks st)
              else tasks st |}.

(** [fs.mkdir] finishes.  After a failure, and when building the texts
    throws, the [catch] block runs and the function returns: its promise
    settles.  Otherwise the three writes are started. *)
Definition on_mkdir (p : nat) (ok : bool) (st : state) : state :=
  match tasks st !! p, YesSave.saveQueue (loop st) !! p with
  | Some MakingDir, Some coinData =>
      match ok, build_texts coinData with
      | true, Ok _ =>
          {| loop := loop st; tasks := <[p := Writing Pending Pending Pending]> (tasks st) |}
      | _, _ =>
          {| loop := YesSave.on_settled p (loop st); tasks := <[p := Caught]> (tasks st) |}
      end
  | _, _ => st
  end.

(** One [fs.writeFile] finishes.  The function returns, and its promise
    settles, when this is the first write to fail or the last one to
    succeed; a write that finishes after the function has returned changes
    nothing but the file. *)
Definition on_write (p : nat) (f : file) (ok : bool) (st : state) : state :=
  match tasks st !! p with
  | Some t =>
      match write_of f t with
      | Some Pending =>
          let t' := finish f (if ok then Written else Failed) t in
          {| loop := if negb (returned t) && returned t'
                     then YesSave.on_settled p (loop st)
                     else loop st;
             tasks := <[p := t']> (tasks st) |}
      | _ => st
      end
  | None => st
  end.

(** Nothing runs after [process.exit]. *)
Definition step (spotSymbolMapping : gmap string string) (st : state) (ev : event) : state :=
  if YesSave.exited (loop st) then st
  else
    match ev with
    | Message now data => on_message spotSymbolMapping now data st
    | Sigint => {| loop := YesSave.on_sigint (loop st); tasks := tasks st |}
    | MidPrices mids => {| loop := YesSave.on_mids mids (loop st); tasks := tasks st |}
    | MkdirDone p ok => on_mkdir p ok st
    | WriteDone p f ok => on_write p f ok st
    end.

Definition run (spotSymbolMapping : gmap string string)
    (evs : list event) (st : state) : state :=
  fold_left (step spotSymbolMapping) evs st.

(** The calls and the queue go together: the queue holds the promises of
    the calls that have not returned. *)
Definition tracked (st : state) : Prop :=
  (forall p, p ∈ dom (tasks st) -> (p < YesSave.promises (loop st))%nat) /\
  (forall p, p ∈ dom (YesSave.saveQueue (loop st)) ->
     exists t, tasks st !! p = Some t /\ returned t = false) /\
  (forall p t, tasks st !! p = Some t -> returned t = false ->
     p ∈ dom (YesSave.saveQueue (loop st))).

(** [n] valid messages, then the directory of each save is made. *)
Definition writing (n : nat) : list event :=
  repeat (Message Examples.stamp (Some Examples.example_message)) n
  ++ map (fun p => MkdirDone p true) (seq 0 n).

(** The JSON write of each of the saves [ps] fails. *)
Definition json_fails (ps : list nat) : list event :=
  map (fun p => WriteDone p Json false) ps.

(** The three writes of each of the first [n] saves succeed. *)
Definition all_written (n : nat) : list event :=
  flat_map (fun p => [WriteDone p Json true; WriteDone p Csv true; WriteDone p Summary true])
           (seq 0 n).

End Saving.

(** ** The rate shown on the progress line

    Of the line the message handler writes to stdout after a record has been
    cached or queued, the two computed fields [elapsed] and [updatesPerSec].
    [processCount] is below 2^53. *)

Module Progress.

Definition number_of_count (processCount : nat) : Num.number :=
  Num.of_Z (Z.of_nat processCount).

(** [((Date.now() - startTime) / 1000).toFixed(0)]; [now] is [Date.now()]. *)
Definition elapsed (now startTime : Num.number) : string :=
  Num.toFixed (Num.div (Num.sub now startTime) (Num.of_Z 1000)) 0.

(** [src/yessave.ts]: [(processCount / parseFloat(elapsed)).toFixed(2)] *)
Definition updatesPerSec_B (processCount : nat) (elapsed : string) : string :=
  Num.toFixed (Num.div (number_of_count processCount) (Num.parse_decimal elapsed)) 2.

(** [src/nosave.ts]:
    [(parseFloat(elapsed) > 0 ? (processCount / parseFloat(elapsed)) : 0).toFixed(2)] *)
Definition updatesPerSec_A (processCount : nat) (elapsed : string) : string :=
  Num.toFixed
    (if Num.gt (Num.parse_decimal elapsed) Num.zero
     then Num.div (number_of_count processCount) (Num.parse_decimal elapsed)
     else Num.of_Z 0) 2.

End Progress.

(** ** Connections, their timers and the stop signal

    What [connectWebSocket] sets up besides the message handler, the same in
    both files: the [close] handler that schedules a reconnect, the two
    intervals and the SIGINT listener of the connection. *)

Module Lifecycle.

(** One call of [connectWebSocket]: whether its socket has emitted [close],
    whether its two intervals are active, and whether the timer its [close]
    handler sets is pending. *)
Record connection : Type := {
  closed : bool;
  statsInterval : bool;
  midPriceInterval : bool;
  reconnectTimeout : bool
}.

(** [refreshes] counts the calls of [updateMidPrices] the intervals make. *)
Record state : Type := {
  isRunning : bool;
  exited : bool;
  connections : list connection;
  refreshes : nat
}.

Definition with_connections (st : state) (cs : list connection) : state :=
  {| isRunning := isRunning st; exited := exited st;
     connections := cs; refreshes := refreshes st |}.

(** [connectWebSocket(spotCoins)]: a new socket, two new intervals, one more
    SIGINT listener. *)
Definition connectWebSocket (st : state) : state :=
  with_connections st
    (connections st ++
     [{| closed := false; statsInterval := true; midPriceInterval := true;
         reconnectTimeout := false |}]).

(** The start-up function has called [connectWebSocket] once. *)
Definition start : state :=
  connectWebSocket {| isRunning := true; exited := false; connections := []; refreshes := 0 |}.

(** [ws.on('close', ...)] of connection [i]; a socket closes once. *)
Definition on_close (i : nat) (st : state) : state :=
  match connections st !! i with
  | Some c =>
      if closed c then st
      else
        with_connections st
          (<[i := {| closed := true;
                     statsInterval := statsInterval c;
                     midPriceInterval := midPriceInterval c;
                     reconnectTimeout := if isRunning st then true else reconnectTimeout c |}]>
             (connections st))
  | None => st
  end.

(** The callback of [setTimeout(() => connectWebSocket(spotCoins), 5000)] of
    connection [i], when the timer has not been cleared. *)
Definition on_reconnect (i : nat) (st : state) : state :=
  match connections st !! i with
  | Some c =>
      if reconnectTimeout c then
        connectWebSocket
          (with_connections st
             (<[i := {| closed := closed c;
                        statsInterval := statsInterval c;
                        midPriceInterval := midPriceInterval c;
                        reconnectTimeout := false |}]> (connections st)))
      else st
  | None => st
  end.

(** The callback of [statsInterval] of connection [i]. *)
Definition on_stats (i : nat) (st : state) : state :=
  match connections st !! i with
  | Some c =>
      if statsInterval c then
        if isRunning st then st
        else
          with_connections st
            (<[i := {| closed := closed c;
                       statsInterval := false;
                       midPriceInterval := midPriceInterval c;
                       reconnectTimeout := reconnectTimeout c |}]> (connections st))
      else st
  | None => st
  end.

(** The callback of [midPriceInterval] of connection [i]. *)
Definition on_midPrice (i : nat) (st : state) : state :=
  match connections st !! i with
  | Some c =>
      if midPriceInterval c then
        if isRunning st then
          {| isRunning := isRunning st; exited := exited st;
             connections := connections st; refreshes := S (refreshes st) |}
        else
          with_connections st
            (<[i := {| closed := closed c;
                       statsInterval := statsInterval c;
                       midPriceInterval := false;
                       reconnectTimeout := reconnectTimeout c |}]> (connections st))
      else st
  | None => st
  end.

(** The SIGINT listener of one connection: both intervals and the timer are
    cleared and the socket is asked to close. *)
Definition stop_connection (c : connection) : connection :=
  {| closed := closed c; statsInterval := false; midPriceInterval := false;
     reconnectTimeout := false |}.

(** SIGINT.  The listener registered first is the global one: it clears
    [isRunning] and then calls [process.exit(0)], in mode A at once, in mode
    B at once when no save is in flight ([exits]); otherwise it is suspended
    and the listeners of the connections run after it. *)
Definition on_sigint (exits : bool) (st : state) : state :=
  if exits then
    {| isRunning := false; exited := true;
       connections := connections st; refreshes := refreshes st |}
  else
    {| isRunning := false; exited := exited st;
       connections := map stop_connection (connections st); refreshes := refreshes st |}.

(** The suspended global listener of mode B resumes and calls
    [process.exit(0)]. *)
Definition on_exit (st : state) : state :=
  if isRunning st then st
  else
    {| isRunning := false; exited := true;
       connections := connections st; refreshes := refreshes st |}.

Inductive event : Type :=
| Close (i : nat)
| ReconnectTimer (i : nat)
| StatsTick (i : nat)
| MidPriceTick (i : nat)
| Sigint (exits : bool)
| Exit.

(** Nothing runs after [process.exit]. *)
Definition step (st : state) (ev : event) : state :=
  if exited st then st
  else
    match ev with
    | Close i => on_close i st
    | ReconnectTimer i => on_reconnect i st
    | StatsTick i => on_stats i st
    | MidPriceTick i => on_midPrice i st
    | Sigint exits => on_sigint exits st
    | Exit => on_exit st
    end.

Definition run (evs : list event) (st : state) : state := fold_left step evs st.

(** [k] times: the open socket closes and its reconnect timer fires. *)
Fixpoint outages (first k : nat) : list event :=
  match k with
  | O => []
  | S k' => Close first :: ReconnectTimer first :: outages (S first) k'
  end.

Definition is_sigint (ev : event) : bool :=
  match ev with
  | Sigint _ => true
  | _ => false
  end.

(** While the collector runs: the intervals of every connection are active,
    a pending reconnect timer belongs to a closed socket, and at most one
    connection has an open socket or a pending timer. *)
Definition current (c : connection) : Prop :=
  closed c = false \/ reconnectTimeout c = true.

Definition running (st : state) : Prop :=
  isRunning st = true /\ exited st = false /\
  Forall (fun c => statsInterval c = true /\ midPriceInterval c = true /\
                   (reconnectTimeout c = true -> closed c = true)) (connections st) /\
  (forall i j ci cj,
     connections st !! i = Some ci -> connections st !! j = Some cj ->
     current ci -> current cj -> i = j).

(** After the stop signal: nothing is scheduled any more. *)
Definition stopped (st : state) : Prop :=
  exited st = true \/
  (isRunning st = false /\
   Forall (fun c => midPriceInterval c = false /\ reconnectTimeout c = false)
          (connections st)).

(** A connection whose socket has closed and whose reconnect has been made,
    and one whose socket is open. *)
Definition spent : connection :=
  {| closed := true; statsInterval := true; midPriceInterval := true;
     reconnectTimeout := false |}.

Definition fresh_connection : connection :=
  {| closed := false; statsInterval := true; midPriceInterval := true;
     reconnectTimeout := false |}.

(** A connection whose socket has closed and whose reconnect timer is
    pending. *)
Definition awaiting : connection :=
  {| closed := true; statsInterval := true; midPriceInterval := true;
     reconnectTimeout := true |}.

End Lifecycle.

(** ** More sample inputs *)

Module Samples.

Import JS.

(** [n] equal levels. *)
Definition ladder (n : nat) : list value := repeat (Examples.raw_level "100.00" "1") n.

(** Two snapshots that differ from the eleventh bid on. *)
Definition deep_snapshot : value :=
  Examples.snapshot (ladder 10 ++ [Examples.raw_level "99.00" "5"]) [].

Definition deep_snapshot' : value :=
  Examples.snapshot
    (ladder 10 ++ [Examples.raw_level "98.00" "7"; Examples.raw_level "abc" "x"]) [].

(** A bid side whose second size is not a number. *)
Definition poisoned_bids : list value :=
  [Examples.raw_level "100.00" "1"; Examples.raw_level "99.00" "n/a";
   Examples.raw_level "98.00" "2"].

Definition poisoned_snapshot : value := Examples.snapshot poisoned_bids [].

(** Spot metadata: three tokens, a pair without the [@] prefix and two
    spot pairs, the second with a token the list does not have. *)
Definition token (index : Z) (name : string) : value :=
  VObj [("index", VNum (Num.of_Z index)); ("name", VStr name)].

Definition spot_pair (name : string) (tokens : list Z) : value :=
  VObj [("name", VStr name);
        ("tokens", VArr (map (fun i => VNum (Num.of_Z i)) tokens))].

Definition metadata (tokens universe : list value) : value :=
  VObj [("tokens", VArr tokens); ("universe", VArr universe)].

Definition example_tokens : list value :=
  [token 0 "USDC"; token 1 "PURR"; token 2 "HFUN"].

Definition example_universe : list value :=
  [spot_pair "PURR/USDC" [1; 0]; spot_pair "@1" [2; 0]; spot_pair "@2" [1; 7]]%Z.

Definition example_metadata : value := metadata example_tokens example_universe.

(** The same with a pair whose name is a number in the middle. *)
Definition broken_metadata : value :=
  metadata example_tokens
    [spot_pair "@1" [2; 0]%Z; VObj [("name", VNum (Num.of_Z 5))]; spot_pair "@2" [1; 7]%Z].

End Samples.

(** * Properties *)

(** ** Facts about binary64 arithmetic *)

Module NumFacts.

Import Num.
Local Open Scope Z_scope.

Lemma fexp_eq (z : Z) : fexp prec emax z = Z.max (z - 53) (-1074).
Proof. reflexivity. Qed.

Lemma digits2_log2 (m : positive) : Zpos (digits2_pos m) = Z.log2 (Zpos m) + 1.
Proof.
  induction m as [m IH | m IH |]; cbn [digits2_pos]; rewrite ?Pos2Z.inj_succ, ?IH.
  - destruct m; reflexivity || (cbn; lia).
  - destruct m; reflexivity || (cbn; lia).
  - reflexivity.
Qed.

Lemma shr_m_of_loc (m : Z) (l : location) : shr_m (shr_record_of_loc m l) = m.
Proof. destruct l as [|[]]; reflexivity. Qed.

Lemma shr_1_m (mrs : shr_record) :
  0 <= shr_m mrs -> shr_m (shr_1 mrs) = Z.shiftr (shr_m mrs) 1.
Proof.
  rewrite <- Z.div2_spec.
  destruct mrs as [m r s]; cbn.
  destruct m as [|[p|p|]|p]; intros; try reflexivity; lia.
Qed.

Lemma iter_shr_m (p : positive) :
  forall mrs, 0 <= shr_m mrs ->
    shr_m (SpecFloat.iter_pos shr_1 p mrs) = Z.shiftr (shr_m mrs) (Zpos p).
Proof.
  induction p as [p IH | p IH |]; intros mrs Hm; cbn [SpecFloat.iter_pos].
  - assert (H1 : 0 <= shr_m (shr_1 mrs)) by (rewrite shr_1_m by easy; now apply Z.shiftr_nonneg).
    assert (H2 : 0 <= shr_m (SpecFloat.iter_pos shr_1 p (shr_1 mrs))) by (rewrite IH by easy; now apply Z.shiftr_nonneg).
    rewrite IH, IH, shr_1_m by easy.
    rewrite !Z.shiftr_shiftr by lia. f_equal. lia.
  - assert (H2 : 0 <= shr_m (SpecFloat.iter_pos shr_1 p mrs)) by (rewrite IH by easy; now apply Z.shiftr_nonneg).
    rewrite IH, IH by easy.
    rewrite !Z.shiftr_shiftr by lia. f_equal. lia.
  - now apply shr_1_m.
Qed.

(** [shr_fexp] when the exponent is not above the canonical one. *)
Lemma shr_fexp_m (m e : Z) (l : location) :
  0 <= m -> e <= fexp prec emax (Zdigits2 m + e) ->
  exists mrs, shr_fexp prec emax m e l = (mrs, fexp prec emax (Zdigits2 m + e))
    /\ shr_m mrs = Z.shiftr m (fexp prec emax (Zdigits2 m + e) - e).
Proof.
  intros Hm He. unfold shr_fexp, shr.
  destruct (fexp prec emax (Zdigits2 m + e) - e) as [|p|p] eqn:Hn; try lia.
  - eexists; split; [f_equal; lia|]. now rewrite shr_m_of_loc, Z.shiftr_0_r.
  - eexists; split; [f_equal; lia|]. rewrite iter_shr_m; now rewrite shr_m_of_loc.
Qed.

Lemma round_nearest_even_cases (m : Z) (l : location) :
  round_nearest_even m l = m \/ round_nearest_even m l = m + 1.
Proof. destruct l as [|[]]; cbn; try destruct (Z.even m); auto. Qed.

Lemma Zdigits2_log2 (m : Z) : 0 < m -> Zdigits2 m = Z.log2 m + 1.
Proof. destruct m; try lia. intros _. apply digits2_log2. Qed.


Lemma canonical_after_shift (m e : Z) :
  0 < m -> e <= fexp prec emax (Zdigits2 m + e) ->
  0 < Z.shiftr m (fexp prec emax (Zdigits2 m + e) - e) ->
  fexp prec emax (Zdigits2 (Z.shiftr m (fexp prec emax (Zdigits2 m + e) - e))
                  + fexp prec emax (Zdigits2 m + e))
  = fexp prec emax (Zdigits2 m + e).
Proof.
  intros Hm He Hpos.
  set (e' := fexp prec emax (Zdigits2 m + e)) in *.
  rewrite (Zdigits2_log2 (Z.shiftr m (e' - e))) by assumption.
  rewrite Z.log2_shiftr by assumption.
  assert (Hn : e' - e <= Z.log2 m).
  { destruct (Z.le_gt_cases (e' - e) (Z.log2 m)) as [H|H]; [assumption|].
    assert (Z.shiftr m (e' - e) = 0) by (apply Z.shiftr_eq_0; lia). lia. }
  replace (Z.max 0 (Z.log2 m - (e' - e)) + 1 + e') with (Zdigits2 m + e).
  - reflexivity.
  - rewrite (Zdigits2_log2 m) by assumption. lia.
Qed.

Lemma Zdigits2_mono (a b : Z) : 0 < a -> a <= b -> Zdigits2 a <= Zdigits2 b.
Proof.
  intros Ha Hab. rewrite !Zdigits2_log2 by lia.
  pose proof (Z.log2_le_mono a b Hab). lia.
Qed.

Lemma Zdigits2_succ (a : Z) : 0 < a -> Zdigits2 (a + 1) <= Zdigits2 a + 1.
Proof.
  intros Ha. rewrite !Zdigits2_log2 by lia.
  pose proof (Z.log2_succ_le a). unfold Z.succ in *. lia.
Qed.

Lemma binary_round_aux_pos (s : bool) (m : positive) (e : Z) (l : location) :
  e <= fexp prec emax (Zdigits2 (Zpos m) + e) ->
  rounded_ok s (fexp prec emax (Zdigits2 (Zpos m) + e))
    (Z.shiftr (Zpos m) (fexp prec emax (Zdigits2 (Zpos m) + e) - e))
    (binary_round_aux prec emax s (Zpos m) e l).
Proof.
  intros He. unfold binary_round_aux.
  destruct (shr_fexp_m (Zpos m) e l) as (mrs & -> & Hm1); [lia | assumption |].
  set (e1 := fexp prec emax (Zdigits2 (Zpos m) + e)) in *.
  set (m1 := Z.shiftr (Zpos m) (e1 - e)) in *.
  rewrite Hm1.
  assert (Hm1nn : 0 <= m1) by (apply Z.shiftr_nonneg; lia).
  set (m2 := round_nearest_even m1 (loc_of_shr_record mrs)).
  assert (Hm2 : m2 = m1 \/ m2 = m1 + 1) by apply round_nearest_even_cases.
  assert (Hcanon1 : 0 < m1 -> fexp prec emax (Zdigits2 m1 + e1) = e1).
  { intros H. apply canonical_after_shift; [lia | assumption | assumption]. }
  assert (Hzero : m1 = 0 -> e1 = -1074).
  { intros H0. unfold m1 in H0. apply Z.shiftr_eq_0_iff in H0.
    destruct H0 as [H0 | [_ H0]]; [lia|].
    pose proof (Zdigits2_log2 (Zpos m) ltac:(lia)) as Hd.
    unfold e1 in *. rewrite fexp_eq in *. lia. }
  assert (He2 : e1 <= fexp prec emax (Zdigits2 m2 + e1)).
  { destruct (Z.eq_dec m1 0) as [H0 | H0].
    - rewrite (Hzero H0), fexp_eq. lia.
    - rewrite <- (Hcanon1 ltac:(lia)) at 1.
      pose proof (Zdigits2_mono m1 m2 ltac:(lia) ltac:(lia)).
      rewrite !fexp_eq. lia. }
  destruct (Z.eq_dec m2 0) as [H20 | H20].
  - (* the mantissa rounds to zero *)
    assert (m1 = 0) by lia.
    rewrite H20. unfold shr_fexp. cbn [Zdigits2].
    rewrite (Hzero H). cbn. split; [reflexivity | assumption].
  - destruct (shr_fexp_m m2 e1 loc_Exact) as (mrs2 & -> & Hm3); [lia | assumption |].
    set (e3 := fexp prec emax (Zdigits2 m2 + e1)) in *.
    assert (Hm3pos : 0 < Z.shiftr m2 (e3 - e1)).
    { destruct (Z.eq_dec m1 0) as [H0 | H0].
      - assert (m2 = 1) by lia. subst m2. rewrite H.
        unfold e3. rewrite H. rewrite (Hzero H0). reflexivity.
      - pose proof (Hcanon1 ltac:(lia)) as Hc.
        pose proof (Zdigits2_succ m1 ltac:(lia)) as Hs.
        pose proof (Zdigits2_mono m1 m2 ltac:(lia) ltac:(lia)) as Hmono.
        assert (Hd2 : Zdigits2 m2 <= Zdigits2 m1 + 1) by (destruct Hm2 as [-> | ->]; lia).
        assert (He3 : e3 = e1 \/ e3 = e1 + 1).
        { unfold e3. rewrite fexp_eq in *. lia. }
        destruct He3 as [He3 | He3]; rewrite He3.
        + rewrite Z.sub_diag, Z.shiftr_0_r. lia.
        + replace (e1 + 1 - e1) with 1 by lia.
          assert (2 <= m2).
          { assert (Hd : Zdigits2 m2 = Zdigits2 m1 + 1).
            { unfold e3 in He3. rewrite fexp_eq in *. lia. }
            rewrite !Zdigits2_log2 in Hd by lia.
            pose proof (Z.log2_nonneg m1).
            assert (Hl : 1 <= Z.log2 m2) by lia.
            apply Z.log2_le_pow2 in Hl; lia. }
          rewrite Z.shiftr_div_pow2 by lia. change (2 ^ 1) with 2.
          apply Z.div_str_pos. lia. }
    pose proof (canonical_after_shift m2 e1 ltac:(lia) He2 Hm3pos) as Hc3.
    fold e3 in Hc3. rewrite Hm3.
    destruct (Z.shiftr m2 (e3 - e1)) as [|m3|m3] eqn:E3; try lia.
    destruct (Z.leb_spec e3 (emax - prec)) as [Hle | Hgt].
    + cbn. split; [reflexivity|]. split.
      * unfold bounded, canonical_mantissa. cbn [Zdigits2] in Hc3.
        rewrite Hc3, Z.eqb_refl. cbn. apply Z.leb_le. assumption.
      * destruct (Z.eq_dec e3 e1) as [Heq | Hne].
        -- right. split; [assumption|].
           rewrite Heq, Z.sub_diag, Z.shiftr_0_r in E3. lia.
        -- left. lia.
    + cbn. reflexivity.
Qed.


(** *** Addition of non-negative numbers does not decrease *)

Lemma shl_align_fst (m : positive) (e e' : Z) :
  e' <= e -> Zpos (fst (shl_align m e e')) = Zpos m * 2 ^ (e - e').
Proof.
  intros He. unfold shl_align.
  destruct (e' - e) as [|d|d] eqn:Hd; try lia.
  - replace (e - e') with 0 by lia. cbn [fst]. lia.
  - replace (e - e') with (Zpos d) by lia. cbn [fst]. clear.
    induction d as [|d IH] using Pos.peano_ind.
    + cbn. lia.
    + rewrite Pos.iter_succ, Pos2Z.inj_succ, Z.pow_succ_r by lia.
      rewrite Pos2Z.inj_xO, IH. lia.
Qed.

Lemma bounded_canonical (m : positive) (e : Z) :
  bounded prec emax m e = true ->
  fexp prec emax (Zdigits2 (Zpos m) + e) = e /\ e <= 971.
Proof.
  unfold bounded, canonical_mantissa. intros H.
  apply andb_true_iff in H. destruct H as [H1 H2].
  apply Z.eqb_eq in H1. apply Z.leb_le in H2. cbn [Zdigits2]. split; [assumption|].
  exact H2.
Qed.

Lemma add_finite_pos (mx : positive) (ex : Z) (my : positive) (ey : Z) :
  bounded prec emax mx ex = true ->
  bounded prec emax my ey = true ->
  valid (add (S754_finite false mx ex) (S754_finite false my ey)) = true /\
  le (S754_finite false mx ex) (add (S754_finite false mx ex) (S754_finite false my ey)) = true /\
  le zero (add (S754_finite false mx ex) (S754_finite false my ey)) = true.
Proof.
  intros Hx Hy.
  apply bounded_canonical in Hx. destruct Hx as [Hcx Hex].
  unfold add, SFadd. cbn [cond_Zopp].
  set (ez := Z.min ex ey).
  rewrite (shl_align_fst mx ex ez), (shl_align_fst my ey ez) by lia.
  pose proof (Z.pow_pos_nonneg 2 (ex - ez) ltac:(lia) ltac:(lia)) as Hpx.
  pose proof (Z.pow_pos_nonneg 2 (ey - ez) ltac:(lia) ltac:(lia)) as Hpy.
  destruct (Zpos mx * 2 ^ (ex - ez) + Zpos my * 2 ^ (ey - ez)) as [|mz|mz] eqn:Hsum; try lia.
  unfold binary_normalize, binary_round.
  (* the sum has at least the digits of the first summand *)
  assert (Hge : Zpos mx * 2 ^ (ex - ez) <= Zpos mz) by lia.
  assert (Hlog : Z.log2 (Zpos mx) + (ex - ez) <= Z.log2 (Zpos mz)).
  { rewrite Z.add_comm, <- (Z.log2_mul_pow2 (Zpos mx) (ex - ez)) by lia.
    apply Z.log2_le_mono. assumption. }
  pose proof (digits2_log2 mx) as Hdx. pose proof (digits2_log2 mz) as Hdz.
  cbn [Zdigits2] in Hcx.
  assert (He1 : ex <= fexp prec emax (Zpos (digits2_pos mz) + ez)).
  { rewrite fexp_eq in *. lia. }
  unfold shl_align.
  destruct (fexp prec emax (Zpos (digits2_pos mz) + ez) - ez) as [|d|d] eqn:Hd; try lia.
  - (* no shift at all *)
    pose proof (binary_round_aux_pos false mz ez loc_Exact) as H.
    cbn [Zdigits2] in H. specialize (H ltac:(lia)).
    rewrite Hd, Z.shiftr_0_r in H.
    assert (ex = ez) by lia.
    destruct (binary_round_aux prec emax false (Zpos mz) ez loc_Exact) as [s|s| |s m3 e3];
      cbn in H |- *.
    + lia.
    + subst s. auto.
    + contradiction.
    + destruct H as (-> & Hb & Hord). split; [exact Hb|]. split; [|reflexivity].
      unfold le, SFleb, SFcompare.
      replace (Z.sub ex ez) with 0 in Hge by lia. rewrite Z.pow_0_r, Z.mul_1_r in Hge.
      destruct Hord as [Hlt | [-> Hm]].
      * assert (Hc : (ex ?= e3) = Lt) by (apply Z.compare_lt_iff; lia). now rewrite Hc.
      * assert (Hc : (ex ?= fexp prec emax (Zpos (digits2_pos mz) + ez)) = Eq)
          by (apply Z.compare_eq_iff; lia).
        rewrite Hc, Pos.compare_cont_spec. cbn [Pos.switch_Eq].
        destruct (Pos.compare_spec mx m3); try reflexivity. lia.
  - pose proof (binary_round_aux_pos false mz ez loc_Exact) as H.
    cbn [Zdigits2] in H. specialize (H ltac:(lia)).
    rewrite Hd in H.
    set (e1 := fexp prec emax (Zpos (digits2_pos mz) + ez)) in *.
    assert (Hm1 : Zpos mx <= Z.shiftr (Zpos mz) (Zpos d) \/ (ex < e1 /\ 0 < Z.shiftr (Zpos mz) (Zpos d))).
    { rewrite Z.shiftr_div_pow2 by lia.
      destruct (Z.eq_dec e1 ex) as [Heq | Hne].
      - left. replace (Zpos d) with (ex - ez) by lia.
        apply Z.div_le_lower_bound; lia.
      - right. split; [lia|].
        apply Z.div_str_pos. split; [lia|].
        assert (Hdl : Zpos d <= Z.log2 (Zpos mz)).
        { unfold e1 in *. rewrite fexp_eq in *. lia. }
        apply Z.log2_le_pow2; lia. }
    destruct (binary_round_aux prec emax false (Zpos mz) ez loc_Exact) as [s|s| |s m3 e3];
      cbn in H |- *.
    + lia.
    + subst s. auto.
    + contradiction.
    + destruct H as (-> & Hb & Hord). split; [exact Hb|]. split; [|reflexivity].
      unfold le, SFleb, SFcompare.
      destruct Hord as [Hlt | [-> Hm]].
      * assert (Hc : (ex ?= e3) = Lt) by (apply Z.compare_lt_iff; lia). now rewrite Hc.
      * destruct Hm1 as [Hm1 | [Hlt _]].
        -- destruct (Z.compare_spec ex e1); try reflexivity; try lia.
           rewrite Pos.compare_cont_spec. cbn [Pos.switch_Eq].
           destruct (Pos.compare_spec mx m3); try reflexivity. lia.
        -- assert (Hc : (ex ?= e1) = Lt) by (apply Z.compare_lt_iff; lia). now rewrite Hc.
Qed.

Lemma le_refl_nonneg (a : number) : le zero a = true -> le a a = true.
Proof.
  destruct a as [s|s| |s m e]; cbn; try reflexivity; try discriminate.
  - destruct s; reflexivity.
  - destruct s; [discriminate|]. intros _.
    unfold le, SFleb, SFcompare. rewrite Z.compare_refl, Pos.compare_cont_refl. reflexivity.
Qed.

Lemma add_nonneg (a b : number) :
  valid a = true -> valid b = true -> le zero a = true -> le zero b = true ->
  valid (add a b) = true /\ le a (add a b) = true /\ le zero (add a b) = true.
Proof.
  intros Va Vb Ha Hb.
  destruct a as [sa|sa| |sa ma ea]; try discriminate;
  destruct b as [sb|sb| |sb mb eb]; try discriminate;
  try (destruct sa; try discriminate); try (destruct sb; try discriminate);
  first
    [ apply add_finite_pos; assumption
    | cbn; repeat split;
      first [ reflexivity | assumption
            | apply (le_refl_nonneg (S754_finite false _ _)); reflexivity ] ].
Qed.


(** *** Every parsed number is a valid binary64 value *)

Lemma rounded_ok_valid (s : bool) (e1 m1 : Z) (x : number) :
  rounded_ok s e1 m1 x -> valid x = true.
Proof.
  destruct x as [s'|s'| |s' m e]; cbn; try reflexivity; try contradiction.
  intros (_ & Hb & _). exact Hb.
Qed.

Lemma binary_round_aux_zero (s : bool) (l : location) :
  valid (binary_round_aux prec emax s 0 (-1074) l) = true.
Proof. destruct l as [|[]]; reflexivity. Qed.

Lemma round_ratio_valid (neg : bool) (n d : Z) :
  0 <= n -> 0 < d -> valid (round_ratio neg n d) = true.
Proof.
  intros Hn Hd. unfold round_ratio.
  destruct n as [|p|p]; [reflexivity | | lia].
  unfold SFdiv_core_binary.
  set (x := Zdigits2 (Zpos p) + 0 - (Zdigits2 d + 0)).
  set (e' := Z.min (fexp prec emax x) (0 - 0)).
  set (m' := match 0 - 0 - e' with
             | Zpos _ => Z.shiftl (Zpos p) (0 - 0 - e')
             | Z0 => Zpos p
             | Zneg _ => 0
             end).
  destruct (Z.div_eucl m' d) as [q r] eqn:E.
  assert (Hq : q = m' / d) by (unfold Z.div; now rewrite E).
  assert (He'0 : e' <= 0) by (unfold e'; lia).
  assert (He'1 : -1074 <= e') by (unfold e'; rewrite fexp_eq; lia).
  assert (Hm' : m' = Zpos p * 2 ^ (- e')).
  { unfold m'. destruct (0 - 0 - e') eqn:Hs; try lia.
    - replace (- e') with 0 by lia. lia.
    - rewrite Z.shiftl_mul_pow2 by lia. f_equal. f_equal. lia. }
  pose proof (Z.pow_pos_nonneg 2 (- e') ltac:(lia) ltac:(lia)) as Hpow.
  assert (Hq0 : 0 <= q) by (subst q; apply Z.div_pos; [rewrite Hm'; lia | lia]).
  assert (Hbig : -1074 < e' -> 0 < q /\ e' <= fexp prec emax (Zdigits2 q + e')).
  { intros Hgt.
    assert (Hx : e' <= x - 53) by (unfold e' in *; rewrite fexp_eq in *; lia).
    set (k := x - e' - 1).
    assert (Hk : 2 ^ k <= q).
    { subst q. apply Z.div_le_lower_bound; [lia|].
      pose proof (Z.log2_spec d Hd) as [_ Hdlt].
      pose proof (Z.log2_spec (Zpos p) ltac:(lia)) as [Hple _].
      pose proof (Z.log2_nonneg d). pose proof (Z.log2_nonneg (Zpos p)).
      rewrite Hm'.
      apply Z.le_trans with (2 ^ Z.succ (Z.log2 d) * 2 ^ k).
      - apply Z.mul_le_mono_nonneg_r; [apply Z.pow_nonneg; lia | lia].
      - rewrite <- Z.pow_add_r by (unfold k; lia).
        replace (Z.succ (Z.log2 d) + k) with (Z.log2 (Zpos p) + - e').
        + rewrite Z.pow_add_r by lia.
          apply Z.mul_le_mono_nonneg_r; lia.
        + unfold k, x. rewrite (Zdigits2_log2 (Zpos p)), (Zdigits2_log2 d) by lia. lia. }
    assert (0 < 2 ^ k) by (apply Z.pow_pos_nonneg; unfold k; lia).
    split; [lia|].
    assert (Hl : k <= Z.log2 q) by (apply Z.log2_le_pow2; lia).
    rewrite (Zdigits2_log2 q) by lia.
    rewrite fexp_eq. unfold k in Hl. lia. }
  destruct (Z.eq_dec q 0) as [Hz | Hnz].
  - assert (e' = -1074) as -> by (destruct (Z.eq_dec e' (-1074)); [assumption | destruct Hbig; lia]).
    rewrite Hz. apply binary_round_aux_zero.
  - destruct q as [|pq|pq]; try lia.
    eapply rounded_ok_valid. apply binary_round_aux_pos.
    destruct (Z.eq_dec e' (-1074)) as [He | He].
    + rewrite He, fexp_eq. lia.
    + apply Hbig. lia.
Qed.

Lemma of_decimal_valid (neg : bool) (m k : Z) :
  0 <= m -> valid (of_decimal neg m k) = true.
Proof.
  intros Hm. unfold of_decimal.
  destruct (Z.leb_spec 0 k).
  - apply round_ratio_valid; [|lia].
    apply Z.mul_nonneg_nonneg; [assumption | apply Z.pow_nonneg; lia].
  - apply round_ratio_valid; [assumption|]. apply Z.pow_pos_nonneg; lia.
Qed.

Lemma digit_value_nonneg (c : ascii) : is_digit c = true -> 0 <= digit_value c.
Proof.
  unfold is_digit, digit_value. intros H.
  apply andb_true_iff in H. destruct H as [H _]. apply Nat.leb_le in H. lia.
Qed.

Lemma scan_digits_nonneg (s : string) :
  forall acc cnt, 0 <= acc -> 0 <= fst (fst (scan_digits s acc cnt)).
Proof.
  induction s as [|c s IH]; intros acc cnt Hacc; cbn [scan_digits]; [assumption|].
  destruct (is_digit c) eqn:Hc; [|assumption].
  apply IH. pose proof (digit_value_nonneg c Hc). lia.
Qed.

Lemma parse_decimal_valid (s : string) : valid (parse_decimal s) = true.
Proof.
  unfold parse_decimal.
  destruct (scan_sign (skip_white_space s)) as [neg s1].
  destruct (String.prefix "Infinity" s1); [reflexivity|].
  pose proof (scan_digits_nonneg s1 0 0 ltac:(lia)) as Hip.
  destruct (scan_digits s1 0 0) as [[ip ni] s2]. cbn [fst] in Hip.
  set (t := match s2 with
            | String "." r => scan_digits r ip 0
            | _ => (ip, 0, s2)
            end).
  assert (Hm : 0 <= fst (fst t)).
  { unfold t. destruct s2 as [|c r]; [exact Hip|].
    destruct c as [[] [] [] [] [] [] [] []]; try exact Hip.
    now apply scan_digits_nonneg. }
  destruct t as [[mant nf] s3]. cbn [fst] in Hm.
  destruct ((ni =? 0) && (nf =? 0)); [reflexivity|]. now apply of_decimal_valid.
Qed.

(** *** [-b / b] is [-1] *)

Lemma div_eucl_mul (a b : Z) : 0 < b -> Z.div_eucl (a * b) b = (a, 0).
Proof.
  intros Hb. pose proof (Z.div_eucl_eq (a * b) b ltac:(lia)) as H.
  pose proof (Z_div_mult_full a b ltac:(lia)) as Hd.
  pose proof (Z_mod_mult a b) as Hm.
  unfold Z.div, Z.modulo in *.
  destruct (Z.div_eucl (a * b) b) as [q r]. congruence.
Qed.

Lemma div_opp_self (m : positive) (e : Z) :
  div (S754_finite true m e) (S754_finite false m e) = S754_finite true 4503599627370496 (-52).
Proof.
  unfold div, SFdiv, SFdiv_core_binary.
  replace (Zdigits2 (Z.pos m) + e - (Zdigits2 (Z.pos m) + e)) with 0 by lia.
  rewrite Z.sub_diag.
  change (Z.min (fexp prec emax 0) 0) with (-53).
  change (0 - -53) with 53.
  rewrite Z.shiftl_mul_pow2 by lia.
  rewrite Z.mul_comm, div_eucl_mul by lia.
  unfold new_location. destruct (Z.even (Zpos m)); reflexivity.
Qed.

End NumFacts.

(** ** Facts about the transformer *)

Module TransformFacts.

Import JS Spec.

Lemma variants_agree (v : variant) :
  transformer v = YesSave.processOrderbookData.
Proof. destruct v; reflexivity. Qed.

Lemma Get_readable (lv : value) (name : string) :
  readable lv -> Get lv name = Ok (field lv name).
Proof.
  intros [H1 H2]. unfold field. destruct lv; try reflexivity; contradiction.
Qed.

Lemma Get_throw (lv : value) (name : string) (e : exn) :
  Get lv name = Throw e -> ~ readable lv.
Proof.
  intros H [H1 H2]. destruct lv; try discriminate; contradiction.
Qed.

(** The first pass over a side. *)
Lemma read_side_ok (side : list value) (entries : list PriceSize) :
  YesSave.read_side (VArr side) = Ok entries <->
  Forall readable side /\ entries = map entry_of side.
Proof.
  unfold YesSave.read_side, array_map. revert entries.
  induction side as [|lv side IH]; intros entries; cbn [mapM map].
  - split; [intros [= <-]; auto | intros [_ ->]; reflexivity].
  - split.
    + destruct (Get lv "px") as [px|e] eqn:Hpx; cbn [bind]; [|discriminate].
      destruct (Get lv "sz") as [sz|e] eqn:Hsz; cbn [bind]; [|discriminate].
      destruct (mapM _ side) as [rest|e] eqn:Hrest; cbn [bind]; [|discriminate].
      intros [= <-]. destruct (proj1 (IH rest) eq_refl) as [Hall ->].
      assert (Hr : readable lv).
      { split; intros ->; discriminate. }
      split; [constructor; assumption|].
      f_equal. unfold entry_of, field. now rewrite Hpx, Hsz.
    + intros [Hall ->]. apply Forall_cons in Hall as [Hr Hside].
      rewrite !(Get_readable lv) by assumption. cbn [bind].
      rewrite (proj2 (IH _) (conj Hside eq_refl)). reflexivity.
Qed.

Lemma read_side_array (v : value) (entries : list PriceSize) :
  YesSave.read_side v = Ok entries -> exists side, v = VArr side.
Proof. destruct v; try discriminate. eauto. Qed.

Lemma parse_entry_size (lv : value) :
  readable lv -> parseFloat (ps_size (entry_of lv)) = level_size lv.
Proof.
  intros Hr. unfold level_size. rewrite (Get_readable lv) by assumption. reflexivity.
Qed.

Lemma parse_entry_price (lv : value) :
  readable lv -> parseFloat (ps_price (entry_of lv)) = level_price lv.
Proof.
  intros Hr. unfold level_price. rewrite (Get_readable lv) by assumption. reflexivity.
Qed.

(** The second pass: what [top_levels] returns, and when. *)
Lemma top_levels_ok (ts : string) (feed : list value) :
  Forall readable feed ->
  forall idx acc out,
    YesSave.top_levels ts (map entry_of feed) idx acc = Ok out <->
    exists sizes,
      mapM level_size feed = Ok sizes /\
      length out = length feed /\
      map price out = map (fun raw => field raw "px") feed /\
      map size out = map (fun raw => field raw "sz") feed /\
      map level out = seq (idx + 1) (length feed) /\
      map cumulative out = map (fun x => Num.toFixed x 4) (running_sums acc sizes) /\
      map timestamp out = map (fun _ => ts) feed.
Proof.
  induction 1 as [|lv feed Hr Hall IH]; intros idx acc out; cbn [map YesSave.top_levels mapM].
  - split.
    + intros [= <-]. exists []. repeat split; reflexivity.
    + intros (sizes & _ & Hlen & _). destruct out; [reflexivity | discriminate].
  - rewrite (parse_entry_size lv Hr).
    split.
    + destruct (level_size lv) as [sz|e]; cbn [bind]; [|discriminate].
      destruct (YesSave.top_levels ts (map entry_of feed) (S idx) (Num.add acc sz))
        as [more|e] eqn:Hmore; cbn [bind]; [|discriminate].
      intros [= <-].
      apply IH in Hmore. destruct Hmore as (sizes & Hs & Hlen & Hp & Hz & Hl & Hc & Ht).
      exists (sz :: sizes). rewrite Hs. cbn [bind length map running_sums seq].
      rewrite Hlen, Hp, Hz, Hc, Ht, Hl.
      replace (S idx + 1)%nat with (S (idx + 1)) by lia.
      repeat split; reflexivity.
    + intros (sizes & Hs & Hlen & Hp & Hz & Hl & Hc & Ht).
      destruct (level_size lv) as [sz|e]; cbn [bind] in Hs |- *; [|discriminate].
      destruct (mapM level_size feed) as [sizes'|e] eqn:Hs'; cbn [bind] in Hs; [|discriminate].
      injection Hs as <-.
      destruct out as [|lv0 out]; [discriminate|].
      cbn [length map running_sums seq] in *.
      injection Hlen as Hlen. injection Hp as Hp0 Hp. injection Hz as Hz0 Hz.
      injection Hl as Hl0 Hl. injection Hc as Hc0 Hc. injection Ht as Ht0 Ht.
      assert (Hrec : YesSave.top_levels ts (map entry_of feed) (S idx) (Num.add acc sz) = Ok out).
      { apply IH. exists sizes'. replace (S idx + 1)%nat with (S (idx + 1)) by lia.
        repeat split; assumption. }
      rewrite Hrec. cbn [bind]. destruct lv0; cbn in *. subst. reflexivity.
Qed.


Lemma best_entries (side : list value) :
  Forall readable side ->
  match map entry_of side with
  | first :: _ => parseFloat (ps_price first)
  | [] => Ok Num.zero
  end = best_price side.
Proof.
  destruct side as [|lv side]; [reflexivity|].
  intros H. apply Forall_cons in H as [Hr _]. cbn [map best_price].
  now apply parse_entry_price.
Qed.

Lemma firstn_min_map (n : nat) (side : list value) :
  firstn (Nat.min n (length (map entry_of side))) (map entry_of side)
  = map entry_of (firstn n side).
Proof.
  rewrite length_map, <- firstn_map.
  destruct (Nat.le_gt_cases n (length side)) as [H|H].
  - now rewrite Nat.min_l.
  - rewrite Nat.min_r by lia. rewrite !firstn_all2; rewrite ?length_map; [reflexivity | lia | lia].
Qed.

(** The record the transformer builds from the parts. *)
Lemma transform_intro (mapping mids : gmap string string) (now coin : string)
    (d : value) (feedBids feedAsks : list value) (bestBid bestAsk : Num.number)
    (topBids topAsks : list OrderbookLevel) :
  feed_side d 0 = Some feedBids -> feed_side d 1 = Some feedAsks ->
  Forall readable feedBids -> Forall readable feedAsks ->
  best_price feedBids = Ok bestBid -> best_price feedAsks = Ok bestAsk ->
  YesSave.top_levels now (map entry_of (firstn 10 feedBids)) 0 Num.zero = Ok topBids ->
  YesSave.top_levels now (map entry_of (firstn 10 feedAsks)) 0 Num.zero = Ok topAsks ->
  YesSave.processOrderbookData mapping mids now coin d =
  Some {| symbol := coin;
          displaySymbol := or_else (mapping !! coin) coin;
          lastUpdate := now;
          midPrice := or_else (mids !! coin) "0";
          spread := Num.toFixed (Num.sub bestAsk bestBid) 8;
          spreadPercentage := spread_percentage bestBid bestAsk;
          bids := topBids;
          asks := topAsks |}.
Proof.
  intros H0 H1 Hrb Hra Hbb Hba Htb Hta.
  unfold YesSave.processOrderbookData, YesSave.processOrderbookData_try.
  unfold feed_side in H0, H1.
  destruct (Get d "levels") as [levels|] eqn:HL; [|discriminate]. cbn [bind].
  destruct (GetIndex levels 0) as [[]|] eqn:HI0; try discriminate. injection H0 as ->.
  destruct (GetIndex levels 1) as [[]|] eqn:HI1; try discriminate. injection H1 as ->.
  cbn [bind].
  rewrite (proj2 (read_side_ok feedBids _) (conj Hrb eq_refl)). cbn [bind].
  rewrite (proj2 (read_side_ok feedAsks _) (conj Hra eq_refl)). cbn [bind].
  rewrite (best_entries feedBids Hrb), Hbb. cbn [bind].
  rewrite (best_entries feedAsks Hra), Hba. cbn [bind].
  rewrite !firstn_min_map, Htb, Hta. cbn [bind]. reflexivity.
Qed.

(** Whenever the transformer returns a record, it is built from such parts. *)
Lemma transform_inv (mapping mids : gmap string string) (now coin : string)
    (d : value) (r : CoinOrderbook) :
  YesSave.processOrderbookData mapping mids now coin d = Some r ->
  exists feedBids feedAsks bestBid bestAsk topBids topAsks,
    feed_side d 0 = Some feedBids /\ feed_side d 1 = Some feedAsks /\
    Forall readable feedBids /\ Forall readable feedAsks /\
    best_price feedBids = Ok bestBid /\ best_price feedAsks = Ok bestAsk /\
    YesSave.top_levels now (map entry_of (firstn 10 feedBids)) 0 Num.zero = Ok topBids /\
    YesSave.top_levels now (map entry_of (firstn 10 feedAsks)) 0 Num.zero = Ok topAsks /\
    r = {| symbol := coin;
           displaySymbol := or_else (mapping !! coin) coin;
           lastUpdate := now;
           midPrice := or_else (mids !! coin) "0";
           spread := Num.toFixed (Num.sub bestAsk bestBid) 8;
           spreadPercentage := spread_percentage bestBid bestAsk;
           bids := topBids;
           asks := topAsks |}.
Proof.
  unfold YesSave.processOrderbookData, YesSave.processOrderbookData_try, feed_side.
  destruct (Get d "levels") as [levels|] eqn:HL; [|discriminate]. cbn [bind].
  destruct (GetIndex levels 0) as [s0|] eqn:HI0; [|discriminate]. cbn [bind].
  destruct (YesSave.read_side s0) as [eb|] eqn:Hb; [|discriminate]. cbn [bind].
  destruct (GetIndex levels 1) as [s1|] eqn:HI1; [|discriminate]. cbn [bind].
  destruct (YesSave.read_side s1) as [ea|] eqn:Ha; [|discriminate]. cbn [bind].
  destruct (read_side_array _ _ Hb) as [feedBids ->].
  destruct (read_side_array _ _ Ha) as [feedAsks ->].
  apply read_side_ok in Hb as [Hrb ->]. apply read_side_ok in Ha as [Hra ->].
  rewrite (best_entries feedBids Hrb), (best_entries feedAsks Hra).
  destruct (best_price feedBids) as [bestBid|] eqn:Hbb; [|discriminate]. cbn [bind].
  destruct (best_price feedAsks) as [bestAsk|] eqn:Hba; [|discriminate]. cbn [bind].
  rewrite !firstn_min_map.
  destruct (YesSave.top_levels now (map entry_of (firstn 10 feedBids)) 0 Num.zero)
    as [topBids|] eqn:Htb; [|discriminate]. cbn [bind].
  destruct (YesSave.top_levels now (map entry_of (firstn 10 feedAsks)) 0 Num.zero)
    as [topAsks|] eqn:Hta; [|discriminate]. cbn [bind].
  intros [= <-].
  exists feedBids, feedAsks, bestBid, bestAsk, topBids, topAsks.
  repeat split; try assumption; reflexivity.
Qed.


Lemma level_size_readable (lv : value) (x : Num.number) :
  level_size lv = Ok x -> readable lv.
Proof.
  unfold level_size. intros H. split; intros ->; discriminate.
Qed.

Lemma top_levels_total (ts : string) (feed : list value) :
  Forall (fun lv => exists x, level_size lv = Ok x) feed ->
  forall idx acc, exists out,
    YesSave.top_levels ts (map entry_of feed) idx acc = Ok out.
Proof.
  induction 1 as [|lv feed [x Hx] Hall IH]; intros idx acc; cbn [map YesSave.top_levels].
  - eauto.
  - rewrite (parse_entry_size lv (level_size_readable lv x Hx)), Hx. cbn [bind].
    destruct (IH (S idx) (Num.add acc x)) as [out ->]. cbn [bind]. eauto.
Qed.

Lemma sums_nondecreasing (sizes : list Num.number) :
  Forall (fun x => Num.valid x = true /\ Num.le Num.zero x = true) sizes ->
  forall acc, Num.valid acc = true -> Num.le Num.zero acc = true ->
    nondecreasing (acc :: running_sums acc sizes).
Proof.
  induction 1 as [|x sizes [Vx Hx] Hall IH]; intros acc Vacc Hacc; cbn [running_sums].
  - exact I.
  - destruct (NumFacts.add_nonneg acc x Vacc Vx Hacc Hx) as (V & Hle & H0).
    split; [exact Hle|]. now apply IH.
Qed.

Lemma valid_sizes (feed : list value) (sizes : list Num.number) :
  Forall valid_size feed -> mapM level_size feed = Ok sizes ->
  Forall (fun x => Num.valid x = true /\ Num.le Num.zero x = true) sizes.
Proof.
  intros H. revert sizes.
  induction H as [|lv feed (s & Hs & Hnn) Hall IH]; intros sizes; cbn [mapM].
  - intros [= <-]. constructor.
  - unfold level_size at 1. rewrite Hs. cbn [bind parseFloat ToString].
    destruct (mapM level_size feed) as [rest|]; cbn [bind]; [|discriminate].
    intros [= <-]. constructor; [|now apply IH].
    split; [apply NumFacts.parse_decimal_valid | exact Hnn].
Qed.

Lemma valid_size_readable (lv : value) : valid_size lv -> readable lv.
Proof. intros (s & Hs & _). split; intros ->; discriminate. Qed.

(** One side of a returned record. *)
Lemma top_levels_side (ts : string) (feed : list value) (out : list OrderbookLevel) :
  Forall valid_size feed ->
  YesSave.top_levels ts (map entry_of (firstn 10 feed)) 0 Num.zero = Ok out ->
  side_of feed out.
Proof.
  intros Hv Hout.
  assert (Hv10 : Forall valid_size (firstn 10 feed)) by now apply Forall_take.
  assert (Hr10 : Forall readable (firstn 10 feed))
    by (eapply Forall_impl; [exact Hv10 | exact valid_size_readable]).
  apply (top_levels_ok ts _ Hr10) in Hout.
  destruct Hout as (sizes & Hs & Hlen & Hp & Hz & Hl & Hc & _).
  rewrite length_firstn in Hlen, Hl.
  unfold side_of. rewrite Hlen.
  split; [reflexivity|]. split; [lia|]. split; [exact Hp|]. split; [exact Hz|].
  split; [exact Hl|].
  exists sizes. split; [exact Hs|]. split; [exact Hc|].
  apply sums_nondecreasing; [|reflexivity|reflexivity].
  now apply (valid_sizes (firstn 10 feed)).
Qed.

Lemma loose_level_reads (lv : value) :
  loose_level lv ->
  readable lv /\ (exists x, level_size lv = Ok x) /\ (exists y, level_price lv = Ok y).
Proof.
  intros (props & -> & Hpx & Hsz). split; [split; discriminate|].
  unfold level_size, level_price. cbn [Get bind].
  split.
  - destruct Hsz as [-> | [s ->]]; cbn; eauto.
  - destruct Hpx as [-> | [s ->]]; cbn; eauto.
Qed.

Lemma best_price_total (side : list value) :
  Forall (fun lv => exists y, level_price lv = Ok y) side ->
  exists b, best_price side = Ok b.
Proof.
  destruct side as [|lv side]; cbn [best_price]; [eauto|].
  intros H. apply Forall_cons in H as [H _]. exact H.
Qed.

(** A snapshot whose levels can all be read is transformed. *)
Lemma transform_total (mapping mids : gmap string string) (now coin : string)
    (d : value) (feedBids feedAsks : list value) :
  feed_side d 0 = Some feedBids -> feed_side d 1 = Some feedAsks ->
  Forall (fun lv => exists x, level_size lv = Ok x) feedBids ->
  Forall (fun lv => exists x, level_size lv = Ok x) feedAsks ->
  Forall (fun lv => exists y, level_price lv = Ok y) feedBids ->
  Forall (fun lv => exists y, level_price lv = Ok y) feedAsks ->
  exists bestBid bestAsk topBids topAsks,
    best_price feedBids = Ok bestBid /\ best_price feedAsks = Ok bestAsk /\
    YesSave.processOrderbookData mapping mids now coin d =
    Some {| symbol := coin;
            displaySymbol := or_else (mapping !! coin) coin;
            lastUpdate := now;
            midPrice := or_else (mids !! coin) "0";
            spread := Num.toFixed (Num.sub bestAsk bestBid) 8;
            spreadPercentage := spread_percentage bestBid bestAsk;
            bids := topBids;
            asks := topAsks |}.
Proof.
  intros H0 H1 Hsb Hsa Hpb Hpa.
  destruct (best_price_total feedBids Hpb) as [bestBid Hbb].
  destruct (best_price_total feedAsks Hpa) as [bestAsk Hba].
  destruct (top_levels_total now (firstn 10 feedBids) (Forall_take _ 10 _ Hsb) 0 Num.zero)
    as [topBids Htb].
  destruct (top_levels_total now (firstn 10 feedAsks) (Forall_take _ 10 _ Hsa) 0 Num.zero)
    as [topAsks Hta].
  exists bestBid, bestAsk, topBids, topAsks.
  split; [exact Hbb|]. split; [exact Hba|].
  apply (transform_intro mapping mids now coin d feedBids feedAsks); try assumption.
  - eapply Forall_impl; [exact Hsb|]. intros lv [x Hx]. exact (level_size_readable lv x Hx).
  - eapply Forall_impl; [exact Hsa|]. intros lv [x Hx]. exact (level_size_readable lv x Hx).
Qed.

Lemma positive_finite (b : Num.number) :
  Num.gt b Num.zero = true -> is_finite b = true ->
  exists m e, b = S754_finite false m e.
Proof.
  destruct b as [s|s| |s m e]; try discriminate.
  destruct s; [discriminate|]. eauto.
Qed.

(** The record of the worked example, whatever the tables hold. *)
Lemma example_transformed (mapping mids : gmap string string) (now coin : string) :
  exists coinData,
    YesSave.processOrderbookData mapping mids now coin Examples.example_snapshot
    = Some coinData.
Proof.
  destruct (transform_total mapping mids now coin Examples.example_snapshot
              Examples.example_bids Examples.example_asks)
    as (bb & ba & tb & ta & _ & _ & ->);
    [reflexivity | reflexivity | | | | | eauto];
    repeat first [apply List.Forall_nil | apply List.Forall_cons];
    eexists; vm_compute; reflexivity.
Qed.

End TransformFacts.

(** ** The transformer *)

Module TransformClaims.

Import JS Spec TransformFacts.

(** C6. For every valid snapshot (every size a string that parses to a
    non-negative number) a record the transformer returns has, on each
    side, the first [min 10 (length side)] levels of the feed in feed order
    (at most 10), numbered 1, 2, ..., and cumulative fields that are the
    running sums of the selected sizes, started at zero for each side and
    never decreasing; and when the prices of the levels are strings too, the
    transformer does return such a record.  (The sizes alone do not decide
    that: a first price that cannot be converted to a string, such as an
    object with an own [toString] property, makes the transformer return
    [null].) *)
Theorem top_levels_bounded_ranked_cumulative
    (v : variant) (mapping mids : gmap string string) (now coin : string)
    (l2Data : value) (feedBids feedAsks : list value) :
  feed_side l2Data 0 = Some feedBids ->
  feed_side l2Data 1 = Some feedAsks ->
  Forall valid_size feedBids ->
  Forall valid_size feedAsks ->
  (forall r, transformer v mapping mids now coin l2Data = Some r ->
             side_of feedBids (bids r) /\ side_of feedAsks (asks r)) /\
  (Forall priced feedBids -> Forall priced feedAsks ->
   exists r, transformer v mapping mids now coin l2Data = Some r /\
             side_of feedBids (bids r) /\ side_of feedAsks (asks r)).
Proof.
  intros H0 H1 Hvb Hva.
  assert (Hsides : forall r, transformer v mapping mids now coin l2Data = Some r ->
                             side_of feedBids (bids r) /\ side_of feedAsks (asks r)).
  { intros r Hr. rewrite variants_agree in Hr. apply transform_inv in Hr.
    destruct Hr as (fb & fa & bb & ba & tb & ta & H0' & H1' & _ & _ & _ & _ & Htb & Hta & ->).
    rewrite H0 in H0'. rewrite H1 in H1'. injection H0' as <-. injection H1' as <-.
    cbn [bids asks]. split; eapply top_levels_side; eassumption. }
  split; [exact Hsides|].
  intros Hpb Hpa.
  assert (Hsize : forall feed, Forall valid_size feed ->
                    Forall (fun lv => exists x, level_size lv = Ok x) feed).
  { intros feed Hv. eapply Forall_impl; [exact Hv|]. intros lv (sz & Hsz & _).
    unfold level_size. rewrite Hsz. cbn. eauto. }
  assert (Hprice : forall feed, Forall priced feed ->
                     Forall (fun lv => exists y, level_price lv = Ok y) feed).
  { intros feed Hp. eapply Forall_impl; [exact Hp|]. intros lv (px & Hpx).
    unfold level_price. rewrite Hpx. cbn. eauto. }
  destruct (transform_total mapping mids now coin l2Data feedBids feedAsks H0 H1
              (Hsize _ Hvb) (Hsize _ Hva) (Hprice _ Hpb) (Hprice _ Hpa))
    as (bb & ba & tb & ta & _ & _ & Hr).
  rewrite <- (variants_agree v) in Hr.
  eexists. split; [exact Hr|]. exact (Hsides _ Hr).
Qed.

(** The witness of C6: the worked example is a valid snapshot, in both
    variants. *)
Lemma top_levels_bounded_ranked_cumulative_witness :
  (exists r,
     transformer ModeA ∅ ∅ Examples.stamp "@1" Examples.example_snapshot = Some r /\
     side_of Examples.example_bids (bids r) /\ side_of Examples.example_asks (asks r)) /\
  (exists r,
     transformer ModeB ∅ ∅ Examples.stamp "@1" Examples.example_snapshot = Some r /\
     side_of Examples.example_bids (bids r) /\ side_of Examples.example_asks (asks r)).
Proof.
  assert (Hvb : Forall valid_size Examples.example_bids)
    by (repeat first [apply List.Forall_nil | apply List.Forall_cons];
        eexists; (split; [reflexivity | vm_compute; reflexivity])).
  assert (Hva : Forall valid_size Examples.example_asks)
    by (repeat first [apply List.Forall_nil | apply List.Forall_cons];
        eexists; (split; [reflexivity | vm_compute; reflexivity])).
  assert (Hpb : Forall priced Examples.example_bids)
    by (repeat first [apply List.Forall_nil | apply List.Forall_cons];
        eexists; reflexivity).
  assert (Hpa : Forall priced Examples.example_asks)
    by (repeat first [apply List.Forall_nil | apply List.Forall_cons];
        eexists; reflexivity).
  split.
  - exact (proj2 (top_levels_bounded_ranked_cumulative ModeA ∅ ∅ Examples.stamp "@1"
                    Examples.example_snapshot Examples.example_bids Examples.example_asks
                    eq_refl eq_refl Hvb Hva) Hpb Hpa).
  - exact (proj2 (top_levels_bounded_ranked_cumulative ModeB ∅ ∅ Examples.stamp "@1"
                    Examples.example_snapshot Examples.example_bids Examples.example_asks
                    eq_refl eq_refl Hvb Hva) Hpb Hpa).
Defined.

(** C5. The worked example: bids [("100.00","2"), ("99.50","3")] and asks
    [("100.50","1"), ("101.00","4")] give best bid 100 and best ask 100.5,
    spread "0.50000000", spreadPercentage "0.5000%", the bid running sums
    2 and 5 written "2.0000" and "5.0000", and the ask running sums 1 and 5
    written "1.0000" and "5.0000". *)
Theorem worked_example
    (v : variant) (mapping mids : gmap string string) (now coin : string) :
  transformer v mapping mids now coin Examples.example_snapshot =
    Some {| symbol := coin;
            displaySymbol := or_else (mapping !! coin) coin;
            lastUpdate := now;
            midPrice := or_else (mids !! coin) "0";
            spread := "0.50000000";
            spreadPercentage := "0.5000%";
            bids := [ {| level := 1; price := VStr "100.00"; size := VStr "2";
                         cumulative := "2.0000"; timestamp := now |};
                      {| level := 2; price := VStr "99.50"; size := VStr "3";
                         cumulative := "5.0000"; timestamp := now |} ];
            asks := [ {| level := 1; price := VStr "100.50"; size := VStr "1";
                         cumulative := "1.0000"; timestamp := now |};
                      {| level := 2; price := VStr "101.00"; size := VStr "4";
                         cumulative := "5.0000"; timestamp := now |} ] |} /\
  best_price Examples.example_bids = Ok (Num.of_Z 100) /\
  best_price Examples.example_asks = Ok (Num.div (Num.of_Z 201) (Num.of_Z 2)) /\
  mapM level_size Examples.example_bids = Ok [Num.of_Z 2; Num.of_Z 3] /\
  running_sums Num.zero [Num.of_Z 2; Num.of_Z 3] = [Num.of_Z 2; Num.of_Z 5] /\
  mapM level_size Examples.example_asks = Ok [Num.of_Z 1; Num.of_Z 4] /\
  running_sums Num.zero [Num.of_Z 1; Num.of_Z 4] = [Num.of_Z 1; Num.of_Z 5].
Proof.
  split; [|repeat split; vm_compute; reflexivity].
  rewrite variants_agree.
  rewrite (transform_intro mapping mids now coin Examples.example_snapshot
             Examples.example_bids Examples.example_asks
             (Num.of_Z 100) (Num.div (Num.of_Z 201) (Num.of_Z 2))
             [ {| level := 1; price := VStr "100.00"; size := VStr "2";
                  cumulative := "2.0000"; timestamp := now |};
               {| level := 2; price := VStr "99.50"; size := VStr "3";
                  cumulative := "5.0000"; timestamp := now |} ]
             [ {| level := 1; price := VStr "100.50"; size := VStr "1";
                  cumulative := "1.0000"; timestamp := now |};
               {| level := 2; price := VStr "101.00"; size := VStr "4";
                  cumulative := "5.0000"; timestamp := now |} ]).
  - reflexivity.
  - reflexivity.
  - reflexivity.
  - repeat first [apply List.Forall_nil | apply List.Forall_cons]; split; discriminate.
  - repeat first [apply List.Forall_nil | apply List.Forall_cons]; split; discriminate.
  - vm_compute. reflexivity.
  - vm_compute. reflexivity.
  - vm_compute. reflexivity.
  - vm_compute. reflexivity.
Qed.

(** C9. The transformers of the two variants are extensionally equal: for
    every symbol mapping, mid-price cache, timestamp, coin and payload they
    return the same result. *)
Theorem transformers_extensionally_equal
    (mapping mids : gmap string string) (now coin : string) (l2Data : value) :
  NoSave.processOrderbookData mapping mids now coin l2Data =
  YesSave.processOrderbookData mapping mids now coin l2Data.
Proof.
  unfold NoSave.processOrderbookData, YesSave.processOrderbookData.
  unfold NoSave.processOrderbookData_try, YesSave.processOrderbookData_try.
  assert (Hside : forall side, NoSave.read_side side = YesSave.read_side side)
    by reflexivity.
  assert (Htop : forall ts entries idx acc,
             NoSave.top_levels ts entries idx acc = YesSave.top_levels ts entries idx acc).
  { intros ts entries. induction entries as [|entry rest IH]; intros idx acc.
    - reflexivity.
    - cbn [NoSave.top_levels YesSave.top_levels].
      destruct (parseFloat (ps_size entry)) as [sz|]; cbn [bind]; [|reflexivity].
      now rewrite IH. }
  destruct (Get l2Data "levels") as [levels|]; cbn [bind]; [|reflexivity].
  destruct (GetIndex levels 0) as [s0|]; cbn [bind]; [|reflexivity].
  rewrite Hside.
  destruct (YesSave.read_side s0) as [bs|]; cbn [bind]; [|reflexivity].
  destruct (GetIndex levels 1) as [s1|]; cbn [bind]; [|reflexivity].
  rewrite Hside.
  destruct (YesSave.read_side s1) as [az|]; cbn [bind]; [|reflexivity].
  destruct (match bs with first :: _ => parseFloat (ps_price first) | [] => Ok Num.zero end)
    as [bestBid|]; cbn [bind]; [|reflexivity].
  destruct (match az with first :: _ => parseFloat (ps_price first) | [] => Ok Num.zero end)
    as [bestAsk|]; cbn [bind]; [|reflexivity].
  rewrite !Htop. reflexivity.
Qed.

(** C4 (as amended). Whenever the transformer returns a record, its
    spreadPercentage field is (bestAsk - bestBid) / bestBid * 100 written
    with four decimals and followed by "%" when bestBid > 0, and is "0%"
    otherwise (bestBid <= 0, or bestBid not a number). *)
Theorem spread_percentage_field
    (v : variant) (mapping mids : gmap string string) (now coin : string)
    (l2Data : value) (r : CoinOrderbook) (feedBids feedAsks : list value)
    (bestBid bestAsk : Num.number) :
  transformer v mapping mids now coin l2Data = Some r ->
  feed_side l2Data 0 = Some feedBids ->
  feed_side l2Data 1 = Some feedAsks ->
  best_price feedBids = Ok bestBid ->
  best_price feedAsks = Ok bestAsk ->
  (Num.gt bestBid Num.zero = true ->
   spreadPercentage r =
     Num.toFixed (Num.mul (Num.div (Num.sub bestAsk bestBid) bestBid) (Num.of_Z 100)) 4
     +:+ "%") /\
  (Num.gt bestBid Num.zero = false -> spreadPercentage r = "0%").
Proof.
  intros Hr H0 H1 Hbb Hba. rewrite variants_agree in Hr.
  apply transform_inv in Hr.
  destruct Hr as (fb & fa & bb & ba & tb & ta & H0' & H1' & _ & _ & Hbb' & Hba' & _ & _ & ->).
  rewrite H0 in H0'. rewrite H1 in H1'. injection H0' as <-. injection H1' as <-.
  rewrite Hbb in Hbb'. rewrite Hba in Hba'. injection Hbb' as <-. injection Hba' as <-.
  cbn [spreadPercentage]. unfold spread_percentage.
  split; intros ->; reflexivity.
Qed.

Lemma spread_percentage_field_witness :
  exists r,
    transformer ModeB ∅ ∅ Examples.stamp "@1" Examples.example_snapshot = Some r /\
    spreadPercentage r =
      Num.toFixed
        (Num.mul (Num.div (Num.sub (Num.div (Num.of_Z 201) (Num.of_Z 2)) (Num.of_Z 100))
                    (Num.of_Z 100)) (Num.of_Z 100)) 4 +:+ "%".
Proof.
  eexists. split; [vm_compute; reflexivity|].
  apply (spread_percentage_field ModeB ∅ ∅ Examples.stamp "@1" Examples.example_snapshot
           _ Examples.example_bids Examples.example_asks
           (Num.of_Z 100) (Num.div (Num.of_Z 201) (Num.of_Z 2)));
    vm_compute; reflexivity.
Defined.

(** The counterexample to C4 as stated: without bids the best bid is 0, and
    the field is "0%", not "0". *)
Lemma spread_percentage_field_counterexample :
  feed_side Examples.no_bids_snapshot 0 = Some [] /\
  best_price [] = Ok Num.zero /\
  Num.le Num.zero Num.zero = true /\
  option_map spreadPercentage
    (transformer ModeA ∅ ∅ Examples.stamp "@1" Examples.no_bids_snapshot) = Some "0%" /\
  option_map spreadPercentage
    (transformer ModeB ∅ ∅ Examples.stamp "@1" Examples.no_bids_snapshot) = Some "0%" /\
  "0%" <> "0".
Proof. repeat split; try (vm_compute; reflexivity). discriminate. Qed.

(** C10 (as amended). For every raw snapshot whose ask side is empty and
    whose bid side is non-empty, in which no bid level is [null] or
    [undefined], [parseFloat] does not throw on the size of any of the first
    ten bid levels (it throws only on a value that cannot be converted to a
    string, such as an object with an own [toString] property) and the
    price of the first bid level parses to a finite positive number, the
    transformer returns a record: the ask list is empty, the spread field is
    (0 - bestBid) written with eight decimals, which starts with a minus
    sign, and the spreadPercentage field is "-100.0000%". *)
Theorem empty_ask_side
    (v : variant) (mapping mids : gmap string string) (now coin : string)
    (l2Data : value) (first : value) (rest : list value) (bestBid : Num.number) :
  feed_side l2Data 0 = Some (first :: rest) ->
  feed_side l2Data 1 = Some [] ->
  Forall readable (first :: rest) ->
  Forall (fun lv => exists x, level_size lv = Ok x) (firstn 10 (first :: rest)) ->
  level_price first = Ok bestBid ->
  Num.gt bestBid Num.zero = true ->
  is_finite bestBid = true ->
  exists r,
    transformer v mapping mids now coin l2Data = Some r /\
    asks r = [] /\
    spread r = Num.toFixed (Num.sub Num.zero bestBid) 8 /\
    (exists digits, spread r = String "-" digits) /\
    spreadPercentage r = "-100.0000%".
Proof.
  intros H0 H1 Hr Hs Hp Hgt Hfin. rewrite variants_agree.
  destruct (positive_finite bestBid Hgt Hfin) as (m & e & ->).
  destruct (top_levels_total now (firstn 10 (first :: rest)) Hs 0 Num.zero)
    as [topBids Htb].
  eexists. split.
  - apply (transform_intro mapping mids now coin l2Data (first :: rest) []
             (S754_finite false m e) Num.zero topBids []);
      first [assumption | exact Hp | reflexivity | constructor].
  - cbn [asks spread spreadPercentage]. split; [reflexivity|]. split; [reflexivity|].
    split.
    + cbn [Num.sub SFsub Num.zero negb Num.toFixed]. unfold Num.sub. cbn [SFsub Num.zero negb].
      unfold Num.toFixed. eexists. reflexivity.
    + unfold spread_percentage. rewrite Hgt.
      unfold Num.sub. cbn [SFsub Num.zero negb].
      rewrite NumFacts.div_opp_self. reflexivity.
Qed.

(** The witness of C10, in both variants: eleven bid levels, the last one
    with a size that cannot be converted. *)
Lemma empty_ask_side_witness :
  (exists r,
     transformer ModeA ∅ ∅ Examples.stamp "@1" Examples.deep_one_sided_snapshot = Some r /\
     asks r = [] /\
     spread r = Num.toFixed (Num.sub Num.zero (Num.parse_decimal "3.7")) 8 /\
     (exists digits, spread r = String "-" digits) /\
     spreadPercentage r = "-100.0000%") /\
  (exists r,
     transformer ModeB ∅ ∅ Examples.stamp "@1" Examples.deep_one_sided_snapshot = Some r /\
     asks r = [] /\
     spread r = Num.toFixed (Num.sub Num.zero (Num.parse_decimal "3.7")) 8 /\
     (exists digits, spread r = String "-" digits) /\
     spreadPercentage r = "-100.0000%").
Proof.
  split.
  - apply (empty_ask_side ModeA ∅ ∅ Examples.stamp "@1" Examples.deep_one_sided_snapshot
             (Examples.raw_level "3.7" "2")
             (repeat (Examples.raw_level "3.6" "1") 9
              ++ [VObj [("px", VStr "3.5"); ("sz", VObj [("toString", VNum Num.zero)])]])%list).
    + reflexivity.
    + reflexivity.
    + repeat first [apply List.Forall_nil | apply List.Forall_cons]; split; discriminate.
    + repeat first [apply List.Forall_nil | apply List.Forall_cons];
        eexists; vm_compute; reflexivity.
    + vm_compute. reflexivity.
    + vm_compute. reflexivity.
    + vm_compute. reflexivity.
  - apply (empty_ask_side ModeB ∅ ∅ Examples.stamp "@1" Examples.deep_one_sided_snapshot
             (Examples.raw_level "3.7" "2")
             (repeat (Examples.raw_level "3.6" "1") 9
              ++ [VObj [("px", VStr "3.5"); ("sz", VObj [("toString", VNum Num.zero)])]])%list).
    + reflexivity.
    + reflexivity.
    + repeat first [apply List.Forall_nil | apply List.Forall_cons]; split; discriminate.
    + repeat first [apply List.Forall_nil | apply List.Forall_cons];
        eexists; vm_compute; reflexivity.
    + vm_compute. reflexivity.
    + vm_compute. reflexivity.
    + vm_compute. reflexivity.
Defined.

(** The counterexample to C10 as stated: a bid whose price is the decimal
    string of 310 digits, a one followed by 309 zeros.  The snapshot is made
    of decimal strings, its best bid is positive (it converts to
    [Infinity]), and the spreadPercentage field of the record is "NaN%",
    no negative number; the spread field is "-Infinity". *)
Lemma empty_ask_side_counterexample :
  DataModel.decimal_string Examples.huge_price = true /\
  String.length Examples.huge_price = 310%nat /\
  DataModel.decimal_level (Examples.raw_level Examples.huge_price "2") /\
  feed_side Examples.huge_bid_snapshot 0
  = Some [Examples.raw_level Examples.huge_price "2"] /\
  feed_side Examples.huge_bid_snapshot 1 = Some [] /\
  best_price [Examples.raw_level Examples.huge_price "2"] = Ok (S754_infinity false) /\
  Num.gt (S754_infinity false) Num.zero = true /\
  option_map spreadPercentage
    (transformer ModeA ∅ ∅ Examples.stamp "@1" Examples.huge_bid_snapshot) = Some "NaN%" /\
  option_map spreadPercentage
    (transformer ModeB ∅ ∅ Examples.stamp "@1" Examples.huge_bid_snapshot) = Some "NaN%" /\
  option_map spread
    (transformer ModeB ∅ ∅ Examples.stamp "@1" Examples.huge_bid_snapshot)
  = Some "-Infinity".
Proof.
  split; [vm_compute; reflexivity|]. split; [vm_compute; reflexivity|].
  split; [exists Examples.huge_price, "2"; repeat split; vm_compute; reflexivity|].
  repeat split; vm_compute; reflexivity.
Qed.

(** C3 (as amended). The transformer returns the reported failure (null)
    for a raw snapshot that cannot be read: one without the levels field or
    with a side that is not an array, or with a null entry in a side.  A
    level object whose price or size is missing or is a string that is not
    a number is no failure: a record is returned all the same.  After a
    failed transform the message handler of either variant has only counted
    the message, and goes on with the messages that follow. *)
Theorem unreadable_snapshot_policy
    (v : variant) (mapping mids : gmap string string) (now coin : string)
    (l2Data : value) :
  (unreadable l2Data -> transformer v mapping mids now coin l2Data = None) /\
  (forall feedBids feedAsks,
     feed_side l2Data 0 = Some feedBids -> feed_side l2Data 1 = Some feedAsks ->
     Forall loose_level feedBids -> Forall loose_level feedAsks ->
     exists r, transformer v mapping mids now coin l2Data = Some r) /\
  (forall message st rest,
     NoSave.accept message = Ok (Some (coin, l2Data)) ->
     NoSave.processOrderbookData mapping (NoSave.allMidsCache st) now coin l2Data = None ->
     NoSave.run mapping ((now, Some message) :: rest) st
     = NoSave.run mapping rest (counted_A st)) /\
  (forall message st rest,
     YesSave.accept message = Ok (Some (coin, l2Data)) ->
     YesSave.exited st = false ->
     YesSave.processOrderbookData mapping (YesSave.allMidsCache st) now coin l2Data = None ->
     YesSave.run mapping (YesSave.Message now (Some message) :: rest) st
     = YesSave.run mapping rest (counted_B st)).
Proof.
  split; [|split; [|split]].
  - intros Hbad. rewrite variants_agree.
    destruct (YesSave.processOrderbookData mapping mids now coin l2Data) as [r|] eqn:Hr;
      [|reflexivity].
    apply transform_inv in Hr.
    destruct Hr as (fb & fa & _ & _ & _ & _ & H0 & H1 & Hrb & Hra & _).
    destruct Hbad as [Hbad | [Hbad | (i & side & Hi & Hside & Hin)]]; try congruence.
    assert (Hrs : Forall readable side) by (destruct Hi as [-> | ->]; congruence).
    rewrite Forall_forall in Hrs.
    destruct (Hrs VNull (proj2 (list_elem_of_In _ _) Hin)) as [Hnull _]. congruence.
  - intros feedBids feedAsks H0 H1 Hlb Hla. rewrite variants_agree.
    destruct (transform_total mapping mids now coin l2Data feedBids feedAsks H0 H1)
      as (bb & ba & tb & ta & _ & _ & ->);
      try (eapply Forall_impl; [eassumption|]; intros lv Hlv;
           apply loose_level_reads in Hlv; tauto).
    eauto.
  - intros message st rest Hacc Hnone.
    unfold NoSave.run. cbn [fold_left fst snd]. unfold NoSave.on_message at 2.
    rewrite Hacc, Hnone. reflexivity.
  - intros message st rest Hacc Hex Hnone.
    unfold YesSave.run. cbn [fold_left]. unfold YesSave.step at 2. rewrite Hex.
    unfold YesSave.on_message. rewrite Hacc, Hnone. reflexivity.
Qed.

Lemma unreadable_snapshot_policy_witness :
  transformer ModeB ∅ ∅ Examples.stamp "@1" Examples.no_levels = None /\
  (exists r, transformer ModeB ∅ ∅ Examples.stamp "@1" Examples.garbled_snapshot = Some r) /\
  YesSave.run ∅
    [YesSave.Message Examples.stamp (Some (Examples.l2Book_message Examples.no_levels));
     YesSave.Message Examples.stamp (Some (Examples.l2Book_message Examples.example_snapshot))]
    YesSave.init
  = YesSave.run ∅
      [YesSave.Message Examples.stamp (Some (Examples.l2Book_message Examples.example_snapshot))]
      (counted_B YesSave.init).
Proof.
  split; [|split].
  - apply (unreadable_snapshot_policy ModeB ∅ ∅ Examples.stamp "@1" Examples.no_levels).
    left. reflexivity.
  - apply (proj1 (proj2 (unreadable_snapshot_policy ModeB ∅ ∅ Examples.stamp "@1"
                           Examples.garbled_snapshot))
             [Examples.raw_level "abc" "1"] [VObj []]).
    + reflexivity.
    + reflexivity.
    + repeat first [apply List.Forall_nil | apply List.Forall_cons].
      eexists. split; [reflexivity|]. split; right; eexists; reflexivity.
    + repeat first [apply List.Forall_nil | apply List.Forall_cons].
      eexists. split; [reflexivity|]. split; left; reflexivity.
  - apply (proj2 (proj2 (proj2 (unreadable_snapshot_policy ModeB ∅ ∅ Examples.stamp "@1"
                                  Examples.no_levels)))).
    + reflexivity.
    + reflexivity.
    + vm_compute. reflexivity.
Defined.

(** The counterexample to C3 as stated: a snapshot with a price that is not
    a number and with a level that lacks both fields is malformed, and the
    transformer of either variant returns a record for it. *)
Lemma unreadable_snapshot_policy_counterexample :
  malformed Examples.garbled_snapshot /\
  Num.parse_decimal "abc" = S754_nan /\
  transformer ModeA ∅ ∅ Examples.stamp "@1" Examples.garbled_snapshot <> None /\
  transformer ModeB ∅ ∅ Examples.stamp "@1" Examples.garbled_snapshot <> None /\
  option_map spread
    (transformer ModeB ∅ ∅ Examples.stamp "@1" Examples.garbled_snapshot) = Some "NaN".
Proof.
  split; [|split; [|split; [|split]]].
  - right. right. exists 0, [Examples.raw_level "abc" "1"], (Examples.raw_level "abc" "1").
    split; [left; reflexivity|]. split; [reflexivity|]. split; [left; reflexivity|].
    left. right. exists "abc". split; reflexivity.
  - reflexivity.
  - vm_compute. discriminate.
  - vm_compute. discriminate.
  - vm_compute. reflexivity.
Qed.

End TransformClaims.

(** ** Facts about the dispatch *)

Module DispatchFacts.

Import JS Spec TransformFacts.

(** When the handler of mode B goes on to the transformer. *)
Lemma accept_B_some (message : value) (coin : string) (data : value) :
  YesSave.accept message = Ok (Some (coin, data)) ->
  on_l2Book message /\ has_payload message /\ tracked_symbol message.
Proof.
  unfold YesSave.accept, on_l2Book, has_payload, tracked_symbol.
  destruct (Get message "channel") as [channel|]; cbn [bind]; [|discriminate].
  destruct (strict_eq_string channel "l2Book") eqn:Hch; [|discriminate].
  destruct (Get message "data") as [d|]; cbn [bind]; [|discriminate].
  destruct (truthy d) eqn:Ht; [|discriminate].
  destruct (Get d "coin") as [c|] eqn:Hc; cbn [bind]; [|discriminate].
  destruct c as [| | | |c| |]; cbn [string_receiver bind]; try discriminate.
  destruct (String.prefix "@" c) eqn:Hp; cbn [negb]; [|discriminate].
  intros [= <- <-].
  split; [exists channel; auto|].
  split; [exists d; auto|].
  exists d, c. auto.
Qed.

Lemma accept_A_B (message : value) : NoSave.accept message = YesSave.accept message.
Proof. reflexivity. Qed.

Lemma on_message_B_dropped (mapping : gmap string string) (now : string)
    (message : value) (st : YesSave.state) :
  (forall coin data, YesSave.accept message <> Ok (Some (coin, data))) ->
  YesSave.on_message mapping now (Some message) st = st.
Proof.
  intros H. unfold YesSave.on_message.
  destruct (YesSave.accept message) as [[[coin data]|]|]; try reflexivity.
  now contradiction (H coin data).
Qed.

Lemma on_message_A_dropped (mapping : gmap string string) (now : string)
    (message : value) (st : NoSave.state) :
  (forall coin data, NoSave.accept message <> Ok (Some (coin, data))) ->
  NoSave.on_message mapping now (Some message) st = st.
Proof.
  intros H. unfold NoSave.on_message.
  destruct (NoSave.accept message) as [[[coin data]|]|]; try reflexivity.
  now contradiction (H coin data).
Qed.

(** What a message does to the fields that matter for the queue. *)
Lemma on_message_B_effect (mapping : gmap string string) (now : string)
    (data : option value) (st : YesSave.state) :
  YesSave.isRunning (YesSave.on_message mapping now data st) = YesSave.isRunning st /\
  YesSave.exited (YesSave.on_message mapping now data st) = YesSave.exited st /\
  YesSave.shutdowns (YesSave.on_message mapping now data st) = YesSave.shutdowns st /\
  ((YesSave.saveQueue (YesSave.on_message mapping now data st) = YesSave.saveQueue st /\
    YesSave.promises (YesSave.on_message mapping now data st) = YesSave.promises st) \/
   (exists coinData,
      YesSave.saveQueue (YesSave.on_message mapping now data st)
      = <[YesSave.promises st := coinData]> (YesSave.saveQueue st) /\
      YesSave.promises (YesSave.on_message mapping now data st) = S (YesSave.promises st))).
Proof.
  unfold YesSave.on_message.
  destruct data as [message|]; [|auto 10].
  destruct (YesSave.accept message) as [[[coin payload]|]|]; [|auto 10|auto 10].
  destruct (YesSave.processOrderbookData _ _ _ _ _) as [coinData|]; [|cbn; auto 10].
  match goal with |- context [if ?b then _ else _] => destruct b end;
    unfold YesSave.Promise_race_dropped; cbn;
    (repeat split; try reflexivity); right; exists coinData; auto.
Qed.

Lemma fresh_step (mapping : gmap string string) (st : YesSave.state) (ev : YesSave.event) :
  fresh st -> fresh (YesSave.step mapping st ev).
Proof.
  intros Hf. unfold YesSave.step. destruct (YesSave.exited st); [assumption|].
  destruct ev as [now data|p| |mids].
  - destruct (on_message_B_effect mapping now data st)
      as (_ & _ & _ & [[Hq Hp] | (cd & Hq & Hp)]);
      unfold fresh in *; rewrite Hq, Hp; [assumption|].
    intros p. rewrite dom_insert_L, elem_of_union, elem_of_singleton.
    intros [-> | H]; [lia | specialize (Hf p H); lia].
  - unfold YesSave.on_settled. destruct (YesSave.saveQueue st !! p); [|assumption].
    unfold fresh in *. cbn. intros q. rewrite dom_delete_L, elem_of_difference.
    intros [Hq _]. now apply Hf.
  - unfold YesSave.on_sigint. destruct (0 <? _)%nat; exact Hf.
  - destruct mids; exact Hf.
Qed.

Lemma not_stopped_step (mapping : gmap string string) (st : YesSave.state)
    (ev : YesSave.event) :
  not_stopped st -> not_stopped (YesSave.step mapping st ev).
Proof.
  intros Hn. unfold YesSave.step. destruct (YesSave.exited st) eqn:Hex; [assumption|].
  destruct ev as [now data|p| |mids].
  - destruct (on_message_B_effect mapping now data st) as (Hr & He & Hs & _).
    unfold not_stopped in *. rewrite Hr, He, Hs. assumption.
  - unfold YesSave.on_settled. destruct (YesSave.saveQueue st !! p); [|assumption].
    unfold not_stopped in *. cbn. intros Hr. destruct (Hn Hr) as [-> _].
    rewrite Hex. auto.
  - unfold YesSave.on_sigint, not_stopped. destruct (0 <? _)%nat; cbn; discriminate.
  - destruct mids; exact Hn.
Qed.

(** Every reachable state keeps both. *)
Lemma reachable_invariant (mapping : gmap string string) (evs : list YesSave.event) :
  forall st, fresh st -> not_stopped st ->
    fresh (YesSave.run mapping evs st) /\ not_stopped (YesSave.run mapping evs st).
Proof.
  unfold YesSave.run.
  induction evs as [|ev evs IH]; intros st Hf Hn; cbn [fold_left]; [auto|].
  apply IH; [now apply fresh_step | now apply not_stopped_step].
Qed.

Lemma init_invariant : fresh YesSave.init /\ not_stopped YesSave.init.
Proof.
  split.
  - intros p. cbn. rewrite dom_empty_L. set_solver.
  - intros _. auto.
Qed.

(** The first stop signal starts the drain of the tasks in flight. *)
Lemma draining_start (st : YesSave.state) :
  fresh st -> YesSave.shutdowns st = [] -> YesSave.exited st = false ->
  draining (dom (YesSave.saveQueue st)) (YesSave.on_sigint st).
Proof.
  intros Hf Hs Hex. unfold YesSave.on_sigint.
  destruct (0 <? base.size (YesSave.saveQueue st))%nat eqn:Hsz; unfold draining, fresh; cbn.
  - rewrite Hs, Hex. repeat split; try assumption.
    + intros w Hw p Hp _. apply list_elem_of_singleton in Hw. now subst w.
    + discriminate.
  - repeat split; try assumption.
    + rewrite Hs. intros w Hw. now apply not_elem_of_nil in Hw.
    + intros _ p Hp _. apply Nat.ltb_ge in Hsz.
      assert (YesSave.saveQueue st = ∅) as Hempty by (apply map_size_empty_iff; lia).
      rewrite Hempty, dom_empty_L in Hp. set_solver.
Qed.

Lemma draining_step (mapping : gmap string string) (Q : gset nat)
    (st : YesSave.state) (ev : YesSave.event) :
  draining Q st -> draining Q (YesSave.step mapping st ev).
Proof.
  intros HD. unfold YesSave.step. destruct (YesSave.exited st) eqn:Hex; [assumption|].
  destruct HD as (Hf & HQ & Hw & He).
  destruct ev as [now data|p| |mids].
  - pose proof (fresh_step mapping st (YesSave.Message now data) Hf) as Hf'.
    unfold YesSave.step in Hf'. rewrite Hex in Hf'.
    destruct (on_message_B_effect mapping now data st)
      as (_ & He' & Hs' & [[Hq Hp] | (cd & Hq & Hp)]);
      unfold draining; rewrite He', Hs', Hq, Hp; (split; [exact Hf'|]).
    + repeat split; assumption.
    + split; [intros p Hp'; specialize (HQ p Hp'); lia|].
      split.
      * intros w Hin p HpQ. rewrite dom_insert_L, elem_of_union, elem_of_singleton.
        intros [-> | Hd]; [specialize (HQ _ HpQ); lia | now apply (Hw w Hin)].
      * rewrite Hex. discriminate.
  - pose proof (fresh_step mapping st (YesSave.Settled p) Hf) as Hf'.
    unfold YesSave.step in Hf'. rewrite Hex in Hf'.
    unfold YesSave.on_settled in *.
    destruct (YesSave.saveQueue st !! p); [|unfold draining; auto].
    unfold draining. cbn. split; [exact Hf'|]. split; [exact HQ|].
    assert (Hw' : forall w, w ∈ map (fun w => w ∖ {[p]}) (YesSave.shutdowns st) ->
                  forall q, q ∈ Q -> q ∈ dom (delete p (YesSave.saveQueue st)) -> q ∈ w).
    { intros w Hin q HqQ. rewrite dom_delete_L.
      apply list_elem_of_fmap in Hin. destruct Hin as (w0 & -> & Hin0).
      rewrite !elem_of_difference. intros [Hq Hne]. split; [now apply (Hw w0 Hin0)|exact Hne]. }
    split; [exact Hw'|].
    rewrite Hex. cbn [orb]. intros Hexit q HqQ Hq.
    apply existsb_exists in Hexit. destruct Hexit as (w & Hin & Hempty).
    apply bool_decide_eq_true in Hempty. subst w.
    apply list_elem_of_In in Hin.
    specialize (Hw' ∅ Hin q HqQ Hq). now apply not_elem_of_empty in Hw'.
  - unfold YesSave.on_sigint.
    destruct (0 <? base.size (YesSave.saveQueue st))%nat eqn:Hsz; unfold draining, fresh; cbn.
    + split; [exact Hf|]. split; [exact HQ|]. split; [|exact He].
      intros w Hin q HqQ Hq. apply elem_of_cons in Hin. destruct Hin as [-> | Hin].
      * exact Hq.
      * now apply (Hw w Hin).
    + split; [exact Hf|]. split; [exact HQ|]. split; [exact Hw|].
      intros _ q _ Hq. apply Nat.ltb_ge in Hsz.
      assert (YesSave.saveQueue st = ∅) as Hempty by (apply map_size_empty_iff; lia).
      rewrite Hempty, dom_empty_L in Hq. set_solver.
  - destruct mids; unfold draining, fresh; cbn; auto.
Qed.

(** Only its own settlement takes a promise out of the queue. *)
Lemma in_flight_step (mapping : gmap string string) (st : YesSave.state)
    (ev : YesSave.event) (p : nat) :
  p ∈ dom (YesSave.saveQueue st) -> ev <> YesSave.Settled p ->
  p ∈ dom (YesSave.saveQueue (YesSave.step mapping st ev)).
Proof.
  intros Hp Hev. unfold YesSave.step. destruct (YesSave.exited st); [assumption|].
  destruct ev as [now data|q| |mids].
  - destruct (on_message_B_effect mapping now data st)
      as (_ & _ & _ & [[Hq _] | (cd & Hq & _)]); rewrite Hq; [assumption|].
    rewrite dom_insert_L. set_solver.
  - unfold YesSave.on_settled. destruct (YesSave.saveQueue st !! q); [|assumption].
    cbn. rewrite dom_delete_L. assert (q <> p) by congruence. set_solver.
  - unfold YesSave.on_sigint. destruct (0 <? _)%nat; exact Hp.
  - destruct mids; exact Hp.
Qed.

(** The drain: a task of [Q] that is in flight has settled, while the
    process was still alive, before any run that ends with the process
    exited. *)
Lemma drain_settles (mapping : gmap string string) (Q : gset nat) (p : nat)
    (evs : list YesSave.event) :
  forall st,
    draining Q st -> YesSave.exited st = false ->
    p ∈ Q -> p ∈ dom (YesSave.saveQueue st) ->
    YesSave.exited (YesSave.run mapping evs st) = true ->
    exists evs1 evs2,
      evs = (evs1 ++ YesSave.Settled p :: evs2)%list /\
      YesSave.exited (YesSave.run mapping evs1 st) = false /\
      p ∈ dom (YesSave.saveQueue (YesSave.run mapping evs1 st)).
Proof.
  induction evs as [|ev evs IH]; intros st HD Hex HpQ Hp Hend.
  - cbn in Hend. congruence.
  - assert (Hdec : ev = YesSave.Settled p \/ ev <> YesSave.Settled p).
    { destruct ev as [| q | |]; try (right; discriminate).
      destruct (decide (q = p)) as [-> | Hne]; [left; reflexivity | right; congruence]. }
    destruct Hdec as [-> | Hne].
    + exists [], evs. auto.
    + pose proof (draining_step mapping Q st ev HD) as HD'.
      pose proof (in_flight_step mapping st ev p Hp Hne) as Hp'.
      destruct (YesSave.exited (YesSave.step mapping st ev)) eqn:Hex'.
      * destruct HD' as (_ & _ & _ & He). exfalso. exact (He Hex' p HpQ Hp').
      * destruct (IH _ HD' Hex' HpQ Hp' Hend) as (evs1 & evs2 & -> & H1 & H2).
        exists (ev :: evs1), evs2. auto.
Qed.

(** A valid message is registered whatever the size of the queue. *)
Lemma valid_message_registered (mapping : gmap string string) (now : string)
    (st : YesSave.state) :
  fresh st ->
  base.size (YesSave.saveQueue
               (YesSave.on_message mapping now (Some Examples.example_message) st))
  = S (base.size (YesSave.saveQueue st)) /\
  YesSave.exited (YesSave.on_message mapping now (Some Examples.example_message) st)
  = YesSave.exited st.
Proof.
  intros Hf. unfold YesSave.on_message.
  change (YesSave.accept Examples.example_message)
    with (Ok (Some ("@1", Examples.example_snapshot)) : result (option (string * value))).
  destruct (example_transformed mapping (YesSave.allMidsCache st) now "@1") as [cd ->].
  match goal with |- context [if ?b then _ else _] => destruct b end;
    unfold YesSave.Promise_race_dropped; cbn [YesSave.saveQueue YesSave.exited];
    (split; [|reflexivity]);
    apply map_size_insert_None, not_elem_of_dom; intros Hin; specialize (Hf _ Hin); lia.
Qed.

Lemma flood_registered (mapping : gmap string string) (n : nat) :
  forall st, fresh st -> YesSave.exited st = false ->
    base.size (YesSave.saveQueue (YesSave.run mapping (Examples.flood n) st))
    = (base.size (YesSave.saveQueue st) + n)%nat /\
    YesSave.exited (YesSave.run mapping (Examples.flood n) st) = false.
Proof.
  unfold YesSave.run, Examples.flood.
  induction n as [|n IH]; intros st Hf Hex; cbn [repeat fold_left].
  - split; [lia | exact Hex].
  - pose proof (fresh_step mapping st
                  (YesSave.Message Examples.stamp (Some Examples.example_message)) Hf) as Hf'.
    assert (Hstep : YesSave.step mapping st
                      (YesSave.Message Examples.stamp (Some Examples.example_message))
                    = YesSave.on_message mapping Examples.stamp
                        (Some Examples.example_message) st)
      by (unfold YesSave.step; now rewrite Hex).
    rewrite Hstep in Hf' |- *.
    destruct (valid_message_registered mapping Examples.stamp st Hf) as [Hsz Hex'].
    rewrite Hex in Hex'.
    destruct (IH _ Hf' Hex') as [IH1 IH2]. rewrite IH1, Hsz. split; [lia | exact IH2].
Qed.

(** Once every task that was in flight at the stop signal has settled, the
    process has exited. *)
Lemma drained_exits (mapping : gmap string string) (evs : list YesSave.event) :
  forall st,
    (YesSave.exited st = false ->
     Forall (fun w => w <> ∅) (YesSave.shutdowns st) /\
     exists w, w ∈ YesSave.shutdowns st /\ w ⊆ dom (YesSave.saveQueue st) /\
               forall p, p ∈ w -> In (YesSave.Settled p) evs) ->
    YesSave.exited (YesSave.run mapping evs st) = true.
Proof.
  unfold YesSave.run.
  induction evs as [|ev evs IH]; intros st H; cbn [fold_left].
  - destruct (YesSave.exited st) eqn:Hex; [reflexivity|].
    destruct (H eq_refl) as (Hne & w & Hin & _ & Hall).
    rewrite Forall_forall in Hne. specialize (Hne w Hin).
    exfalso. apply Hne. apply set_eq. intros p. split.
    + intros Hp. destruct (Hall p Hp).
    + intros Hp. now apply not_elem_of_empty in Hp.
  - apply IH. unfold YesSave.step.
    destruct (YesSave.exited st) eqn:Hex; [congruence|].
    destruct (H eq_refl) as (Hne & w & Hin & Hsub & Hall).
    destruct ev as [now data|q| |mids].
    + destruct (on_message_B_effect mapping now data st)
        as (_ & He & Hs & [[Hq _] | (cd & Hq & _)]); rewrite Hs, Hq; intros _.
      * split; [exact Hne|]. exists w. repeat split; try assumption.
        intros p Hp. destruct (Hall p Hp) as [Heq | Hrest]; [discriminate | exact Hrest].
      * split; [exact Hne|]. exists w. split; [exact Hin|]. split.
        -- rewrite dom_insert_L. intros p Hp. apply elem_of_union. right. now apply Hsub.
        -- intros p Hp. destruct (Hall p Hp) as [Heq | Hrest]; [discriminate | exact Hrest].
    + unfold YesSave.on_settled.
      destruct (YesSave.saveQueue st !! q) as [cd|] eqn:Hq.
      * cbn. rewrite Hex. cbn [orb]. intros Hex'. split.
        -- apply Forall_forall. intros w' Hw' Hempty. subst w'.
           assert (E : existsb (fun w0 : gset nat => bool_decide (w0 = ∅))
                         (map (fun w0 => w0 ∖ {[q]}) (YesSave.shutdowns st)) = true).
           { apply existsb_exists. exists ∅. split; [now apply list_elem_of_In|].
             now apply bool_decide_eq_true. }
           congruence.
        -- exists (w ∖ {[q]}). split; [apply list_elem_of_fmap; eauto|]. split.
           ++ rewrite dom_delete_L. intros p Hp.
              apply elem_of_difference in Hp as [Hp Hpq].
              apply elem_of_difference. split; [now apply Hsub | exact Hpq].
           ++ intros p Hp. apply elem_of_difference in Hp as [Hp Hpq].
              destruct (Hall p Hp) as [Heq | Hrest]; [|exact Hrest].
              injection Heq as ->. exfalso. apply Hpq. now apply elem_of_singleton.
      * intros _. split; [exact Hne|]. exists w. repeat split; try assumption.
        intros p Hp. destruct (Hall p Hp) as [Heq | Hrest]; [|exact Hrest].
        injection Heq as ->. apply Hsub, elem_of_dom in Hp. rewrite Hq in Hp.
        destruct Hp as [? Hp]. discriminate.
    + unfold YesSave.on_sigint.
      destruct (0 <? base.size (YesSave.saveQueue st))%nat eqn:Hsz; cbn; [|discriminate].
      intros _. split.
      * constructor; [|exact Hne]. intros Hempty.
        apply Nat.ltb_lt in Hsz. apply dom_empty_iff_L in Hempty.
        rewrite Hempty, map_size_empty in Hsz. lia.
      * exists w. split; [now apply list_elem_of_further|]. split; [exact Hsub|].
        intros p Hp. destruct (Hall p Hp) as [Heq | Hrest]; [discriminate | exact Hrest].
    + destruct mids; cbn; intros _; (split; [exact Hne|]); exists w; repeat split;
        try assumption;
        intros p Hp; (destruct (Hall p Hp) as [Heq | Hrest]; [discriminate | exact Hrest]).
Qed.

End DispatchFacts.

Module DispatchClaims.

Import JS Spec DispatchFacts.

(** C8. An inbound message that is not on the l2Book channel, or has no
    data payload, or carries no symbol that starts with "@", is dropped
    silently by the handler of either variant: the handler does not get to
    the transformer call, and the cache of mode A, the queue of mode B and
    the counters are left as they were. *)
Theorem unmatched_message_dropped
    (mapping : gmap string string) (now : string) (message : value)
    (stA : NoSave.state) (stB : YesSave.state) :
  ~ on_l2Book message \/ ~ has_payload message \/ ~ tracked_symbol message ->
  (forall coin data, NoSave.accept message <> Ok (Some (coin, data))) /\
  (forall coin data, YesSave.accept message <> Ok (Some (coin, data))) /\
  NoSave.on_message mapping now (Some message) stA = stA /\
  YesSave.on_message mapping now (Some message) stB = stB /\
  YesSave.step mapping stB (YesSave.Message now (Some message)) = stB.
Proof.
  intros Hno.
  assert (HB : forall coin data, YesSave.accept message <> Ok (Some (coin, data))).
  { intros coin data Hacc. apply accept_B_some in Hacc. tauto. }
  assert (HA : forall coin data, NoSave.accept message <> Ok (Some (coin, data))).
  { intros coin data. rewrite accept_A_B. apply HB. }
  split; [exact HA|]. split; [exact HB|].
  split; [now apply on_message_A_dropped|].
  split; [now apply on_message_B_dropped|].
  unfold YesSave.step. destruct (YesSave.exited stB); [reflexivity|].
  now apply on_message_B_dropped.
Qed.

Lemma unmatched_message_dropped_witness :
  NoSave.on_message ∅ Examples.stamp
    (Some (VObj [("channel", VStr "subscriptionResponse"); ("data", VObj [])])) NoSave.init
  = NoSave.init /\
  YesSave.on_message ∅ Examples.stamp
    (Some (VObj [("channel", VStr "subscriptionResponse"); ("data", VObj [])])) YesSave.init
  = YesSave.init.
Proof.
  destruct (unmatched_message_dropped ∅ Examples.stamp
              (VObj [("channel", VStr "subscriptionResponse"); ("data", VObj [])])
              NoSave.init YesSave.init) as (_ & _ & HA & HB & _).
  - left. intros (channel & Hget & Heq). vm_compute in Hget.
    injection Hget as <-. vm_compute in Heq. discriminate.
  - split; [exact HA | exact HB].
Defined.

(** At the level of promises: when the stop signal arrives, the promise of
    every save that is in the queue at that moment settles before the SIGINT
    handler calls [process.exit].  In every run that ends with the process
    exited, the promise settled at a moment when it was still in the queue
    and the process had not exited, and it is no longer in the queue at the
    end. *)
Lemma promise_settles_before_exit
    (mapping : gmap string string) (before after : list YesSave.event) (p : nat) :
  YesSave.isRunning (YesSave.run mapping before YesSave.init) = true ->
  p ∈ dom (YesSave.saveQueue (YesSave.run mapping before YesSave.init)) ->
  YesSave.exited
    (YesSave.run mapping (YesSave.Sigint :: after) (YesSave.run mapping before YesSave.init))
  = true ->
  exists evs1 evs2,
    after = (evs1 ++ YesSave.Settled p :: evs2)%list /\
    YesSave.exited
      (YesSave.run mapping (YesSave.Sigint :: evs1) (YesSave.run mapping before YesSave.init))
    = false /\
    p ∈ dom (YesSave.saveQueue
               (YesSave.run mapping (YesSave.Sigint :: evs1)
                  (YesSave.run mapping before YesSave.init))) /\
    p ∉ dom (YesSave.saveQueue
               (YesSave.run mapping (YesSave.Sigint :: after)
                  (YesSave.run mapping before YesSave.init))).
Proof.
  set (st := YesSave.run mapping before YesSave.init).
  intros Hrun Hp Hend.
  destruct init_invariant as [Hf0 Hn0].
  destruct (reachable_invariant mapping before YesSave.init Hf0 Hn0) as [Hf Hn].
  fold st in Hf, Hn. destruct (Hn Hrun) as [Hs Hex].
  pose proof (draining_start st Hf Hs Hex) as HD.
  assert (Hstep : forall evs, YesSave.run mapping (YesSave.Sigint :: evs) st
                              = YesSave.run mapping evs (YesSave.on_sigint st)).
  { intros evs. unfold YesSave.run. cbn [fold_left]. unfold YesSave.step at 2.
    now rewrite Hex. }
  rewrite !Hstep in *.
  assert (Hex1 : YesSave.exited (YesSave.on_sigint st) = false).
  { unfold YesSave.on_sigint.
    destruct (0 <? base.size (YesSave.saveQueue st))%nat eqn:Hsz; cbn; [exact Hex|].
    apply Nat.ltb_ge in Hsz.
    assert (YesSave.saveQueue st = ∅) as Hempty by (apply map_size_empty_iff; lia).
    rewrite Hempty, dom_empty_L in Hp. set_solver. }
  assert (Hp1 : p ∈ dom (YesSave.saveQueue (YesSave.on_sigint st))).
  { unfold YesSave.on_sigint. destruct (0 <? _)%nat; exact Hp. }
  destruct (drain_settles mapping _ p after _ HD Hex1 Hp Hp1 Hend)
    as (evs1 & evs2 & Hsplit & H1 & H2).
  exists evs1, evs2. rewrite Hstep.
  split; [exact Hsplit|]. split; [exact H1|]. split; [exact H2|].
  assert (HDend : draining (dom (YesSave.saveQueue st))
                    (YesSave.run mapping after (YesSave.on_sigint st))).
  { clear -HD. generalize dependent (YesSave.on_sigint st). unfold YesSave.run.
    induction after as [|ev evs IH]; intros s HD; cbn [fold_left]; [exact HD|].
    apply IH. now apply draining_step. }
  destruct HDend as (_ & _ & _ & He). exact (He Hend p Hp).
Qed.

(** The stop signal does lead to the exit: once every task that was in
    flight at the signal has settled, the process has exited. *)
Lemma stop_signal_exits (mapping : gmap string string)
    (before after : list YesSave.event) :
  YesSave.isRunning (YesSave.run mapping before YesSave.init) = true ->
  (forall p, p ∈ dom (YesSave.saveQueue (YesSave.run mapping before YesSave.init)) ->
             In (YesSave.Settled p) after) ->
  YesSave.exited
    (YesSave.run mapping (YesSave.Sigint :: after) (YesSave.run mapping before YesSave.init))
  = true.
Proof.
  set (st := YesSave.run mapping before YesSave.init). intros Hrun Hall.
  destruct init_invariant as [Hf0 Hn0].
  destruct (reachable_invariant mapping before YesSave.init Hf0 Hn0) as [Hf Hn].
  fold st in Hf, Hn. destruct (Hn Hrun) as [Hs Hex].
  change (YesSave.run mapping (YesSave.Sigint :: after) st)
    with (YesSave.run mapping after (YesSave.step mapping st YesSave.Sigint)).
  apply drained_exits. unfold YesSave.step. rewrite Hex. unfold YesSave.on_sigint.
  destruct (0 <? base.size (YesSave.saveQueue st))%nat eqn:Hsz; cbn; [|discriminate].
  intros _. rewrite Hs. split.
  - constructor; [|constructor]. intros Hempty.
    apply Nat.ltb_lt in Hsz. apply dom_empty_iff_L in Hempty.
    rewrite Hempty, map_size_empty in Hsz. lia.
  - exists (dom (YesSave.saveQueue st)). split; [apply list_elem_of_here|].
    split; [reflexivity | exact Hall].
Qed.

(** C1 (the code does not do this). When the queue holds more than 100
    promises the handler calls [Promise.race] and drops the result: it is
    not an async function and awaits nothing, so it registers every task
    and returns at once.  With writes that never finish, [n] valid messages
    put [n] tasks in flight, for every [n]: with 150 messages the count is
    above 100 from the 101st message on and stays there. *)
Theorem backpressure_not_applied (n : nat) :
  base.size (YesSave.saveQueue (YesSave.run ∅ (Examples.flood n) YesSave.init)) = n /\
  YesSave.exited (YesSave.run ∅ (Examples.flood n) YesSave.init) = false /\
  Forall (fun ev => forall p, ev <> YesSave.Settled p) (Examples.flood n).
Proof.
  destruct init_invariant as [Hf0 _].
  destruct (flood_registered ∅ n YesSave.init Hf0 eq_refl) as [Hsize Hex].
  split; [exact Hsize|]. split; [exact Hex|].
  unfold Examples.flood. apply Forall_forall. intros ev Hin.
  apply list_elem_of_In, repeat_spec in Hin. subst ev. discriminate.
Qed.

End DispatchClaims.

(** ** Facts about the writes of a save *)

Module SavingFacts.

Import JS Spec DispatchFacts Saving.

Lemma returned_finish (t : task) (f : file) (w : write) :
  returned t = true -> write_of f t = Some Pending -> returned (finish f w t) = true.
Proof.
  destruct t as [|j c s|]; [discriminate| |discriminate].
  destruct f, j, c, s, w; cbn; intros H1 H2; try discriminate; reflexivity.
Qed.

(** A step of the process is a step of the event loop, or leaves it alone. *)
Lemma step_loop (mapping : gmap string string) (st : state) (ev : event) :
  loop (step mapping st ev) = loop st \/
  exists ev', loop (step mapping st ev) = YesSave.step mapping (loop st) ev'.
Proof.
  unfold step. destruct (YesSave.exited (loop st)) eqn:Hex; [left; reflexivity|].
  destruct ev as [now data| |mids|p ok|p f ok].
  - right. exists (YesSave.Message now data). unfold YesSave.step. rewrite Hex. reflexivity.
  - right. exists YesSave.Sigint. unfold YesSave.step. rewrite Hex. reflexivity.
  - right. exists (YesSave.MidPrices mids). unfold YesSave.step. rewrite Hex. reflexivity.
  - unfold on_mkdir. destruct (tasks st !! p) as [[| |]|]; try (left; reflexivity).
    destruct (YesSave.saveQueue (loop st) !! p) as [coinData|]; [|left; reflexivity].
    destruct ok, (build_texts coinData); try (left; reflexivity);
      right; exists (YesSave.Settled p); unfold YesSave.step; rewrite Hex; reflexivity.
  - unfold on_write. destruct (tasks st !! p) as [t|]; [|left; reflexivity].
    destruct (write_of f t) as [[| |]|]; try (left; reflexivity).
    cbn [loop]. destruct (negb (returned t) && returned _); [|left; reflexivity].
    right. exists (YesSave.Settled p). unfold YesSave.step. rewrite Hex. reflexivity.
Qed.

Lemma fresh_saving_step (mapping : gmap string string) (st : state) (ev : event) :
  fresh (loop st) -> fresh (loop (step mapping st ev)).
Proof.
  intros H. destruct (step_loop mapping st ev) as [-> | [ev' ->]];
    [exact H | now apply fresh_step].
Qed.

Lemma not_stopped_saving_step (mapping : gmap string string) (st : state) (ev : event) :
  not_stopped (loop st) -> not_stopped (loop (step mapping st ev)).
Proof.
  intros H. destruct (step_loop mapping st ev) as [-> | [ev' ->]];
    [exact H | now apply not_stopped_step].
Qed.

Lemma draining_saving_step (mapping : gmap string string) (Q : gset nat)
    (st : state) (ev : event) :
  draining Q (loop st) -> draining Q (loop (step mapping st ev)).
Proof.
  intros H. destruct (step_loop mapping st ev) as [-> | [ev' ->]];
    [exact H | now apply draining_step].
Qed.

Lemma draining_saving_run (mapping : gmap string string) (Q : gset nat) (evs : list event) :
  forall st, draining Q (loop st) -> draining Q (loop (run mapping evs st)).
Proof.
  unfold run. induction evs as [|ev evs IH]; intros st H; cbn [fold_left]; [exact H|].
  apply IH, draining_saving_step, H.
Qed.

(** A call that has been made stays on record. *)
Lemma tasks_kept_step (mapping : gmap string string) (st : state) (ev : event) (p : nat) :
  is_Some (tasks st !! p) -> is_Some (tasks (step mapping st ev) !! p).
Proof.
  intros H. unfold step. destruct (YesSave.exited (loop st)); [exact H|].
  assert (Hins : forall q t, is_Some (<[q := t]> (tasks st) !! p)).
  { intros q t. destruct (decide (q = p)) as [->|Hne].
    - rewrite lookup_insert_eq. eauto.
    - rewrite lookup_insert_ne by exact Hne. exact H. }
  destruct ev as [now data| |mids|q ok|q f ok]; try exact H.
  - unfold on_message. cbn [tasks]. destruct (_ <? _)%nat; [apply Hins | exact H].
  - unfold on_mkdir. destruct (tasks st !! q) as [[| |]|]; try exact H.
    destruct (YesSave.saveQueue (loop st) !! q) as [coinData|]; [|exact H].
    destruct ok, (build_texts coinData); apply Hins.
  - unfold on_write. destruct (tasks st !! q) as [t|]; [|exact H].
    destruct (write_of f t) as [[| |]|]; try exact H. apply Hins.
Qed.

Lemma tasks_kept_run (mapping : gmap string string) (evs : list event) (p : nat) :
  forall st, is_Some (tasks st !! p) -> is_Some (tasks (run mapping evs st) !! p).
Proof.
  unfold run. induction evs as [|ev evs IH]; intros st H; cbn [fold_left]; [exact H|].
  apply IH, tasks_kept_step, H.
Qed.

Lemma settled_queue (p : nat) (st : YesSave.state) (coinData : CoinOrderbook) :
  YesSave.saveQueue st !! p = Some coinData ->
  YesSave.saveQueue (YesSave.on_settled p st) = delete p (YesSave.saveQueue st) /\
  YesSave.promises (YesSave.on_settled p st) = YesSave.promises st.
Proof. intros H. unfold YesSave.on_settled. rewrite H. auto. Qed.

(** The queue holds the promises of the calls that have not returned. *)
Lemma tracked_step (mapping : gmap string string) (st : state) (ev : event) :
  tracked st -> tracked (step mapping st ev).
Proof.
  intros (H1 & H2 & H3). unfold step.
  destruct (YesSave.exited (loop st)); [repeat split; assumption|].
  assert (Hkeep : forall q t' l',
            YesSave.saveQueue l' = YesSave.saveQueue (loop st) ->
            YesSave.promises l' = YesSave.promises (loop st) ->
            is_Some (YesSave.saveQueue (loop st) !! q) ->
            returned t' = false ->
            tracked {| loop := l'; tasks := <[q := t']> (tasks st) |}).
  { intros q t' l' Eq Ep Hq Ht'. unfold tracked. cbn [loop tasks]. rewrite Eq, Ep.
    split; [|split].
    - intros p. rewrite dom_insert_L, elem_of_union, elem_of_singleton.
      intros [-> | Hp]; [|now apply H1].
      destruct (H2 q) as (t & Ht & _); [now apply elem_of_dom|].
      apply H1, elem_of_dom. eauto.
    - intros p Hp. destruct (decide (q = p)) as [->|Hne].
      + rewrite lookup_insert_eq. eauto.
      + rewrite lookup_insert_ne by exact Hne. now apply H2.
    - intros p t. destruct (decide (q = p)) as [->|Hne].
      + intros _ _. now apply elem_of_dom.
      + rewrite lookup_insert_ne by exact Hne. apply H3. }
  assert (Hdrop : forall q t' coinData,
            YesSave.saveQueue (loop st) !! q = Some coinData ->
            returned t' = true ->
            tracked {| loop := YesSave.on_settled q (loop st);
                       tasks := <[q := t']> (tasks st) |}).
  { intros q t' coinData Hq Ht'. unfold tracked. cbn [loop tasks].
    destruct (settled_queue q (loop st) coinData Hq) as [-> ->].
    split; [|split].
    - intros p. rewrite dom_insert_L, elem_of_union, elem_of_singleton.
      intros [-> | Hp]; [|now apply H1].
      destruct (H2 q) as (t & Ht & _); [apply elem_of_dom; eauto|].
      apply H1, elem_of_dom. eauto.
    - intros p. rewrite dom_delete_L, elem_of_difference, elem_of_singleton.
      intros [Hp Hne]. rewrite lookup_insert_ne by congruence. now apply H2.
    - intros p t. destruct (decide (q = p)) as [->|Hne].
      + rewrite lookup_insert_eq. intros [= <-]. congruence.
      + rewrite lookup_insert_ne by exact Hne. intros Ht Hr.
        rewrite dom_delete_L, elem_of_difference, elem_of_singleton.
        split; [now apply (H3 p t) | congruence]. }
  destruct ev as [now data| |mids|p ok|p f ok].
  - unfold on_message, tracked. cbn [loop tasks].
    destruct (on_message_B_effect mapping now data (loop st))
      as (_ & _ & _ & [[Hq Hp] | (cd & Hq & Hp)]); rewrite Hq, Hp.
    + rewrite Nat.ltb_irrefl. repeat split; assumption.
    + assert (E : (YesSave.promises (loop st) <? S (YesSave.promises (loop st)))%nat = true)
        by (apply Nat.ltb_lt; lia).
      rewrite E. split; [|split].
      * intros p. rewrite dom_insert_L, elem_of_union, elem_of_singleton.
        intros [-> | Hin]; [lia | specialize (H1 p Hin); lia].
      * intros p. rewrite dom_insert_L, elem_of_union, elem_of_singleton.
        destruct (decide (YesSave.promises (loop st) = p)) as [<-|Hne].
        -- intros _. rewrite lookup_insert_eq. eauto.
        -- intros [-> | Hin]; [congruence|].
           rewrite lookup_insert_ne by exact Hne. now apply H2.
      * intros p t. rewrite dom_insert_L, elem_of_union, elem_of_singleton.
        destruct (decide (YesSave.promises (loop st) = p)) as [<-|Hne]; [auto|].
        rewrite lookup_insert_ne by exact Hne. intros Ht Hr. right. now apply (H3 p t).
  - unfold tracked, YesSave.on_sigint. cbn [loop tasks].
    destruct (0 <? _)%nat; cbn; repeat split; assumption.
  - unfold tracked. cbn [loop tasks]. destruct mids; cbn; repeat split; assumption.
  - unfold on_mkdir. destruct (tasks st !! p) as [[| |]|] eqn:Ht; try (repeat split; assumption).
    destruct (YesSave.saveQueue (loop st) !! p) as [coinData|] eqn:Hq;
      [|repeat split; assumption].
    destruct ok, (build_texts coinData);
      first [ apply Hkeep; [reflexivity | reflexivity | rewrite Hq; eauto | reflexivity]
            | apply (Hdrop p Caught coinData Hq); reflexivity ].
  - unfold on_write. destruct (tasks st !! p) as [t|] eqn:Ht; [|repeat split; assumption].
    destruct (write_of f t) as [[| |]|] eqn:Hw; try (repeat split; assumption).
    destruct (returned t) eqn:Hr; cbn [negb andb].
    + pose proof (returned_finish t f (if ok then Written else Failed) Hr Hw) as Hr'.
      unfold tracked. cbn [loop tasks]. split; [|split].
      * intros q. rewrite dom_insert_L, elem_of_union, elem_of_singleton.
        intros [-> | Hin]; [apply H1, elem_of_dom; eauto | now apply H1].
      * intros q Hin. destruct (H2 q Hin) as (t0 & Ht0 & Hr0).
        destruct (decide (p = q)) as [->|Hne]; [congruence|].
        rewrite lookup_insert_ne by exact Hne. eauto.
      * intros q t0. destruct (decide (p = q)) as [->|Hne].
        -- rewrite lookup_insert_eq. intros [= <-]. congruence.
        -- rewrite lookup_insert_ne by exact Hne. apply H3.
    + assert (Hin : p ∈ dom (YesSave.saveQueue (loop st))) by exact (H3 p t Ht Hr).
      apply elem_of_dom in Hin as [coinData Hq].
      destruct (returned (finish f (if ok then Written else Failed) t)) eqn:Hr'.
      * exact (Hdrop p _ coinData Hq Hr').
      * apply Hkeep; [reflexivity | reflexivity | rewrite Hq; eauto | exact Hr'].
Qed.

Lemma init_tracked : tracked init.
Proof.
  unfold tracked, init. cbn [loop tasks YesSave.init YesSave.saveQueue YesSave.promises].
  split; [|split].
  - intros p. rewrite dom_empty_L. intros H. now apply not_elem_of_empty in H.
  - intros p. rewrite dom_empty_L. intros H. now apply not_elem_of_empty in H.
  - intros p t. rewrite lookup_empty. discriminate.
Qed.

(** Every state the process reaches. *)
Lemma reachable (mapping : gmap string string) (evs : list event) :
  forall st,
    fresh (loop st) -> not_stopped (loop st) -> tracked st ->
    fresh (loop (run mapping evs st)) /\ not_stopped (loop (run mapping evs st)) /\
    tracked (run mapping evs st).
Proof.
  unfold run. induction evs as [|ev evs IH]; intros st Hf Hn Ht; cbn [fold_left]; [auto|].
  apply IH; [now apply fresh_saving_step | now apply not_stopped_saving_step
            | now apply tracked_step].
Qed.

Lemma reachable_init (mapping : gmap string string) (evs : list event) :
  fresh (loop (run mapping evs init)) /\ not_stopped (loop (run mapping evs init)) /\
  tracked (run mapping evs init).
Proof.
  destruct init_invariant as [Hf Hn]. apply reachable; [exact Hf | exact Hn | exact init_tracked].
Qed.

(** The failures of other saves leave a call alone. *)
Lemma json_fails_other (mapping : gmap string string) (ps : list nat) (q : nat) :
  q ∉ ps ->
  forall st, tasks (run mapping (json_fails ps) st) !! q = tasks st !! q.
Proof.
  unfold run, json_fails. induction ps as [|p ps IH]; intros Hq st; cbn [map fold_left];
    [reflexivity|].
  apply not_elem_of_cons in Hq as [Hne Hq]. rewrite (IH Hq).
  unfold step. destruct (YesSave.exited (loop st)); [reflexivity|].
  unfold on_write. destruct (tasks st !! p) as [t|]; [|reflexivity].
  destruct (write_of Json t) as [[| |]|]; try reflexivity.
  cbn [tasks]. apply lookup_insert_ne. congruence.
Qed.

(** One failed write for each save a SIGINT handler waits for, and the
    process exits with the other two writes of each still running. *)
Lemma json_failures (mapping : gmap string string) (ps : list nat) :
  forall p st,
    YesSave.exited (loop st) = false ->
    YesSave.shutdowns (loop st) = [list_to_set (p :: ps)] ->
    NoDup (p :: ps) ->
    (forall q, q ∈ p :: ps ->
       is_Some (YesSave.saveQueue (loop st) !! q) /\
       tasks st !! q = Some (Writing Pending Pending Pending)) ->
    YesSave.exited (loop (run mapping (json_fails (p :: ps)) st)) = true /\
    forall q, q ∈ p :: ps ->
      tasks (run mapping (json_fails (p :: ps)) st) !! q
      = Some (Writing Failed Pending Pending).
Proof.
  induction ps as [|p' ps IH]; intros p st Hex Hsh Hnd Hall.
  - destruct (Hall p) as [[coinData Hq] Ht]; [apply list_elem_of_here|].
    unfold run, json_fails. cbn [map fold_left]. unfold step. rewrite Hex.
    unfold on_write. rewrite Ht. cbn [write_of finish returned is_written is_failed
                                       negb andb orb loop tasks].
    unfold YesSave.on_settled. rewrite Hq, Hsh, Hex. cbn [YesSave.exited map existsb orb].
    split.
    + rewrite bool_decide_eq_true_2; [reflexivity|].
      apply set_eq. intros x. rewrite elem_of_difference, elem_of_list_to_set,
        list_elem_of_singleton, elem_of_singleton.
      split; [intros [? ?]; contradiction | intros H; now apply not_elem_of_empty in H].
    + intros q Hin. apply list_elem_of_singleton in Hin as ->. apply lookup_insert_eq.
  - destruct (Hall p) as [[coinData Hq] Ht]; [apply list_elem_of_here|].
    apply NoDup_cons in Hnd as [Hp Hnd].
    change (run mapping (json_fails (p :: p' :: ps)) st)
      with (run mapping (json_fails (p' :: ps))
              (step mapping st (WriteDone p Json false))).
    set (st1 := step mapping st (WriteDone p Json false)).
    assert (E1 : st1 = {| loop := YesSave.on_settled p (loop st);
                         tasks := <[p := Writing Failed Pending Pending]> (tasks st) |}).
    { unfold st1, step. rewrite Hex. unfold on_write. rewrite Ht. reflexivity. }
    assert (Eset : list_to_set (p :: p' :: ps) ∖ {[p]} = (list_to_set (p' :: ps) : gset nat)).
    { apply set_eq. intros x. rewrite elem_of_difference, !elem_of_list_to_set,
        elem_of_singleton. split.
      - intros [Hx Hne]. apply elem_of_cons in Hx as [-> | Hx]; [contradiction | exact Hx].
      - intros Hx. split; [now apply list_elem_of_further | intros ->; contradiction]. }
    assert (Hne : (list_to_set (p' :: ps) : gset nat) <> ∅).
    { intros Hempty. assert (Hin : p' ∈ (list_to_set (p' :: ps) : gset nat))
        by (apply elem_of_list_to_set, list_elem_of_here).
      rewrite Hempty in Hin. now apply not_elem_of_empty in Hin. }
    destruct (IH p' st1) as [Hexit Htasks].
    + rewrite E1. cbn [loop]. unfold YesSave.on_settled. rewrite Hq, Hsh, Hex.
      cbn [YesSave.exited map existsb orb]. rewrite Eset.
      rewrite bool_decide_eq_false_2 by exact Hne. reflexivity.
    + rewrite E1. cbn [loop]. unfold YesSave.on_settled. rewrite Hq, Hsh.
      cbn [YesSave.shutdowns map]. rewrite Eset. reflexivity.
    + exact Hnd.
    + intros q Hin. destruct (Hall q (list_elem_of_further _ _ _ Hin)) as [Hq' Ht'].
      assert (p <> q) by (intros ->; contradiction).
      rewrite E1. cbn [loop tasks]. unfold YesSave.on_settled. rewrite Hq.
      cbn [YesSave.saveQueue]. rewrite lookup_delete_ne by assumption.
      rewrite lookup_insert_ne by assumption. auto.
    + split; [exact Hexit|]. intros q Hin. apply elem_of_cons in Hin as [-> | Hin].
      * rewrite (json_fails_other mapping (p' :: ps) p Hp). rewrite E1. apply lookup_insert_eq.
      * now apply Htasks.
Qed.

End SavingFacts.

(** ** The writes in flight at the stop signal *)

Module SavingClaims.

Import JS Spec DispatchFacts Saving SavingFacts.

(** C2 (the code does not do this).  What holds: when the stop signal
    arrives, every call of [saveOrderbookToFile] whose promise is in the
    queue has returned before the SIGINT handler calls [process.exit], its
    promise settled.  But a call returns as soon as one of its three writes
    has failed, whatever the other two are doing, so a task can be left in
    the middle of its writes: with every save in the queue past
    [fs.mkdir], its three writes running, one failed JSON write for each
    save after the signal makes the process exit while the CSV and summary
    writes of every one of them are still running. *)
Theorem shutdown_cuts_running_writes :
  (forall (mapping : gmap string string) (before after : list event) (p : nat),
     YesSave.isRunning (loop (run mapping before init)) = true ->
     p ∈ dom (YesSave.saveQueue (loop (run mapping before init))) ->
     YesSave.exited (loop (run mapping (Sigint :: after) (run mapping before init))) = true ->
     exists t,
       tasks (run mapping (Sigint :: after) (run mapping before init)) !! p = Some t /\
       returned t = true) /\
  (forall (mapping : gmap string string) (before : list event),
     YesSave.isRunning (loop (run mapping before init)) = true ->
     YesSave.saveQueue (loop (run mapping before init)) <> ∅ ->
     (forall p, p ∈ dom (YesSave.saveQueue (loop (run mapping before init))) ->
        tasks (run mapping before init) !! p = Some (Writing Pending Pending Pending)) ->
     YesSave.exited
       (loop (run mapping
                (Sigint :: json_fails
                             (elements (dom (YesSave.saveQueue (loop (run mapping before init))))))
                (run mapping before init))) = true /\
     forall p, p ∈ dom (YesSave.saveQueue (loop (run mapping before init))) ->
       tasks (run mapping
                (Sigint :: json_fails
                             (elements (dom (YesSave.saveQueue (loop (run mapping before init))))))
                (run mapping before init)) !! p
       = Some (Writing Failed Pending Pending) /\
       mid_write (Writing Failed Pending Pending) = true).
Proof.
  split.
  - intros mapping before after p. set (st := run mapping before init).
    intros Hrun Hp Hend.
    destruct (reachable_init mapping before) as (Hf & Hn & Ht). fold st in Hf, Hn, Ht.
    destruct (Hn Hrun) as [Hs Hex].
    assert (Hstep : run mapping (Sigint :: after) st
                    = run mapping after {| loop := YesSave.on_sigint (loop st);
                                           tasks := tasks st |}).
    { unfold run. cbn [fold_left]. unfold step at 2. now rewrite Hex. }
    rewrite Hstep in *.
    set (st1 := {| loop := YesSave.on_sigint (loop st); tasks := tasks st |}) in *.
    assert (HD : draining (dom (YesSave.saveQueue (loop st))) (loop st1))
      by exact (draining_start (loop st) Hf Hs Hex).
    pose proof (draining_saving_run mapping _ after st1 HD) as (_ & _ & _ & He).
    specialize (He Hend p Hp).
    assert (Ht1 : tracked st1).
    { pose proof (tracked_step mapping st Sigint Ht) as H.
      unfold step in H. now rewrite Hex in H. }
    assert (Hf1 : fresh (loop st1)).
    { unfold st1, fresh, YesSave.on_sigint. cbn [loop]. destruct (0 <? _)%nat; exact Hf. }
    assert (Hn1 : not_stopped (loop st1)).
    { unfold st1, not_stopped, YesSave.on_sigint. cbn [loop].
      destruct (0 <? _)%nat; cbn; discriminate. }
    destruct (reachable mapping after st1 Hf1 Hn1 Ht1) as (_ & _ & (_ & _ & H3)).
    destruct Ht as (_ & H2 & _). destruct (H2 p Hp) as (t0 & Ht0 & _).
    assert (Hsome : is_Some (tasks (run mapping after st1) !! p)).
    { apply tasks_kept_run. unfold st1. cbn [tasks]. rewrite Ht0. eauto. }
    destruct Hsome as [t Htp]. exists t. split; [exact Htp|].
    destruct (returned t) eqn:Hr; [reflexivity|].
    exfalso. apply He. exact (H3 p t Htp Hr).
  - intros mapping before. set (st := run mapping before init).
    intros Hrun Hne Hall.
    destruct (reachable_init mapping before) as (Hf & Hn & Ht). fold st in Hf, Hn, Ht.
    destruct (Hn Hrun) as [Hs Hex].
    set (Q := dom (YesSave.saveQueue (loop st))) in *.
    assert (Hsize : (0 <? base.size (YesSave.saveQueue (loop st)))%nat = true).
    { apply Nat.ltb_lt. destruct (base.size (YesSave.saveQueue (loop st))) eqn:E; [|lia].
      apply map_size_empty_iff in E. contradiction. }
    assert (Hstep : run mapping (Sigint :: json_fails (elements Q)) st
                    = run mapping (json_fails (elements Q))
                        {| loop := YesSave.on_sigint (loop st); tasks := tasks st |}).
    { unfold run. cbn [fold_left]. unfold step at 2. now rewrite Hex. }
    rewrite Hstep.
    destruct (elements Q) as [|p ps] eqn:Eel.
    { exfalso. apply elements_empty_inv in Eel. apply Hne.
      apply dom_empty_iff_L. unfold_leibniz. exact Eel. }
    assert (HQ : forall q, q ∈ p :: ps <-> q ∈ Q).
    { intros q. rewrite <- Eel. apply elem_of_elements. }
    destruct (json_failures mapping ps p
                {| loop := YesSave.on_sigint (loop st); tasks := tasks st |})
      as [Hexit Htasks].
    + cbn [loop]. unfold YesSave.on_sigint. rewrite Hsize. exact Hex.
    + cbn [loop]. unfold YesSave.on_sigint. rewrite Hsize. cbn [YesSave.shutdowns].
      rewrite Hs. f_equal. fold Q. apply set_eq. intros q.
      rewrite elem_of_list_to_set. symmetry. apply HQ.
    + rewrite <- Eel. apply NoDup_elements.
    + intros q Hq. apply HQ in Hq. cbn [loop tasks]. split.
      * unfold YesSave.on_sigint. rewrite Hsize. cbn [YesSave.saveQueue].
        now apply elem_of_dom.
      * now apply Hall.
    + split; [exact Hexit|]. intros q Hq. split; [|reflexivity].
      apply Htasks, HQ, Hq.
Qed.

(** The witness of C2: twenty saves in flight, each with its three writes
    running.  When all sixty writes succeed after the signal the process
    exits with every call returned; when the JSON write of each fails, it
    exits with forty writes still running. *)
Lemma shutdown_cuts_running_writes_witness :
  (YesSave.exited (loop (run ∅ (Sigint :: all_written 20) (run ∅ (writing 20) init))) = true /\
   exists t,
     tasks (run ∅ (Sigint :: all_written 20) (run ∅ (writing 20) init)) !! 7%nat = Some t /\
     returned t = true) /\
  (base.size (YesSave.saveQueue (loop (run ∅ (writing 20) init))) = 20%nat /\
   YesSave.exited
     (loop (run ∅
              (Sigint :: json_fails
                           (elements (dom (YesSave.saveQueue (loop (run ∅ (writing 20) init))))))
              (run ∅ (writing 20) init))) = true /\
   forall p, p ∈ dom (YesSave.saveQueue (loop (run ∅ (writing 20) init))) ->
     tasks (run ∅
              (Sigint :: json_fails
                           (elements (dom (YesSave.saveQueue (loop (run ∅ (writing 20) init))))))
              (run ∅ (writing 20) init)) !! p
     = Some (Writing Failed Pending Pending) /\
     mid_write (Writing Failed Pending Pending) = true).
Proof.
  split.
  - split; [vm_compute; reflexivity|].
    apply (proj1 shutdown_cuts_running_writes ∅ (writing 20) (all_written 20) 7%nat).
    + vm_compute. reflexivity.
    + apply elem_of_dom. vm_compute. eexists. reflexivity.
    + vm_compute. reflexivity.
  - split; [vm_compute; reflexivity|].
    apply (proj2 shutdown_cuts_running_writes ∅ (writing 20)).
    + vm_compute. reflexivity.
    + intros H. apply (f_equal base.size) in H. vm_compute in H. discriminate.
    + intros p Hp. apply elem_of_dom in Hp as [cd Hp].
      assert (Hlt : (p < 20)%nat).
      { destruct (reachable_init ∅ (writing 20)) as (Hf & _ & _).
        assert (Hin : p ∈ dom (YesSave.saveQueue (loop (run ∅ (writing 20) init))))
          by (apply elem_of_dom; eauto).
        apply Hf in Hin. vm_compute in Hin. lia. }
      do 20 (destruct p as [|p]; [vm_compute; reflexivity|]). lia.
Defined.

End SavingClaims.

(** ** The tabular form *)

Module TabularFacts.

Import JS Tabular.

Lemma lacks_app (c : ascii) (s t : string) :
  lacks c (s +:+ t) = lacks c s && lacks c t.
Proof.
  induction s as [|a s IH]; simpl; [reflexivity|].
  rewrite IH. now rewrite andb_assoc.
Qed.

Lemma split_on_nonempty (c : ascii) (s : string) : split_on c s <> [].
Proof.
  destruct s as [|a s]; cbn [split_on]; [discriminate|].
  destruct (Ascii.eqb a c); [discriminate|]. destruct (split_on c s); discriminate.
Qed.

Lemma append_char (c : ascii) (s : string) : String c "" +:+ s = String c s.
Proof. reflexivity. Qed.

Lemma append_assoc (a b c : string) : (a +:+ b) +:+ c = a +:+ (b +:+ c).
Proof.
  induction a as [|x a IH]; [reflexivity|].
  change (String x ((a +:+ b) +:+ c) = String x (a +:+ (b +:+ c))). now rewrite IH.
Qed.

(** A field without the separator, followed by the separator. *)
Lemma split_on_field (c : ascii) (f rest : string) :
  lacks c f = true ->
  split_on c (f +:+ String c rest) = f :: split_on c rest.
Proof.
  induction f as [|a f IH]; simpl; intros H.
  - now rewrite Ascii.eqb_refl.
  - apply andb_true_iff in H. destruct H as [Ha Hf].
    apply negb_true_iff in Ha. rewrite Ha, (IH Hf). reflexivity.
Qed.

Lemma split_on_last (c : ascii) (f : string) :
  lacks c f = true -> split_on c f = [f].
Proof.
  induction f as [|a f IH]; simpl; intros H; [reflexivity|].
  apply andb_true_iff in H. destruct H as [Ha Hf].
  apply negb_true_iff in Ha. rewrite Ha, (IH Hf). reflexivity.
Qed.

(** Decimal digits hold no separator and read back as the number. *)
Lemma lacks_uint (c : ascii) (d : uint) :
  Num.is_digit c = false -> lacks c (NilEmpty.string_of_uint d) = true.
Proof.
  intros Hc.
  induction d; cbn [NilEmpty.string_of_uint lacks]; try reflexivity;
    rewrite IHd, andb_true_r;
    match goal with
    | |- context [Ascii.eqb ?a c] => destruct (Ascii.eqb_spec a c) as [<- |]
    end; solve [discriminate Hc | reflexivity].
Qed.

Lemma lacks_nat (c : ascii) (n : nat) :
  Num.is_digit c = false -> lacks c (string_of_nat n) = true.
Proof.
  intros Hc. unfold string_of_nat, NilZero.string_of_uint.
  destruct (Nat.to_uint n) eqn:E; try (rewrite <- E; now apply lacks_uint).
  cbn [lacks]. destruct (Ascii.eqb_spec "0" c) as [<- |]; [discriminate Hc | reflexivity].
Qed.

Lemma to_uint_nonnil (n : nat) : Nat.to_uint n <> Nil.
Proof.
  intros H. pose proof (DecimalNat.Unsigned.to_of (Nat.to_uint n)) as E.
  rewrite DecimalNat.Unsigned.of_to in E. rewrite E in H.
  exact (unorm_nonnil _ H).
Qed.

Lemma parse_rank_nat (n : nat) : parse_rank (string_of_nat n) = Some n.
Proof.
  unfold parse_rank, string_of_nat.
  rewrite NilZero.usu by apply to_uint_nonnil.
  cbn [option_map]. now rewrite DecimalNat.Unsigned.of_to.
Qed.

Lemma separator_free_lacks (s : string) :
  separator_free s = true ->
  lacks "," s = true /\ lacks (ascii_of_nat 10) s = true.
Proof. unfold separator_free. intros H. now apply andb_true_iff in H. Qed.

Lemma row_text_nonempty (sd : string) (lv : OrderbookLevel) :
  sd <> "" -> String.eqb (row_text sd lv) "" = false.
Proof.
  intros Hsd. unfold row_text. destruct sd as [|a sd]; [contradiction|]. reflexivity.
Qed.

(** The writer's row of a plain level, and what the reader makes of it. *)
Lemma csv_row_plain (sd : string) (lv : OrderbookLevel) :
  plain_level lv -> YesSave.csv_row sd lv = Ok (row_text sd lv).
Proof.
  intros (p & s & Hp & Hs & _). unfold YesSave.csv_row, row_text.
  rewrite Hp, Hs. reflexivity.
Qed.

Lemma parse_row_plain (sd : side) (name : string) (lv : OrderbookLevel) :
  parse_side name = Some sd -> lacks "," name = true ->
  plain_level lv ->
  parse_row (row_text name lv) = Some (tuple_of sd lv).
Proof.
  intros Hname Hfree (p & s & Hp & Hs & Fp & Fs & Fc & Ft).
  apply separator_free_lacks in Fp as [Fp _]. apply separator_free_lacks in Fs as [Fs _].
  apply separator_free_lacks in Fc as [Fc _]. apply separator_free_lacks in Ft as [Ft _].
  unfold parse_row, row_text. rewrite Hp, Hs. cbn [text_of].
  rewrite !append_char.
  rewrite !split_on_field, split_on_last; try assumption.
  - cbv beta iota. rewrite Hname, parse_rank_nat. unfold tuple_of. now rewrite Hp, Hs.
  - now apply lacks_nat.
Qed.

Lemma lacks_row (sd : string) (lv : OrderbookLevel) :
  lacks (ascii_of_nat 10) sd = true -> plain_level lv ->
  lacks (ascii_of_nat 10) (row_text sd lv) = true.
Proof.
  intros Hsd (p & s & Hp & Hs & Fp & Fs & Fc & Ft).
  apply separator_free_lacks in Fp as [_ Fp]. apply separator_free_lacks in Fs as [_ Fs].
  apply separator_free_lacks in Fc as [_ Fc]. apply separator_free_lacks in Ft as [_ Ft].
  unfold row_text. rewrite Hp, Hs. cbn [text_of].
  rewrite !lacks_app, Hsd, Fp, Fs, Fc, Ft, (lacks_nat _ (level lv)) by reflexivity.
  reflexivity.
Qed.

(** Rows joined by line feeds split back into the rows. *)
Lemma split_join (rows : list string) :
  rows <> [] -> Forall (fun row => lacks (ascii_of_nat 10) row = true) rows ->
  split_on (ascii_of_nat 10) (YesSave.join YesSave.LF rows) = rows.
Proof.
  induction rows as [|row rows IH]; [contradiction|]. intros _ H.
  apply Forall_cons in H as [Hrow Hrows].
  destruct rows as [|row' rows].
  - cbn [YesSave.join]. now apply split_on_last.
  - change (YesSave.join YesSave.LF (row :: row' :: rows))
      with (row +:+ String (ascii_of_nat 10) (YesSave.join YesSave.LF (row' :: rows))).
    rewrite split_on_field by assumption. f_equal. now apply IH.
Qed.

Lemma parse_rows_plain (sd : side) (name : string) (lvs : list OrderbookLevel)
    (more : list string) (ts : list tuple) :
  parse_side name = Some sd -> lacks "," name = true -> name <> "" ->
  Forall plain_level lvs ->
  parse_rows more = Some ts ->
  parse_rows (map (row_text name) lvs ++ more)%list = Some (map (tuple_of sd) lvs ++ ts)%list.
Proof.
  intros Hname Hfree Hne Hall Hmore.
  induction Hall as [|lv lvs Hlv Hall IH]; [exact Hmore|].
  cbn [map app parse_rows]. rewrite (row_text_nonempty name lv Hne).
  rewrite (parse_row_plain sd name lv Hname Hfree Hlv), IH. reflexivity.
Qed.

Lemma mapM_csv_rows (name : string) (lvs : list OrderbookLevel) :
  Forall plain_level lvs ->
  mapM (YesSave.csv_row name) lvs = Ok (map (row_text name) lvs).
Proof.
  induction 1 as [|lv lvs Hlv Hall IH]; [reflexivity|].
  cbn [mapM map]. rewrite (csv_row_plain name lv Hlv), IH. reflexivity.
Qed.

End TabularFacts.

(** ** The characters of formatted numbers *)

Module FormatFacts.

Import Num DataModel.

Lemma only_app (p : ascii -> bool) (a b : string) :
  only p (a +:+ b) = only p a && only p b.
Proof.
  induction a as [|c a IH]; simpl; [reflexivity|].
  rewrite IH. now rewrite andb_assoc.
Qed.

Lemma only_weaken (p q : ascii -> bool) (s : string) :
  (forall c, p c = true -> q c = true) -> only p s = true -> only q s = true.
Proof.
  intros Hpq. induction s as [|c s IH]; cbn [only]; [reflexivity|].
  intros H. apply andb_true_iff in H as [Hc Hs].
  rewrite (Hpq c Hc), (IH Hs). reflexivity.
Qed.

Lemma only_take (p : ascii -> bool) (s : string) :
  only p s = true -> forall n, only p (str_take n s) = true.
Proof.
  induction s as [|c s IH]; intros H n; destruct n as [|n]; cbn [str_take only];
    try reflexivity.
  cbn [only] in H. apply andb_true_iff in H as [Hc Hs]. rewrite Hc, (IH Hs). reflexivity.
Qed.

Lemma only_drop (p : ascii -> bool) (s : string) :
  only p s = true -> forall n, only p (str_drop n s) = true.
Proof.
  induction s as [|c s IH]; intros H n; destruct n as [|n]; cbn [str_drop];
    try exact H.
  cbn [only] in H. apply andb_true_iff in H as [Hc Hs]. apply IH. exact Hs.
Qed.

Lemma only_zeros (p : ascii -> bool) (n : nat) :
  p "0"%char = true -> only p (zeros n) = true.
Proof.
  intros H. induction n as [|n IH]; cbn [zeros only]; [reflexivity|].
  rewrite H, IH. reflexivity.
Qed.

Lemma only_uint (d : uint) : only is_digit (NilEmpty.string_of_uint d) = true.
Proof. induction d; cbn [NilEmpty.string_of_uint only]; try reflexivity; exact IHd. Qed.

Lemma only_string_of_N (n : N) : only is_digit (string_of_N n) = true.
Proof.
  unfold string_of_N, NilZero.string_of_uint.
  destruct (N.to_uint n) eqn:E; try reflexivity; rewrite <- E; apply only_uint.
Qed.

Lemma only_strip_zeros (p : ascii -> bool) (fuel : nat) :
  forall s, only p s = true -> only p (strip_zeros fuel s) = true.
Proof.
  induction fuel as [|fuel IH]; intros s H; cbn [strip_zeros]; [exact H|].
  destruct (String.length s) as [|[|n]]; try exact H.
  destruct (String.eqb (str_drop (S n) s) "0"); [|exact H].
  apply IH, only_take, H.
Qed.

Lemma digit_number_char (c : ascii) : is_digit c = true -> number_char c = true.
Proof. intros H. unfold number_char. rewrite H. reflexivity. Qed.

Lemma number_digits (s : string) : only is_digit s = true -> number_text s = true.
Proof. apply only_weaken, digit_number_char. Qed.

Lemma number_app (a b : string) :
  number_text a = true -> number_text b = true -> number_text (a +:+ b) = true.
Proof. unfold number_text. intros Ha Hb. rewrite only_app, Ha, Hb. reflexivity. Qed.

Lemma number_shortest_digits (m e : Z) : number_text (fst (shortest_digits m e)) = true.
Proof.
  unfold shortest_digits. destruct (shortest_from 17 m e (log10_floor m e) 1) as [s p].
  cbn [fst]. apply only_strip_zeros, number_digits, only_string_of_N.
Qed.

Lemma number_exponent_suffix (n : Z) : number_text (exponent_suffix n) = true.
Proof.
  unfold exponent_suffix.
  change (number_text ("e" +:+ (String (if (0 <=? n - 1)%Z then "+"%char else "-"%char) ""
                                +:+ string_of_Zabs (n - 1))) = true).
  apply number_app; [reflexivity|].
  apply number_app; [destruct (0 <=? n - 1)%Z; reflexivity|].
  apply number_digits, only_string_of_N.
Qed.

Lemma number_format_digits (ds : string) (n : Z) :
  number_text ds = true -> number_text (format_digits ds n) = true.
Proof.
  intros H. unfold format_digits.
  assert (Hz : forall k, number_text (zeros k) = true)
    by (intros k; apply only_zeros; reflexivity).
  assert (Ht : forall k, number_text (str_take k ds) = true) by (intros k; apply only_take, H).
  assert (Hd : forall k, number_text (str_drop k ds) = true) by (intros k; apply only_drop, H).
  pose proof (number_exponent_suffix n) as He.
  repeat match goal with |- context [if ?c then _ else _] => destruct c end;
    repeat first [assumption | apply number_app | reflexivity | apply Hz | apply Ht | apply Hd].
Qed.

Lemma number_toString (x : number) : number_text (toString x) = true.
Proof.
  destruct x as [s|s| |s m e]; cbn [toString]; try (destruct s; reflexivity); try reflexivity.
  pose proof (number_shortest_digits (Zpos m) e) as H.
  destruct (shortest_digits (Zpos m) e) as [ds n]. cbn [fst] in H.
  apply number_app; [destruct s; reflexivity | apply number_format_digits, H].
Qed.

Lemma number_fixed_digits (n : Z) (f : nat) : number_text (fixed_digits n f) = true.
Proof.
  unfold fixed_digits.
  pose proof (number_digits _ (only_string_of_N (Z.abs_N n))) as H.
  fold (string_of_Zabs n) in H.
  destruct f as [|f]; [exact H|].
  set (ds' := if (String.length (string_of_Zabs n) <=? S f)%nat
              then zeros (S f + 1 - String.length (string_of_Zabs n)) +:+ string_of_Zabs n
              else string_of_Zabs n).
  assert (H' : number_text ds' = true).
  { unfold ds'. destruct (_ <=? _)%nat; [|exact H].
    apply number_app; [apply only_zeros; reflexivity | exact H]. }
  apply number_app; [apply only_take, H'|].
  apply number_app; [reflexivity | apply only_drop, H'].
Qed.

(** What [toFixed] writes is made of the characters of a number. *)
Lemma number_toFixed (x : number) (f : nat) : number_text (toFixed x f) = true.
Proof.
  destruct x as [s|s| |s m e]; cbn [toFixed].
  - apply number_fixed_digits.
  - apply (number_toString (S754_infinity s)).
  - reflexivity.
  - apply number_app; [destruct s; reflexivity|].
    destruct (cmp_dec_bin 1 21 (Zpos m) e);
      first [apply number_fixed_digits | apply (number_toString (S754_finite false m e))].
Qed.

Lemma only_decimal_from (s : string) : decimal_from s = true -> number_text s = true.
Proof.
  induction s as [|c s IH]; cbn [decimal_from]; [reflexivity|].
  unfold number_text. cbn [only]. destruct (is_digit c) eqn:Hd.
  - intros H. rewrite (digit_number_char c Hd). exact (IH H).
  - destruct (Ascii.eqb_spec c "."%char) as [->|]; [|discriminate].
    intros H. apply andb_true_iff in H as [_ H].
    exact (number_digits s H).
Qed.

(** A decimal string is made of the characters of a number. *)
Lemma number_decimal (s : string) : decimal_string s = true -> number_text s = true.
Proof.
  destruct s as [|c s]; cbn [decimal_string]; [discriminate|].
  intros H. apply andb_true_iff in H as [Hc Hs].
  unfold number_text. cbn [only]. rewrite (digit_number_char c Hc).
  exact (only_decimal_from s Hs).
Qed.

Lemma only_lacks (p : ascii -> bool) (c : ascii) (s : string) :
  p c = false -> only p s = true -> Tabular.lacks c s = true.
Proof.
  intros Hc. induction s as [|a s IH]; cbn [only Tabular.lacks]; [reflexivity|].
  intros H. apply andb_true_iff in H as [Ha Hs]. rewrite (IH Hs), andb_true_r.
  destruct (Ascii.eqb_spec a c) as [->|]; [congruence | reflexivity].
Qed.

Lemma number_separator_free (s : string) :
  number_text s = true -> Tabular.separator_free s = true.
Proof.
  intros H. unfold Tabular.separator_free.
  rewrite (only_lacks number_char "," s eq_refl H).
  rewrite (only_lacks number_char (ascii_of_nat 10) s eq_refl H). reflexivity.
Qed.

Lemma timestamp_separator_free (s : string) :
  timestamp_text s = true -> Tabular.separator_free s = true.
Proof.
  intros H. unfold Tabular.separator_free.
  rewrite (only_lacks timestamp_char "," s eq_refl H).
  rewrite (only_lacks timestamp_char (ascii_of_nat 10) s eq_refl H). reflexivity.
Qed.

(** A DepthLevel holds no separator. *)
Lemma depth_level_plain (lv : OrderbookLevel) :
  depth_level lv -> Tabular.plain_level lv.
Proof.
  intros (p & s & Hp & Hs & Dp & Ds & Hc & Ht). exists p, s.
  split; [exact Hp|]. split; [exact Hs|].
  split; [apply number_separator_free, number_decimal, Dp|].
  split; [apply number_separator_free, number_decimal, Ds|].
  split; [apply number_separator_free, Hc | apply timestamp_separator_free, Ht].
Qed.

End FormatFacts.

(** ** The levels of the data model *)

Module RoundTripFacts.

Import JS Spec Tabular TabularFacts DataModel FormatFacts TransformFacts.

Lemma decimal_level_reads (raw : value) :
  decimal_level raw ->
  (exists x, level_size raw = Ok x) /\ (exists y, level_price raw = Ok y).
Proof.
  intros (p & s & Hp & Hs & _ & _). unfold level_size, level_price.
  rewrite Hp, Hs. cbn. split; eexists; reflexivity.
Qed.

Lemma decimal_level_entry (raw : value) :
  decimal_level raw ->
  exists p s, ps_price (entry_of raw) = VStr p /\ ps_size (entry_of raw) = VStr s /\
              decimal_string p = true /\ decimal_string s = true.
Proof.
  intros (p & s & Hp & Hs & Dp & Ds). exists p, s.
  unfold entry_of, field. cbn [ps_price ps_size]. rewrite Hp, Hs. repeat split; assumption.
Qed.

(** The levels made of decimal entries at an ISO timestamp are DepthLevels. *)
Lemma top_levels_depth (ts : string) (entries : list PriceSize) :
  timestamp_text ts = true ->
  Forall (fun e => exists p s, ps_price e = VStr p /\ ps_size e = VStr s /\
                               decimal_string p = true /\ decimal_string s = true) entries ->
  forall idx acc out,
    YesSave.top_levels ts entries idx acc = Ok out -> Forall depth_level out.
Proof.
  intros Hts. induction 1 as [|e entries (p & s & Hp & Hs & Dp & Ds) _ IH];
    intros idx acc out H; cbn [YesSave.top_levels] in H.
  - injection H as <-. constructor.
  - destruct (parseFloat (ps_size e)) as [sz|]; cbn [bind] in H; [|discriminate].
    destruct (YesSave.top_levels ts entries (S idx) (Num.add acc sz)) as [more|] eqn:Hm;
      cbn [bind] in H; [|discriminate].
    injection H as <-. constructor; [|eapply IH; exact Hm].
    exists p, s. cbn [price size cumulative timestamp].
    split; [exact Hp|]. split; [exact Hs|]. split; [exact Dp|]. split; [exact Ds|].
    split; [apply number_toFixed | exact Hts].
Qed.

(** The text written for a record whose levels hold no separator re-parses
    to the tuples of the record. *)
Lemma round_trip_plain (coinData : CoinOrderbook) :
  Forall plain_level (bids coinData) ->
  Forall plain_level (asks coinData) ->
  exists text,
    YesSave.csvContent coinData = Ok text /\
    parse text = Some (tuples coinData).
Proof.
  intros Hb Ha. unfold YesSave.csvContent.
  rewrite (mapM_csv_rows "BID" _ Hb), (mapM_csv_rows "ASK" _ Ha). cbn [bind].
  eexists. split; [reflexivity|].
  unfold parse, YesSave.csvHeader, YesSave.LF.
  rewrite append_assoc, append_char.
  rewrite split_on_field by reflexivity.
  change (String.eqb "Side,Level,Price,Size,Cumulative,Timestamp"
            "Side,Level,Price,Size,Cumulative,Timestamp") with true. cbv iota.
  unfold tuples.
  set (rows := (map (row_text "BID") (bids coinData) ++ map (row_text "ASK") (asks coinData))%list).
  assert (Hrows : parse_rows rows
                  = Some (map (tuple_of BID) (bids coinData) ++ map (tuple_of ASK) (asks coinData))%list).
  { unfold rows.
    apply (parse_rows_plain BID "BID"); try reflexivity; try discriminate; try assumption.
    rewrite <- (app_nil_r (map (row_text "ASK") (asks coinData))).
    rewrite <- (app_nil_r (map (tuple_of ASK) (asks coinData))).
    apply (parse_rows_plain ASK "ASK"); try reflexivity; try discriminate; assumption. }
  destruct rows as [|row rows'] eqn:Erows.
  - cbn [YesSave.join split_on]. exact Hrows.
  - rewrite split_join; [exact Hrows | discriminate |].
    rewrite <- Erows. unfold rows. apply Forall_app. split.
    + apply Forall_forall. intros row0 Hin. apply list_elem_of_fmap in Hin.
      destruct Hin as (lv & -> & Hin). apply lacks_row; [reflexivity|].
      rewrite Forall_forall in Hb. now apply Hb.
    + apply Forall_forall. intros row0 Hin. apply list_elem_of_fmap in Hin.
      destruct Hin as (lv & -> & Hin). apply lacks_row; [reflexivity|].
      rewrite Forall_forall in Ha. now apply Ha.
Qed.

End RoundTripFacts.

(** ** The round trip through the tabular form *)

Module TabularClaims.

Import JS Spec Tabular TabularFacts DataModel FormatFacts RoundTripFacts TransformFacts.

(** C7. For every SymbolDepth record, one whose levels are DepthLevels of
    the data model (price and size decimal strings, the cumulative size a
    written number, a timestamp), the CSV text that [saveOrderbookToFile]
    writes re-parses to exactly the (side, rank, price, size, cumulative)
    tuples of the in-memory record, bids first, then asks.  And the records
    of the program are such records: for every raw snapshot whose levels
    carry their price and size as decimal strings the transformer of mode B
    returns a record of DepthLevels, whose CSV text re-parses to its
    tuples. *)
Theorem tabular_round_trip :
  (forall coinData : CoinOrderbook,
     Forall depth_level (bids coinData) ->
     Forall depth_level (asks coinData) ->
     exists text,
       YesSave.csvContent coinData = Ok text /\
       parse text = Some (tuples coinData)) /\
  (forall (mapping mids : gmap string string) (now coin : string) (l2Data : value)
          (feedBids feedAsks : list value),
     feed_side l2Data 0 = Some feedBids ->
     feed_side l2Data 1 = Some feedAsks ->
     Forall decimal_level feedBids ->
     Forall decimal_level feedAsks ->
     timestamp_text now = true ->
     exists coinData text,
       YesSave.processOrderbookData mapping mids now coin l2Data = Some coinData /\
       Forall depth_level (bids coinData) /\
       Forall depth_level (asks coinData) /\
       YesSave.csvContent coinData = Ok text /\
       parse text = Some (tuples coinData)).
Proof.
  assert (Hdepth : forall coinData : CoinOrderbook,
             Forall depth_level (bids coinData) ->
             Forall depth_level (asks coinData) ->
             exists text,
               YesSave.csvContent coinData = Ok text /\
               parse text = Some (tuples coinData)).
  { intros coinData Hb Ha. apply round_trip_plain.
    - eapply Forall_impl; [exact Hb | exact depth_level_plain].
    - eapply Forall_impl; [exact Ha | exact depth_level_plain]. }
  split; [exact Hdepth|].
  intros mapping mids now coin l2Data fb fa H0 H1 Hb Ha Hts.
  assert (Hreads : forall feed, Forall decimal_level feed ->
            Forall (fun lv => exists x, level_size lv = Ok x) feed /\
            Forall (fun lv => exists y, level_price lv = Ok y) feed).
  { intros feed Hf. split; (eapply Forall_impl; [exact Hf|]); intros lv Hlv;
      apply (decimal_level_reads lv Hlv). }
  destruct (transform_total mapping mids now coin l2Data fb fa H0 H1
              (proj1 (Hreads _ Hb)) (proj1 (Hreads _ Ha))
              (proj2 (Hreads _ Hb)) (proj2 (Hreads _ Ha)))
    as (bb & ba & tb & ta & _ & _ & Hr).
  pose proof Hr as Hinv. apply transform_inv in Hinv.
  destruct Hinv as (fb' & fa' & bb' & ba' & tb' & ta' & H0' & H1' & _ & _ & _ & _
                    & Htb & Hta & E).
  rewrite H0 in H0'. rewrite H1 in H1'. injection H0' as <-. injection H1' as <-.
  assert (Hentries : forall feed, Forall decimal_level feed ->
            Forall (fun e => exists p s, ps_price e = VStr p /\ ps_size e = VStr s /\
                                         decimal_string p = true /\ decimal_string s = true)
                   (map entry_of (firstn 10 feed))).
  { intros feed Hf. apply Forall_map. apply Forall_take.
    eapply Forall_impl; [exact Hf | exact decimal_level_entry]. }
  assert (Db : Forall depth_level tb')
    by exact (top_levels_depth now _ Hts (Hentries _ Hb) 0 Num.zero tb' Htb).
  assert (Da : Forall depth_level ta')
    by exact (top_levels_depth now _ Hts (Hentries _ Ha) 0 Num.zero ta' Hta).
  injection E as _ _ Eb Ea. subst tb' ta'.
  match type of Hr with _ = Some ?r => destruct (Hdepth r Db Da) as (text & Hcsv & Hparse);
    exists r, text end.
  split; [exact Hr|]. split; [exact Db|]. split; [exact Da|]. split; assumption.
Qed.

(** The witness of C7: the record of the worked example, and the snapshot
    it is made from. *)
Lemma tabular_round_trip_witness :
  (exists text,
     YesSave.csvContent Examples.example_record = Ok text /\
     parse text = Some (tuples Examples.example_record)) /\
  (exists coinData text,
     YesSave.processOrderbookData ∅ ∅ Examples.stamp "@1" Examples.example_snapshot
     = Some coinData /\
     Forall depth_level (bids coinData) /\
     Forall depth_level (asks coinData) /\
     YesSave.csvContent coinData = Ok text /\
     parse text = Some (tuples coinData)).
Proof.
  split.
  - apply (proj1 tabular_round_trip Examples.example_record).
    + repeat first [apply List.Forall_nil | apply List.Forall_cons];
        eexists _, _; repeat split; reflexivity.
    + repeat first [apply List.Forall_nil | apply List.Forall_cons];
        eexists _, _; repeat split; reflexivity.
  - apply (proj2 tabular_round_trip ∅ ∅ Examples.stamp "@1" Examples.example_snapshot
             Examples.example_bids Examples.example_asks).
    + reflexivity.
    + reflexivity.
    + repeat first [apply List.Forall_nil | apply List.Forall_cons];
        eexists _, _; repeat split; reflexivity.
    + repeat first [apply List.Forall_nil | apply List.Forall_cons];
        eexists _, _; repeat split; reflexivity.
    + reflexivity.
Defined.

End TabularClaims.

(** ** More about the transformer *)

Module RecordFacts.

Import JS Spec TransformFacts.

Lemma or_else_nonempty (o : option string) (d : string) :
  d <> "" -> or_else o d <> "".
Proof.
  intros Hd. unfold or_else. destruct o as [s|]; [|exact Hd].
  destruct (String.eqb_spec s ""); [exact Hd | assumption].
Qed.

Lemma top_levels_stamp (ts : string) (entries : list PriceSize) :
  forall idx acc out,
    YesSave.top_levels ts entries idx acc = Ok out ->
    Forall (fun lv => timestamp lv = ts) out.
Proof.
  induction entries as [|entry rest IH]; intros idx acc out H; cbn in H.
  - injection H as <-. constructor.
  - destruct (parseFloat (ps_size entry)) as [sz|]; cbn in H; [|discriminate].
    destruct (YesSave.top_levels ts rest (S idx) (Num.add acc sz)) as [more|] eqn:Hm;
      cbn in H; [|discriminate].
    injection H as <-. constructor; [reflexivity | eapply IH; exact Hm].
Qed.

Lemma add_nan_l (x : Num.number) : Num.add S754_nan x = S754_nan.
Proof. reflexivity. Qed.

Lemma add_nan_r (x : Num.number) : Num.add x S754_nan = S754_nan.
Proof. destruct x; reflexivity. Qed.

Lemma running_sums_nan (xs : list Num.number) :
  Forall (fun x => x = S754_nan) (running_sums S754_nan xs).
Proof.
  induction xs as [|x xs IH]; cbn; constructor; [reflexivity | exact IH].
Qed.

Lemma running_sums_poisoned (xs : list Num.number) :
  forall acc i j x,
    xs !! i = Some S754_nan -> (i <= j)%nat ->
    running_sums acc xs !! j = Some x -> x = S754_nan.
Proof.
  induction xs as [|y xs IH]; intros acc i j x Hi Hij Hj; [discriminate|].
  destruct i as [|i].
  - cbn in Hi. injection Hi as ->. cbn [running_sums] in Hj. rewrite add_nan_r in Hj.
    destruct j as [|j]; cbn in Hj.
    + injection Hj as <-. reflexivity.
    + pose proof (running_sums_nan xs) as Hall.
      rewrite List.Forall_forall in Hall. apply Hall.
      apply list_elem_of_In. eapply list_elem_of_lookup_2. exact Hj.
  - destruct j as [|j]; [lia|]. cbn in Hi, Hj.
    eapply (IH _ i j); [exact Hi | lia | exact Hj].
Qed.

Lemma mapM_lookup {A B : Type} (f : A -> result B) (l : list A) (out : list B) :
  mapM f l = Ok out ->
  forall i a, l !! i = Some a -> exists b, f a = Ok b /\ out !! i = Some b.
Proof.
  revert out. induction l as [|a0 l IH]; intros out H i a Hi; [discriminate|].
  cbn in H. destruct (f a0) as [b0|] eqn:Hf; cbn in H; [|discriminate].
  destruct (mapM f l) as [bs|] eqn:Hm; cbn in H; [|discriminate].
  injection H as <-. destruct i as [|i]; cbn in Hi.
  - injection Hi as <-. exists b0. split; [exact Hf | reflexivity].
  - destruct (IH bs eq_refl i a Hi) as (b & Hb & Hl). exists b. split; assumption.
Qed.

(** One side: a size that is not a number makes the cumulative field of its
    level and of every level after it ["NaN"]. *)
Lemma side_poisoned (ts : string) (feed : list value) (out : list OrderbookLevel)
    (i : nat) (bad : value) :
  Forall readable feed ->
  YesSave.top_levels ts (map entry_of (firstn 10 feed)) 0 Num.zero = Ok out ->
  firstn 10 feed !! i = Some bad -> level_size bad = Ok S754_nan ->
  forall j lv, (i <= j)%nat -> out !! j = Some lv -> cumulative lv = "NaN".
Proof.
  intros Hr Hout Hi Hbad j lv Hij Hj.
  apply top_levels_ok in Hout; [|apply Forall_take; exact Hr].
  destruct Hout as (sizes & Hsz & _ & _ & _ & _ & Hcum & _).
  destruct (mapM_lookup _ _ _ Hsz i bad Hi) as (b & Hb & Hl).
  rewrite Hbad in Hb. injection Hb as <-.
  assert (Hc : map cumulative out !! j = Some (cumulative lv)).
  { rewrite list_lookup_fmap, Hj. reflexivity. }
  rewrite Hcum, list_lookup_fmap in Hc.
  destruct (running_sums Num.zero sizes !! j) as [x|] eqn:Hx; [|discriminate].
  cbn in Hc. injection Hc as <-.
  rewrite (running_sums_poisoned sizes Num.zero i j x Hl Hij Hx). reflexivity.
Qed.

Lemma best_price_firstn (a b : list value) :
  firstn 10 a = firstn 10 b -> best_price a = best_price b.
Proof.
  destruct a as [|x a], b as [|y b]; cbn; intros H; try discriminate; [reflexivity|].
  injection H as -> _. reflexivity.
Qed.

End RecordFacts.

Module RecordProperties.

Import JS Spec TransformFacts RecordFacts.

(** X1. For a spot coin, one whose name starts with "@" as the message
    handlers require before they call the transformer, every record the
    transformer returns is for the coin of the call and carries one
    timestamp: [symbol] is the coin, [lastUpdate] and the [timestamp] of
    every bid and ask level are the time of the call; the mid price is never
    the empty string (a missing or empty cache entry gives "0"), and the
    display symbol is not empty.  The "@" matters: [allMidsCache] is a
    plain object, read as its own entry for the coin, and no property that
    a plain object inherits has a name that starts with "@". *)
Theorem record_identity_and_stamp
    (v : variant) (mapping mids : gmap string string) (now coin : string)
    (l2Data : value) (r : CoinOrderbook) :
  String.prefix "@" coin = true ->
  transformer v mapping mids now coin l2Data = Some r ->
  symbol r = coin /\ lastUpdate r = now /\
  Forall (fun lv => timestamp lv = now) (bids r ++ asks r) /\
  midPrice r <> "" /\
  (mids !! coin = None -> midPrice r = "0") /\
  displaySymbol r <> "".
Proof.
  intros Hat Hr. rewrite variants_agree in Hr. apply transform_inv in Hr.
  destruct Hr as (fb & fa & bb & ba & tb & ta & _ & _ & _ & _ & _ & _ & Htb & Hta & ->).
  cbn [symbol lastUpdate bids asks midPrice displaySymbol].
  split; [reflexivity|]. split; [reflexivity|]. split.
  - apply List.Forall_app. split; eapply top_levels_stamp; eassumption.
  - split; [apply or_else_nonempty; discriminate|].
    split; [intros ->; reflexivity|].
    apply or_else_nonempty. intros ->. discriminate Hat.
Qed.

(** The witness of X1, in both variants. *)
Lemma record_identity_and_stamp_witness :
  (exists r,
     transformer ModeA ∅ ∅ Examples.stamp "@1" Examples.example_snapshot = Some r /\
     symbol r = "@1" /\ lastUpdate r = Examples.stamp /\
     Forall (fun lv => timestamp lv = Examples.stamp) (bids r ++ asks r) /\
     midPrice r <> "" /\
     ((∅ : gmap string string) !! "@1" = None -> midPrice r = "0") /\
     displaySymbol r <> "") /\
  (exists r,
     transformer ModeB ∅ ∅ Examples.stamp "@1" Examples.example_snapshot = Some r /\
     symbol r = "@1" /\ lastUpdate r = Examples.stamp /\
     Forall (fun lv => timestamp lv = Examples.stamp) (bids r ++ asks r) /\
     midPrice r <> "" /\
     ((∅ : gmap string string) !! "@1" = None -> midPrice r = "0") /\
     displaySymbol r <> "").
Proof.
  split.
  - eexists. split; [vm_compute; reflexivity|].
    apply (record_identity_and_stamp ModeA ∅ ∅ Examples.stamp "@1" Examples.example_snapshot).
    + vm_compute. reflexivity.
    + vm_compute. reflexivity.
  - eexists. split; [vm_compute; reflexivity|].
    apply (record_identity_and_stamp ModeB ∅ ∅ Examples.stamp "@1" Examples.example_snapshot).
    + vm_compute. reflexivity.
    + vm_compute. reflexivity.
Defined.

(** X2. The record depends on the first ten levels of each side only: a
    second snapshot whose sides start with the same ten levels, and whose
    deeper entries can be read (none is [null]), gives the same record. *)
Theorem deeper_levels_ignored
    (v : variant) (mapping mids : gmap string string) (now coin : string)
    (d d' : value) (fb fa fb' fa' : list value) (r : CoinOrderbook) :
  feed_side d 0 = Some fb -> feed_side d 1 = Some fa ->
  feed_side d' 0 = Some fb' -> feed_side d' 1 = Some fa' ->
  firstn 10 fb' = firstn 10 fb -> firstn 10 fa' = firstn 10 fa ->
  Forall readable fb' -> Forall readable fa' ->
  transformer v mapping mids now coin d = Some r ->
  transformer v mapping mids now coin d' = Some r.
Proof.
  intros H0 H1 H0' H1' Eb Ea Rb Ra Hr. rewrite variants_agree in *.
  apply transform_inv in Hr.
  destruct Hr as (gb & ga & bb & ba & tb & ta & G0 & G1 & _ & _ & Bb & Ba & Htb & Hta & ->).
  rewrite H0 in G0. rewrite H1 in G1. injection G0 as <-. injection G1 as <-.
  apply (transform_intro mapping mids now coin d' fb' fa' bb ba tb ta); try assumption.
  - rewrite (best_price_firstn fb' fb Eb). exact Bb.
  - rewrite (best_price_firstn fa' fa Ea). exact Ba.
  - rewrite Eb. exact Htb.
  - rewrite Ea. exact Hta.
Qed.

(** The witness of X2. *)
Lemma deeper_levels_ignored_witness :
  exists r,
    transformer ModeB ∅ ∅ Examples.stamp "@1" Samples.deep_snapshot = Some r /\
    transformer ModeB ∅ ∅ Examples.stamp "@1" Samples.deep_snapshot' = Some r.
Proof.
  eexists. split; [vm_compute; reflexivity|].
  apply (deeper_levels_ignored ModeB ∅ ∅ Examples.stamp "@1"
           Samples.deep_snapshot Samples.deep_snapshot'
           (Samples.ladder 10 ++ [Examples.raw_level "99.00" "5"])%list []
           (Samples.ladder 10 ++
            [Examples.raw_level "98.00" "7"; Examples.raw_level "abc" "x"])%list []).
  - reflexivity.
  - reflexivity.
  - reflexivity.
  - reflexivity.
  - reflexivity.
  - reflexivity.
  - repeat first [apply List.Forall_nil | apply List.Forall_cons]; split; discriminate.
  - apply List.Forall_nil.
  - vm_compute. reflexivity.
Defined.

(** X3. A size that is not a number spoils the rest of its side: when the
    size of one of the first ten levels of a side parses to NaN, the
    cumulative field of that level and of every level after it on that side
    is the string "NaN". *)
Theorem non_numeric_size_poisons_cumulative
    (v : variant) (mapping mids : gmap string string) (now coin : string)
    (l2Data : value) (fb fa : list value) (r : CoinOrderbook)
    (i : nat) (bad : value) :
  transformer v mapping mids now coin l2Data = Some r ->
  feed_side l2Data 0 = Some fb -> feed_side l2Data 1 = Some fa ->
  (i < 10)%nat -> level_size bad = Ok S754_nan ->
  (fb !! i = Some bad ->
   forall j lv, (i <= j)%nat -> bids r !! j = Some lv -> cumulative lv = "NaN") /\
  (fa !! i = Some bad ->
   forall j lv, (i <= j)%nat -> asks r !! j = Some lv -> cumulative lv = "NaN").
Proof.
  intros Hr H0 H1 Hi Hbad. rewrite variants_agree in Hr. apply transform_inv in Hr.
  destruct Hr as (gb & ga & bb & ba & tb & ta & G0 & G1 & Rb & Ra & _ & _ & Htb & Hta & ->).
  rewrite H0 in G0. rewrite H1 in G1. injection G0 as <-. injection G1 as <-.
  cbn [bids asks]. split; intros Hl j lv Hij Hj.
  - eapply (side_poisoned now fb tb i bad); try eassumption.
    rewrite lookup_take_lt; assumption.
  - eapply (side_poisoned now fa ta i bad); try eassumption.
    rewrite lookup_take_lt; assumption.
Qed.

(** The witness of X3. *)
Lemma non_numeric_size_poisons_cumulative_witness :
  exists r,
    transformer ModeB ∅ ∅ Examples.stamp "@1" Samples.poisoned_snapshot = Some r /\
    forall j lv, (1 <= j)%nat -> bids r !! j = Some lv -> cumulative lv = "NaN".
Proof.
  eexists. split; [vm_compute; reflexivity|].
  apply (non_numeric_size_poisons_cumulative ModeB ∅ ∅ Examples.stamp "@1"
           Samples.poisoned_snapshot Samples.poisoned_bids [] _ 1
           (Examples.raw_level "99.00" "n/a")).
  - vm_compute. reflexivity.
  - reflexivity.
  - reflexivity.
  - lia.
  - vm_compute. reflexivity.
  - reflexivity.
Defined.

End RecordProperties.

(** ** The spot metadata *)

Module MetadataFacts.

Import JS Metadata.

Lemma occurs_app (c : ascii) (s t : string) :
  Text.occurs c (s +:+ t) = Text.occurs c s || Text.occurs c t.
Proof.
  induction s as [|a s IH]; simpl; [reflexivity|].
  rewrite IH. now rewrite orb_assoc.
Qed.

Lemma occurs_nonempty (c : ascii) (s : string) : Text.occurs c s = true -> s <> "".
Proof. intros H ->. discriminate. Qed.

(** What the callback of the second loop has read when it does not throw. *)
Lemma pair_entry_name (tokenMap : list (value * value)) (p : value)
    (e : option (string * option string)) :
  pair_entry tokenMap p = Ok e ->
  exists n, pair_name p = Some n /\
    ((String.prefix "@" n = true /\ exists o, e = Some (n, o)) \/
     (String.prefix "@" n = false /\ e = None)).
Proof.
  unfold pair_entry, pair_name. intros H.
  destruct (Get p "name") as [nm|]; cbn in H; [|discriminate].
  destruct nm as [| | | |n| |]; cbn in H; try discriminate.
  exists n. split; [reflexivity|].
  destruct (String.prefix "@" n) eqn:Hp.
  - left. split; [reflexivity|].
    destruct (Get p "tokens") as [tk|]; cbn in H; [|discriminate].
    destruct (array_map tk (token_name tokenMap)) as [names|]; cbn in H; [|discriminate].
    destruct names as [|a [|b [|c rest]]]; try (injection H as <-; eexists; reflexivity).
    destruct (ToString a) as [sa|]; cbn in H; [|discriminate].
    destruct (ToString b) as [sb|]; cbn in H; [|discriminate].
    injection H as <-. eexists. reflexivity.
  - right. split; [reflexivity|]. injection H as <-. reflexivity.
Qed.

Lemma pair_entry_throw (tokenMap : list (value * value)) (p : value) :
  (forall s, Get p "name" <> Ok (VStr s)) -> pair_entry tokenMap p = Throw TypeError.
Proof.
  intros H. unfold pair_entry.
  destruct (Get p "name") as [nm|[]]; cbn; [|reflexivity].
  destruct nm; cbn; try reflexivity. exfalso. eapply H. reflexivity.
Qed.

Lemma pair_entry_display (tokenMap : list (value * value)) (p : value) (n d : string) :
  pair_entry tokenMap p = Ok (Some (n, Some d)) -> Text.occurs "-" d = true.
Proof.
  unfold pair_entry. intros H.
  destruct (Get p "name") as [nm|]; cbn in H; [|discriminate].
  destruct (string_receiver nm) as [s|]; cbn in H; [|discriminate].
  destruct (String.prefix "@" s); [|discriminate].
  destruct (Get p "tokens") as [tk|]; cbn in H; [|discriminate].
  destruct (array_map tk (token_name tokenMap)) as [names|]; cbn in H; [|discriminate].
  destruct names as [|a [|b [|c rest]]]; try discriminate.
  destruct (ToString a) as [sa|]; cbn in H; [|discriminate].
  destruct (ToString b) as [sb|]; cbn in H; [|discriminate].
  injection H as _ <-. rewrite !occurs_app. cbn. apply orb_true_r.
Qed.

(** One callback that throws ends the loop with an exception. *)
Lemma load_universe_throw (tokenMap : list (value * value)) (before after : list value)
    (bad : value) (e : exn) :
  pair_entry tokenMap bad = Throw e ->
  forall g acc, exists e', snd (load_universe tokenMap (before ++ bad :: after) g acc) = Throw e'.
Proof.
  intros Hbad. induction before as [|p before IH]; intros g acc; cbn.
  - rewrite Hbad. exists e. reflexivity.
  - destruct (pair_entry tokenMap p) as [[[n [d|]]|]|e0]; try apply IH.
    exists e0. reflexivity.
Qed.

Lemma load_universe_coins (tokenMap : list (value * value)) (pairs : list value) :
  Forall (fun p => exists e, pair_entry tokenMap p = Ok e) pairs ->
  forall g acc, snd (load_universe tokenMap pairs g acc) = Ok (acc ++ spot_names pairs)%list.
Proof.
  induction 1 as [|p pairs [e He] _ IH]; intros g acc; cbn.
  - unfold spot_names. cbn. rewrite app_nil_r. reflexivity.
  - rewrite He.
    destruct (pair_entry_name _ _ _ He) as (n & Hn & [[Hp [o ->]]|[Hp ->]]);
      unfold spot_names; cbn; rewrite Hn; cbn; rewrite Hp.
    + destruct o as [d|]; rewrite IH, <- app_assoc; reflexivity.
    + apply IH.
Qed.

(** The coins collected extend the list the loop starts with. *)
Lemma load_universe_extends (tokenMap : list (value * value)) (pairs : list value) :
  forall g acc g' coins,
    load_universe tokenMap pairs g acc = (g', Ok coins) ->
    exists more, coins = (acc ++ more)%list /\ Forall (fun n => String.prefix "@" n = true) more.
Proof.
  induction pairs as [|p pairs IH]; intros g acc g' coins H; cbn in H.
  - injection H as _ <-. exists []. rewrite app_nil_r. split; [reflexivity | constructor].
  - destruct (pair_entry tokenMap p) as [e|e0] eqn:He; [|discriminate].
    destruct (pair_entry_name _ _ _ He) as (n & Hn & [[Hp [o ->]]|[Hp ->]]).
    + assert (Hgen : exists g1, load_universe tokenMap pairs g1 (acc ++ [n]) = (g', Ok coins)).
      { destruct o; eexists; exact H. }
      destruct Hgen as [g1 H1]. destruct (IH _ _ _ _ H1) as (more & -> & Hm).
      exists (n :: more). rewrite <- app_assoc. split; [reflexivity|].
      constructor; assumption.
    + eapply IH. exact H.
Qed.

Lemma well_formed_empty : well_formed empty_registry.
Proof. split; intros ? ? H; cbn in H; rewrite lookup_empty in H; discriminate. Qed.

Lemma well_formed_set (g : registry) (n d : string) :
  well_formed g -> String.prefix "@" n = true -> Text.occurs "-" d = true ->
  well_formed {| spotSymbolMapping := <[n := d]> (spotSymbolMapping g);
                 reverseLookup := <[d := n]> (reverseLookup g) |}.
Proof.
  intros [Hm Hr] Hn Hd. split; cbn.
  - intros n' d' H. destruct (decide (n = n')) as [<-|Hne].
    + rewrite lookup_insert_eq in H. injection H as <-. split; assumption.
    + rewrite lookup_insert_ne in H by assumption. eapply Hm. exact H.
  - intros d' n' H. destruct (decide (d = d')) as [<-|Hne].
    + rewrite lookup_insert_eq in H. injection H as <-.
      split; [assumption|]. split; [assumption|].
      rewrite lookup_insert_eq. eexists. reflexivity.
    + rewrite lookup_insert_ne in H by assumption.
      destruct (Hr _ _ H) as (H1 & H2 & H3). split; [assumption|]. split; [assumption|].
      destruct (decide (n = n')) as [<-|Hne'].
      * rewrite lookup_insert_eq. eexists. reflexivity.
      * rewrite lookup_insert_ne by assumption. exact H3.
Qed.

Lemma load_universe_well_formed (tokenMap : list (value * value)) (pairs : list value) :
  forall g acc, well_formed g -> well_formed (fst (load_universe tokenMap pairs g acc)).
Proof.
  induction pairs as [|p pairs IH]; intros g acc Hg; cbn; [exact Hg|].
  destruct (pair_entry tokenMap p) as [e|e0] eqn:He; [|exact Hg].
  destruct (pair_entry_name _ _ _ He) as (n & Hn & [[Hp [o ->]]|[Hp ->]]).
  - destruct o as [d|]; apply IH; [|exact Hg].
    apply well_formed_set; [exact Hg | exact Hp | eapply pair_entry_display; exact He].
  - apply IH. exact Hg.
Qed.

Lemma init_well_formed (response : option value) (g : registry) :
  well_formed g -> well_formed (fst (initSpotMetadata response g)).
Proof.
  intros Hg. unfold initSpotMetadata. destruct response as [md|]; [|exact Hg].
  destruct (read_metadata md) as [[tokenMap pairs]|]; [|exact Hg].
  pose proof (load_universe_well_formed tokenMap pairs g [] Hg) as H.
  destruct (load_universe tokenMap pairs g []) as [g' [coins|]]; exact H.
Qed.

Lemma init_prefixed (response : option value) (g : registry) :
  Forall (fun n => String.prefix "@" n = true) (snd (initSpotMetadata response g)).
Proof.
  unfold initSpotMetadata. destruct response as [md|]; [|constructor].
  destruct (read_metadata md) as [[tokenMap pairs]|]; [|constructor].
  destruct (load_universe tokenMap pairs g []) as [g' [coins|]] eqn:H; [|constructor].
  destruct (load_universe_extends _ _ _ _ _ _ H) as (more & -> & Hm). exact Hm.
Qed.

Lemma load_universe_inverse (tokenMap : list (value * value)) (pairs : list value) :
  forall g acc g' coins,
    load_universe tokenMap pairs g acc = (g', Ok coins) ->
    NoDup coins -> inverse_on g acc -> inverse_on g' coins.
Proof.
  induction pairs as [|p pairs IH]; intros g acc g' coins H Hnd Hinv; cbn in H.
  - injection H as <- <-. exact Hinv.
  - destruct (pair_entry tokenMap p) as [e|e0] eqn:He; [|discriminate].
    destruct e as [[n [d|]]|].
    + destruct (load_universe_extends _ _ _ _ _ _ H) as (more & Hc & _).
      assert (Hfresh : n ∉ acc).
      { intros Hin. rewrite Hc in Hnd.
        apply NoDup_app in Hnd as (Hnd & _ & _).
        apply NoDup_app in Hnd as (_ & Hnd & _).
        apply (Hnd n Hin). apply list_elem_of_here. }
      eapply IH; [exact H | exact Hnd |].
      destruct Hinv as [Hrev Hdom]. split; cbn.
      * intros d' n' Hl. destruct (decide (d = d')) as [<-|Hne].
        -- rewrite lookup_insert_eq in Hl. injection Hl as <-. apply lookup_insert_eq.
        -- rewrite lookup_insert_ne in Hl by assumption.
           pose proof (Hrev _ _ Hl) as Hm.
           destruct (decide (n = n')) as [<-|Hne'].
           ++ exfalso. apply Hfresh. apply Hdom. eexists. exact Hm.
           ++ rewrite lookup_insert_ne by assumption. exact Hm.
      * intros n' Hs. apply elem_of_app. destruct (decide (n = n')) as [<-|Hne'].
        -- right. apply list_elem_of_here.
        -- left. apply Hdom. rewrite lookup_insert_ne in Hs by assumption. exact Hs.
    + eapply IH; [exact H | exact Hnd |].
      destruct Hinv as [Hrev Hdom]. split; [exact Hrev|].
      intros n' Hs. apply elem_of_app. left. apply Hdom. exact Hs.
    + eapply IH; eassumption.
Qed.

End MetadataFacts.

Module MetadataProperties.

Import JS Metadata MetadataFacts.

Lemma load_tokens_plain (tokens : list value) :
  Forall plain_token tokens ->
  forall acc, Forall (fun entry => exists s, snd entry = VStr s) acc ->
    exists tokenMap, load_tokens tokens acc = Ok tokenMap /\
                     Forall (fun entry => exists s, snd entry = VStr s) tokenMap.
Proof.
  induction 1 as [|t tokens (i & s & Hi & Hs) _ IH]; intros acc Hacc; cbn.
  - exists acc. split; [reflexivity | exact Hacc].
  - rewrite Hi, Hs. cbn. apply IH. constructor; [|exact Hacc]. exists s. reflexivity.
Qed.

Lemma tokenMap_get_plain (tokenMap : list (value * value)) (key : value) :
  Forall (fun entry => exists s, snd entry = VStr s) tokenMap ->
  tokenMap_get tokenMap key = VUndefined \/ exists s, tokenMap_get tokenMap key = VStr s.
Proof.
  intros H. unfold tokenMap_get.
  destruct (find _ tokenMap) as [entry|] eqn:Hf; [|left; reflexivity].
  right. apply find_some in Hf as [Hin _].
  rewrite List.Forall_forall in H. exact (H _ Hin).
Qed.

Lemma token_names_plain (tokenMap : list (value * value)) (indices : list Num.number) :
  Forall (fun entry => exists s, snd entry = VStr s) tokenMap ->
  exists names, mapM (token_name tokenMap) (map VNum indices) = Ok names /\
                length names = length indices /\
                Forall (fun v => exists s, v = VStr s) names.
Proof.
  intros H. induction indices as [|i indices (names & Hn & Hl & Hs)]; cbn.
  - exists []. repeat split. constructor.
  - unfold token_name at 1.
    destruct (tokenMap_get_plain tokenMap (VNum i) H) as [->|[s ->]]; cbn.
    + rewrite Hn. cbn. eexists. split; [reflexivity|]. split; [cbn; lia|].
      constructor; [eexists; reflexivity | exact Hs].
    + destruct (negb (String.eqb s "")); cbn; rewrite Hn; cbn;
        (eexists; split; [reflexivity|]; split; [cbn; lia|];
         constructor; [eexists; reflexivity | exact Hs]).
Qed.

Lemma plain_pair_entry (tokenMap : list (value * value)) (p : value) :
  Forall (fun entry => exists s, snd entry = VStr s) tokenMap ->
  plain_pair p -> exists e, pair_entry tokenMap p = Ok e.
Proof.
  intros Htm (name & indices & Hn & Ht). unfold pair_entry. rewrite Hn. cbn.
  destruct (String.prefix "@" name); [|eexists; reflexivity].
  rewrite Ht. cbn.
  destruct (token_names_plain tokenMap indices Htm) as (names & -> & _ & Hs). cbn.
  destruct names as [|a [|b [|c rest]]]; try (eexists; reflexivity).
  apply Forall_cons in Hs as [[sa ->] Hs]. apply Forall_cons in Hs as [[sb ->] _].
  cbn. eexists. reflexivity.
Qed.

(** X4. For metadata of the documented shape (tokens with a numeric index
    and a string name, pairs with a string name and numeric token indices)
    the loader does not fail and returns exactly the pair names that start
    with [@], in the order of the universe, repeated names included. *)
Theorem spot_coins_selected
    (spotMetadata : value) (tokens universe : list value) (g : registry) :
  Get spotMetadata "tokens" = Ok (VArr tokens) ->
  Get spotMetadata "universe" = Ok (VArr universe) ->
  Forall plain_token tokens -> Forall plain_pair universe ->
  snd (initSpotMetadata (Some spotMetadata) g) = spot_names universe.
Proof.
  intros Ht Hu Hts Hps. unfold initSpotMetadata, read_metadata.
  rewrite Ht. cbn.
  destruct (load_tokens_plain tokens Hts [] (List.Forall_nil _)) as (tokenMap & -> & Htm).
  cbn. rewrite Hu. cbn.
  assert (Hok : Forall (fun p => exists e, pair_entry tokenMap p = Ok e) universe).
  { eapply Forall_impl; [exact Hps|]. intros p Hp. apply plain_pair_entry; assumption. }
  pose proof (load_universe_coins tokenMap universe Hok g []) as Hc.
  destruct (load_universe tokenMap universe g []) as [g' [coins|]]; cbn in Hc.
  - injection Hc as ->. reflexivity.
  - discriminate.
Qed.

(** The witness of X4. *)
Lemma spot_coins_selected_witness :
  snd (initSpotMetadata (Some Samples.example_metadata) empty_registry)
  = spot_names Samples.example_universe.
Proof.
  apply (spot_coins_selected Samples.example_metadata Samples.example_tokens
           Samples.example_universe empty_registry).
  - reflexivity.
  - reflexivity.
  - repeat first [apply List.Forall_nil | apply List.Forall_cons];
      eexists; eexists; split; reflexivity.
  - repeat first [apply List.Forall_nil | apply List.Forall_cons].
    + exists "PURR/USDC", [Num.of_Z 1; Num.of_Z 0]. split; reflexivity.
    + exists "@1", [Num.of_Z 2; Num.of_Z 0]. split; reflexivity.
    + exists "@2", [Num.of_Z 1; Num.of_Z 7]. split; reflexivity.
Defined.

(** X5. One pair whose name is not a string, anywhere in the universe, makes
    the loader return the empty list, whatever the other pairs are, and the
    start-up function then returns without connecting. *)
Theorem malformed_pair_stops_collector
    (spotMetadata : value) (before after : list value) (bad : value)
    (g : registry) (midPrices : option (gmap string string)) :
  Get spotMetadata "universe" = Ok (VArr (before ++ bad :: after)) ->
  (forall s, Get bad "name" <> Ok (VStr s)) ->
  snd (initSpotMetadata (Some spotMetadata) g) = [] /\
  runWebSocketCollector (Some spotMetadata) midPrices = None.
Proof.
  intros Hu Hbad.
  assert (Hany : forall g0, snd (initSpotMetadata (Some spotMetadata) g0) = []).
  { intros g0. unfold initSpotMetadata, read_metadata.
    destruct (Get spotMetadata "tokens") as [tk|]; cbn; [|reflexivity].
    destruct (array_elements tk) as [tl|]; cbn; [|reflexivity].
    destruct (load_tokens tl []) as [tokenMap|]; cbn; [|reflexivity].
    rewrite Hu. cbn.
    destruct (load_universe_throw tokenMap before after bad TypeError
                (pair_entry_throw tokenMap bad Hbad) g0 []) as [e' He'].
    destruct (load_universe tokenMap (before ++ bad :: after) g0 []) as [g' [coins|]];
      cbn in He'; [discriminate | reflexivity]. }
  split; [apply Hany|].
  unfold runWebSocketCollector. specialize (Hany empty_registry).
  destruct (initSpotMetadata (Some spotMetadata) empty_registry) as [g' coins].
  cbn in Hany. rewrite Hany. reflexivity.
Qed.

(** The witness of X5. *)
Lemma malformed_pair_stops_collector_witness :
  snd (initSpotMetadata (Some Samples.broken_metadata) empty_registry) = [] /\
  runWebSocketCollector (Some Samples.broken_metadata) None = None.
Proof.
  apply (malformed_pair_stops_collector Samples.broken_metadata
           [Samples.spot_pair "@1" [2; 0]%Z] [Samples.spot_pair "@2" [1; 7]%Z]
           (VObj [("name", VNum (Num.of_Z 5))])).
  - reflexivity.
  - intros s. vm_compute. discriminate.
Defined.

(** X6. Whatever the response is, and also when loading fails half-way, the
    maps filled from empty ones hold only keys that start with [@] and
    display names that contain a hyphen (so none is empty), and every name
    the reverse map gives is a key of the forward map. *)
Theorem registry_entries_well_formed (response : option value) (n d : string) :
  (spotSymbolMapping (fst (initSpotMetadata response empty_registry)) !! n = Some d ->
   String.prefix "@" n = true /\ Text.occurs "-" d = true /\ d <> "") /\
  (reverseLookup (fst (initSpotMetadata response empty_registry)) !! d = Some n ->
   String.prefix "@" n = true /\ Text.occurs "-" d = true /\
   is_Some (spotSymbolMapping (fst (initSpotMetadata response empty_registry)) !! n)).
Proof.
  destruct (init_well_formed response empty_registry well_formed_empty) as [Hm Hr].
  split; intros H.
  - destruct (Hm _ _ H) as [H1 H2]. split; [assumption|]. split; [assumption|].
    eapply occurs_nonempty. exact H2.
  - exact (Hr _ _ H).
Qed.

(** The witness of X6. *)
Lemma registry_entries_well_formed_witness :
  String.prefix "@" "@2" = true /\ Text.occurs "-" "PURR-Token7" = true /\
  "PURR-Token7" <> "".
Proof.
  apply (registry_entries_well_formed (Some Samples.example_metadata) "@2" "PURR-Token7").
  vm_compute. reflexivity.
Defined.

(** X7. When loading succeeds with pairwise distinct spot names, the reverse
    map inverts the forward map: a display name leads back to a coin whose
    display name it is. *)
Theorem reverse_lookup_inverts
    (spotMetadata : value) (g : registry) (coins : list string) (d n : string) :
  initSpotMetadata (Some spotMetadata) empty_registry = (g, coins) ->
  coins <> [] -> NoDup coins ->
  reverseLookup g !! d = Some n -> spotSymbolMapping g !! n = Some d.
Proof.
  unfold initSpotMetadata. intros H Hne Hnd Hl.
  destruct (read_metadata spotMetadata) as [[tokenMap pairs]|];
    [|injection H as _ <-; contradiction].
  destruct (load_universe tokenMap pairs empty_registry []) as [g' [cs|]] eqn:Hu;
    [|injection H as _ <-; contradiction].
  injection H as -> ->.
  assert (Hinv : inverse_on empty_registry []).
  { split; cbn.
    - intros ? ? H0. rewrite lookup_empty in H0. discriminate.
    - intros ? [? H0]. rewrite lookup_empty in H0. discriminate. }
  destruct (load_universe_inverse _ _ _ _ _ _ Hu Hnd Hinv) as [Hrev _].
  exact (Hrev _ _ Hl).
Qed.

(** The witness of X7. *)
Lemma reverse_lookup_inverts_witness :
  spotSymbolMapping (fst (initSpotMetadata (Some Samples.example_metadata) empty_registry))
    !! "@1" = Some "HFUN-USDC".
Proof.
  apply (reverse_lookup_inverts Samples.example_metadata _ ["@1"; "@2"]).
  - vm_compute. reflexivity.
  - discriminate.
  - apply NoDup_cons. split; [|apply NoDup_cons; split; [|apply NoDup_nil; exact I]].
    + intros H. apply list_elem_of_In in H. destruct H as [H|[]]. discriminate.
    + intros H. apply list_elem_of_In in H. destruct H.
  - vm_compute. reflexivity.
Defined.

(** X8. Every coin the collector subscribes to starts with [@], so the
    message handlers of both variants pass every l2Book message for such a
    coin on to the transformer, with the coin and the payload. *)
Theorem subscribed_coins_accepted
    (response : option value) (midPrices : option (gmap string string))
    (s : session) (coin : string) (message data : value) :
  runWebSocketCollector response midPrices = Some s ->
  In coin (spotCoins s) ->
  Get message "channel" = Ok (VStr "l2Book") ->
  Get message "data" = Ok data ->
  Get data "coin" = Ok (VStr coin) ->
  In (subscription coin) (on_open (spotCoins s)) /\
  String.prefix "@" coin = true /\
  NoSave.accept message = Ok (Some (coin, data)) /\
  YesSave.accept message = Ok (Some (coin, data)).
Proof.
  intros Hs Hin Hc Hd Hcoin.
  assert (Hp : String.prefix "@" coin = true).
  { unfold runWebSocketCollector in Hs.
    pose proof (init_prefixed response empty_registry) as Hall.
    destruct (initSpotMetadata response empty_registry) as [g coins]. cbn in Hall.
    destruct coins as [|c cs]; [discriminate|]. injection Hs as <-. cbn in Hin.
    rewrite List.Forall_forall in Hall. exact (Hall _ Hin). }
  assert (Ht : truthy data = true).
  { destruct data; try reflexivity; cbn in Hcoin; discriminate. }
  split; [apply in_map; exact Hin|]. split; [exact Hp|].
  unfold NoSave.accept, YesSave.accept. rewrite Hc, Hd. cbn. rewrite Ht, Hcoin. cbn.
  rewrite Hp. cbn. split; reflexivity.
Qed.

(** The witness of X8. *)
Lemma subscribed_coins_accepted_witness :
  In (subscription "@1") (on_open ["@1"; "@2"]) /\
  String.prefix "@" "@1" = true /\
  NoSave.accept Examples.example_message = Ok (Some ("@1", Examples.example_snapshot)) /\
  YesSave.accept Examples.example_message = Ok (Some ("@1", Examples.example_snapshot)).
Proof.
  apply (subscribed_coins_accepted (Some Samples.example_metadata) None
           {| maps := fst (initSpotMetadata (Some Samples.example_metadata) empty_registry);
              mids := ∅; spotCoins := ["@1"; "@2"] |}
           "@1" Examples.example_message Examples.example_snapshot).
  - vm_compute. reflexivity.
  - left. reflexivity.
  - reflexivity.
  - reflexivity.
  - reflexivity.
Defined.

End MetadataProperties.

(** ** The cache of mode A and the counters of mode B *)

Module HandlerFacts.

Import JS Spec TransformFacts.

Lemma transformer_A_B : NoSave.processOrderbookData = YesSave.processOrderbookData.
Proof. exact (variants_agree ModeA). Qed.

Lemma transform_symbol (mapping mids : gmap string string) (now coin : string)
    (d : value) (r : CoinOrderbook) :
  YesSave.processOrderbookData mapping mids now coin d = Some r ->
  symbol r = coin /\ displaySymbol r = or_else (mapping !! coin) coin.
Proof.
  intros H. apply transform_inv in H.
  destruct H as (? & ? & ? & ? & ? & ? & _ & _ & _ & _ & _ & _ & _ & _ & ->).
  split; reflexivity.
Qed.

Lemma accept_prefix (message : value) (coin : string) (payload : value) :
  YesSave.accept message = Ok (Some (coin, payload)) -> String.prefix "@" coin = true.
Proof.
  unfold YesSave.accept. intros H.
  destruct (Get message "channel") as [ch|]; cbn in H; [|discriminate].
  destruct (strict_eq_string ch "l2Book"); [|discriminate].
  destruct (Get message "data") as [d|]; cbn in H; [|discriminate].
  destruct (truthy d); [|discriminate].
  destruct (Get d "coin") as [c|]; cbn in H; [|discriminate].
  destruct (string_receiver c) as [s|]; cbn in H; [|discriminate].
  destruct (String.prefix "@" s) eqn:Hp; cbn in H; [|discriminate].
  injection H as <- _. exact Hp.
Qed.

(** What the handler of mode A does with one message. *)
Lemma on_message_A_cases (mapping : gmap string string) (now : string)
    (data : option value) (st : NoSave.state) :
  NoSave.on_message mapping now data st = st \/
  exists message coin payload,
    data = Some message /\ NoSave.accept message = Ok (Some (coin, payload)) /\
    String.prefix "@" coin = true /\
    ((NoSave.processOrderbookData mapping (NoSave.allMidsCache st) now coin payload = None /\
      NoSave.on_message mapping now data st = counted_A st) \/
     (exists r,
        NoSave.processOrderbookData mapping (NoSave.allMidsCache st) now coin payload = Some r /\
        symbol r = coin /\
        NoSave.on_message mapping now data st =
        {| NoSave.allMidsCache := NoSave.allMidsCache st;
           NoSave.processCount := S (NoSave.processCount st);
           NoSave.latestOrderbooks := <[coin := r]> (NoSave.latestOrderbooks st) |})).
Proof.
  destruct data as [message|]; [|left; reflexivity]. cbn.
  destruct (NoSave.accept message) as [[[coin payload]|]|] eqn:Ha;
    [|left; reflexivity|left; reflexivity].
  right. exists message, coin, payload. split; [reflexivity|]. split; [exact Ha|].
  split; [apply (accept_prefix message coin payload); exact Ha|].
  destruct (NoSave.processOrderbookData mapping (NoSave.allMidsCache st) now coin payload)
    as [r|] eqn:Hr.
  - right. exists r. split; [reflexivity|].
    assert (Hs : symbol r = coin).
    { rewrite transformer_A_B in Hr. apply (transform_symbol _ _ _ _ _ _ Hr). }
    split; [exact Hs|]. rewrite Hs. reflexivity.
  - left. split; reflexivity.
Qed.

(** What the handler of mode B does with one message. *)
Lemma on_message_B_cases (mapping : gmap string string) (now : string)
    (data : option value) (st : YesSave.state) :
  YesSave.on_message mapping now data st = st \/
  exists message coin payload,
    data = Some message /\ YesSave.accept message = Ok (Some (coin, payload)) /\
    String.prefix "@" coin = true /\
    ((YesSave.processOrderbookData mapping (YesSave.allMidsCache st) now coin payload = None /\
      YesSave.on_message mapping now data st = counted_B st) \/
     (exists r,
        YesSave.processOrderbookData mapping (YesSave.allMidsCache st) now coin payload = Some r /\
        symbol r = coin /\ displaySymbol r = or_else (mapping !! coin) coin /\
        YesSave.on_message mapping now data st =
        {| YesSave.isRunning := YesSave.isRunning st;
           YesSave.exited := YesSave.exited st;
           YesSave.allMidsCache := YesSave.allMidsCache st;
           YesSave.updateCount := S (YesSave.updateCount st);
           YesSave.processCount := S (YesSave.processCount st);
           YesSave.updatedCoins := {[displaySymbol r]} ∪ YesSave.updatedCoins st;
           YesSave.saveQueue := <[YesSave.promises st := r]> (YesSave.saveQueue st);
           YesSave.promises := S (YesSave.promises st);
           YesSave.shutdowns := YesSave.shutdowns st |})).
Proof.
  destruct data as [message|]; [|left; reflexivity]. cbn.
  destruct (YesSave.accept message) as [[[coin payload]|]|] eqn:Ha;
    [|left; reflexivity|left; reflexivity].
  right. exists message, coin, payload. split; [reflexivity|]. split; [exact Ha|].
  split; [apply (accept_prefix message coin payload); exact Ha|].
  destruct (YesSave.processOrderbookData mapping (YesSave.allMidsCache st) now coin payload)
    as [r|] eqn:Hr.
  - right. exists r. split; [reflexivity|].
    destruct (transform_symbol _ _ _ _ _ _ Hr) as [Hs Hd].
    split; [exact Hs|]. split; [exact Hd|].
    unfold YesSave.Promise_race_dropped.
    match goal with |- (if ?c then _ else _) = _ => destruct c end; reflexivity.
  - left. split; reflexivity.
Qed.

Lemma run_A_app (mapping : gmap string string) (a b : list (string * option value))
    (st : NoSave.state) :
  NoSave.run mapping (a ++ b) st = NoSave.run mapping b (NoSave.run mapping a st).
Proof. apply fold_left_app. Qed.

Lemma run_B_app (mapping : gmap string string) (a b : list YesSave.event)
    (st : YesSave.state) :
  YesSave.run mapping (a ++ b) st = YesSave.run mapping b (YesSave.run mapping a st).
Proof. apply fold_left_app. Qed.

Lemma mids_A_constant (mapping : gmap string string) (msgs : list (string * option value)) :
  forall st, NoSave.allMidsCache (NoSave.run mapping msgs st) = NoSave.allMidsCache st.
Proof.
  induction msgs as [|[now data] msgs IH]; intros st; [reflexivity|].
  change (NoSave.run mapping ((now, data) :: msgs) st)
    with (NoSave.run mapping msgs (NoSave.on_message mapping now data st)).
  rewrite IH.
  destruct (on_message_A_cases mapping now data st)
    as [->|(m & c & p & _ & _ & _ & [[_ ->]|(r & _ & _ & ->)])]; reflexivity.
Qed.

End HandlerFacts.

Module CacheProperties.

Import JS Spec TransformFacts HandlerFacts Handlers.

Lemma from_message_more (mapping mids : gmap string string)
    (a b : list (string * option value)) (k : string) (r : CoinOrderbook) :
  from_message mapping mids a k r -> from_message mapping mids (a ++ b) k r.
Proof.
  intros (H1 & H2 & now & m & p & Hin & Ha & Hr). split; [exact H1|]. split; [exact H2|].
  exists now, m, p. split; [apply in_or_app; left; exact Hin|]. split; assumption.
Qed.

Lemma cache_from_messages (mapping : gmap string string)
    (msgs : list (string * option value)) :
  forall seen st,
    (forall k r, NoSave.latestOrderbooks st !! k = Some r ->
                 from_message mapping (NoSave.allMidsCache st) seen k r) ->
    forall k r, NoSave.latestOrderbooks (NoSave.run mapping msgs st) !! k = Some r ->
                from_message mapping (NoSave.allMidsCache st) (seen ++ msgs) k r.
Proof.
  induction msgs as [|[now data] msgs IH]; intros seen st Hst k r Hl.
  - rewrite app_nil_r. apply Hst. exact Hl.
  - change (NoSave.run mapping ((now, data) :: msgs) st)
      with (NoSave.run mapping msgs (NoSave.on_message mapping now data st)) in Hl.
    replace (seen ++ (now, data) :: msgs)%list with ((seen ++ [(now, data)]) ++ msgs)%list
      by (rewrite <- app_assoc; reflexivity).
    assert (Hm : NoSave.allMidsCache (NoSave.on_message mapping now data st)
                 = NoSave.allMidsCache st).
    { exact (mids_A_constant mapping [(now, data)] st). }
    rewrite <- Hm. apply (IH (seen ++ [(now, data)])%list); [|exact Hl].
    rewrite Hm. clear Hl k r. intros k r Hl.
    destruct (on_message_A_cases mapping now data st)
      as [E|(m & c & p & -> & Ha & Hp & [[_ E]|(r' & Hr & Hs & E)])];
      rewrite E in Hl; cbn in Hl.
    + apply from_message_more, Hst, Hl.
    + apply from_message_more, Hst, Hl.
    + destruct (decide (c = k)) as [->|Hne].
      * rewrite lookup_insert_eq in Hl. injection Hl as <-.
        split; [exact Hs|]. split; [exact Hp|].
        exists now, m, p. split; [apply in_or_app; right; left; reflexivity|].
        split; assumption.
      * rewrite lookup_insert_ne in Hl by assumption. apply from_message_more, Hst, Hl.
Qed.

(** X9. Mode A, starting with an empty cache: every cached record is filed
    under its own symbol, the symbol starts with [@], and the record is the
    transform of a message that was received for that coin. *)
Theorem cached_records_are_transforms
    (mapping : gmap string string) (msgs : list (string * option value))
    (st : NoSave.state) (k : string) (r : CoinOrderbook) :
  NoSave.latestOrderbooks st = ∅ ->
  NoSave.latestOrderbooks (NoSave.run mapping msgs st) !! k = Some r ->
  symbol r = k /\ String.prefix "@" k = true /\
  exists now message payload,
    In (now, Some message) msgs /\
    NoSave.accept message = Ok (Some (k, payload)) /\
    NoSave.processOrderbookData mapping (NoSave.allMidsCache st) now k payload = Some r.
Proof.
  intros He Hl.
  apply (cache_from_messages mapping msgs [] st); [|exact Hl].
  intros k' r' H. rewrite He, lookup_empty in H. discriminate.
Qed.

(** The witness of X9. *)
Lemma cached_records_are_transforms_witness :
  exists r,
    NoSave.latestOrderbooks
      (NoSave.run ∅ [(Examples.stamp, Some Examples.example_message)] NoSave.init) !! "@1"
    = Some r /\
    symbol r = "@1" /\ String.prefix "@" "@1" = true /\
    exists now message payload,
      In (now, Some message) [(Examples.stamp, Some Examples.example_message)] /\
      NoSave.accept message = Ok (Some ("@1", payload)) /\
      NoSave.processOrderbookData ∅ (NoSave.allMidsCache NoSave.init) now "@1" payload
      = Some r.
Proof.
  eexists. split; [vm_compute; reflexivity|].
  apply (cached_records_are_transforms ∅
           [(Examples.stamp, Some Examples.example_message)] NoSave.init "@1").
  - reflexivity.
  - vm_compute. reflexivity.
Defined.

Lemma cache_kept (mapping : gmap string string) (k : string) (r : CoinOrderbook)
    (msgs : list (string * option value)) :
  forall st,
    Forall (fun m => forall message payload,
              snd m = Some message ->
              NoSave.accept message = Ok (Some (k, payload)) ->
              NoSave.processOrderbookData mapping (NoSave.allMidsCache st) (fst m) k payload
              = None) msgs ->
    NoSave.latestOrderbooks st !! k = Some r ->
    NoSave.latestOrderbooks (NoSave.run mapping msgs st) !! k = Some r.
Proof.
  induction msgs as [|[now data] msgs IH]; intros st Hall Hl; [exact Hl|].
  change (NoSave.run mapping ((now, data) :: msgs) st)
    with (NoSave.run mapping msgs (NoSave.on_message mapping now data st)).
  apply Forall_cons in Hall as [Hm Hall].
  assert (Hmids : NoSave.allMidsCache (NoSave.on_message mapping now data st)
                  = NoSave.allMidsCache st).
  { exact (mids_A_constant mapping [(now, data)] st). }
  apply IH; [rewrite Hmids; exact Hall|].
  destruct (on_message_A_cases mapping now data st)
    as [E|(m & c & p & -> & Ha & Hp & [[_ E]|(r' & Hr & Hs & E)])];
    rewrite E; cbn; try exact Hl.
  destruct (decide (c = k)) as [->|Hne].
  - cbn in Hm. rewrite (Hm m p eq_refl Ha) in Hr. discriminate.
  - rewrite lookup_insert_ne by assumption. exact Hl.
Qed.

(** X10. Mode A keeps the latest record of a coin: after a message for coin
    [k] has been transformed into [r], the cache gives [r] for [k] for as
    long as no later message for [k] is transformed; messages for other
    coins, dropped messages and failed transforms do not touch the entry. *)
Theorem latest_record_cached
    (mapping : gmap string string) (before after : list (string * option value))
    (now : string) (message payload : value) (k : string) (r : CoinOrderbook)
    (st : NoSave.state) :
  NoSave.accept message = Ok (Some (k, payload)) ->
  NoSave.processOrderbookData mapping (NoSave.allMidsCache st) now k payload = Some r ->
  Forall (fun m => forall message' payload',
            snd m = Some message' ->
            NoSave.accept message' = Ok (Some (k, payload')) ->
            NoSave.processOrderbookData mapping (NoSave.allMidsCache st) (fst m) k payload'
            = None) after ->
  NoSave.latestOrderbooks
    (NoSave.run mapping (before ++ (now, Some message) :: after) st) !! k = Some r.
Proof.
  intros Ha Hr Hall. rewrite run_A_app.
  change (NoSave.run mapping ((now, Some message) :: after) (NoSave.run mapping before st))
    with (NoSave.run mapping after
            (NoSave.on_message mapping now (Some message) (NoSave.run mapping before st))).
  pose proof (mids_A_constant mapping before st) as Hb.
  assert (Hmids : NoSave.allMidsCache
                    (NoSave.on_message mapping now (Some message) (NoSave.run mapping before st))
                  = NoSave.allMidsCache st).
  { rewrite <- Hb. exact (mids_A_constant mapping [(now, Some message)] _). }
  apply cache_kept; [rewrite Hmids; exact Hall|].
  cbn. rewrite Ha, Hb, Hr. cbn.
  assert (Hs : symbol r = k).
  { rewrite transformer_A_B in Hr. apply (transform_symbol _ _ _ _ _ _ Hr). }
  rewrite Hs. apply lookup_insert_eq.
Qed.

(** The witness of X10. *)
Lemma latest_record_cached_witness :
  exists r,
    NoSave.processOrderbookData ∅ ∅ Examples.stamp "@1" Examples.example_snapshot = Some r /\
    NoSave.latestOrderbooks
      (NoSave.run ∅
         ([(Examples.stamp, Some (Examples.l2Book_message Examples.one_sided_snapshot))] ++
          (Examples.stamp, Some Examples.example_message) ::
          [(Examples.stamp, Some (Examples.l2Book_message Examples.no_levels));
           (Examples.stamp, None)])
         NoSave.init) !! "@1" = Some r.
Proof.
  eexists. split; [vm_compute; reflexivity|].
  apply (latest_record_cached ∅
           [(Examples.stamp, Some (Examples.l2Book_message Examples.one_sided_snapshot))]
           [(Examples.stamp, Some (Examples.l2Book_message Examples.no_levels));
            (Examples.stamp, None)]
           Examples.stamp Examples.example_message Examples.example_snapshot "@1" _
           NoSave.init).
  - reflexivity.
  - vm_compute. reflexivity.
  - repeat first [apply List.Forall_nil | apply List.Forall_cons].
    + intros message' payload' Hm Ha. cbn in Hm. injection Hm as <-.
      cbn in Ha. injection Ha as <-. vm_compute. reflexivity.
    + intros message' payload' Hm Ha. cbn in Hm. discriminate.
Defined.

End CacheProperties.

Module CounterProperties.

Import JS Spec TransformFacts HandlerFacts Handlers.

(** X11. Mode A never removes a cache entry and counts every message it
    hands to the transformer: over any run the set of cached coins only
    grows, the counter grows by at most the number of messages, and the
    cache grows by at most as many entries as the counter advanced. *)
Theorem cache_grows_with_counter
    (mapping : gmap string string) (msgs : list (string * option value))
    (st : NoSave.state) :
  dom (NoSave.latestOrderbooks st) ⊆ dom (NoSave.latestOrderbooks (NoSave.run mapping msgs st)) /\
  (NoSave.processCount st <= NoSave.processCount (NoSave.run mapping msgs st))%nat /\
  (NoSave.processCount (NoSave.run mapping msgs st)
   <= NoSave.processCount st + length msgs)%nat /\
  (base.size (NoSave.latestOrderbooks (NoSave.run mapping msgs st)) + NoSave.processCount st
   <= base.size (NoSave.latestOrderbooks st)
      + NoSave.processCount (NoSave.run mapping msgs st))%nat.
Proof.
  revert st. induction msgs as [|[now data] msgs IH]; intros st.
  - cbn. repeat split; [reflexivity | lia | lia | lia].
  - change (NoSave.run mapping ((now, data) :: msgs) st)
      with (NoSave.run mapping msgs (NoSave.on_message mapping now data st)).
    destruct (IH (NoSave.on_message mapping now data st)) as (Hd & H1 & H2 & H3).
    cbn [length].
    destruct (on_message_A_cases mapping now data st)
      as [E|(m & c & p & _ & _ & _ & [[_ E]|(r' & _ & _ & E)])];
      rewrite E in *; cbn in Hd, H1, H2, H3.
    + repeat split; [exact Hd | lia | lia | lia].
    + repeat split; [exact Hd | lia | lia | lia].
    + rewrite dom_insert_L in Hd. rewrite map_size_insert in H3.
      repeat split; [| lia | lia |].
      * intros x Hx. apply Hd, elem_of_union. right. exact Hx.
      * destruct (NoSave.latestOrderbooks st !! c); cbn in H3; lia.
Qed.

Lemma size_add (x : string) (X : gset string) :
  (base.size ({[x]} ∪ X) <= S (base.size X))%nat.
Proof.
  rewrite size_union_alt, size_singleton.
  assert (base.size (X ∖ {[x]}) <= base.size X)%nat.
  { apply subseteq_size. intros y Hy. apply elem_of_difference in Hy as [Hy _]. exact Hy. }
  lia.
Qed.

Lemma counted_step (mapping : gmap string string) (st : YesSave.state) (ev : YesSave.event) :
  counted st (YesSave.step mapping st ev).
Proof.
  assert (Hrefl : counted st st) by (unfold counted; repeat split; try lia; reflexivity).
  unfold YesSave.step.
  destruct (YesSave.exited st); [exact Hrefl|].
  destruct ev as [now data|p| |mids].
  - destruct (on_message_B_cases mapping now data st)
      as [E|(m & c & pl & _ & _ & _ & [[_ E]|(r' & _ & _ & _ & E)])]; rewrite E.
    + exact Hrefl.
    + unfold counted; cbn. repeat split; try lia; reflexivity.
    + unfold counted; cbn. split; [lia|]. split; [lia|]. split; [lia|]. split; [|split].
      * intros x Hx. apply elem_of_union. right. exact Hx.
      * pose proof (size_add (displaySymbol r') (YesSave.updatedCoins st)). lia.
      * rewrite map_size_insert. destruct (YesSave.saveQueue st !! YesSave.promises st);
          cbn; lia.
  - unfold YesSave.on_settled. destruct (YesSave.saveQueue st !! p) eqn:Hp; [|exact Hrefl].
    unfold counted; cbn. repeat split; try lia; try reflexivity.
    rewrite map_size_delete, Hp. cbn. lia.
  - unfold YesSave.on_sigint.
    destruct (0 <? base.size (YesSave.saveQueue st))%nat; exact Hrefl.
  - destruct mids; exact Hrefl.
Qed.

(** X12. The counters of mode B stay consistent over every run of the event
    loop within one connection, from any state (the counters and
    [updatedCoins] are locals that a new connection starts at zero and
    empty; [saveQueue] belongs to the module and may still hold the saves of
    earlier connections): both counters only grow, no more updates are
    counted than messages were handed to the transformer, [updatedCoins]
    only grows and gains at most one display symbol per counted update, and
    the queue grows by at most one save per counted update. *)
Theorem counters_consistent (mapping : gmap string string) (evs : list YesSave.event)
    (st : YesSave.state) :
  (YesSave.updateCount st <= YesSave.updateCount (YesSave.run mapping evs st))%nat /\
  (YesSave.processCount st <= YesSave.processCount (YesSave.run mapping evs st))%nat /\
  (YesSave.updateCount (YesSave.run mapping evs st) + YesSave.processCount st
   <= YesSave.updateCount st + YesSave.processCount (YesSave.run mapping evs st))%nat /\
  YesSave.updatedCoins st ⊆ YesSave.updatedCoins (YesSave.run mapping evs st) /\
  (base.size (YesSave.updatedCoins (YesSave.run mapping evs st)) + YesSave.updateCount st
   <= base.size (YesSave.updatedCoins st)
      + YesSave.updateCount (YesSave.run mapping evs st))%nat /\
  (base.size (YesSave.saveQueue (YesSave.run mapping evs st)) + YesSave.updateCount st
   <= base.size (YesSave.saveQueue st)
      + YesSave.updateCount (YesSave.run mapping evs st))%nat.
Proof.
  change (counted st (YesSave.run mapping evs st)).
  revert st. induction evs as [|ev evs IH]; intros st.
  - unfold counted; cbn. repeat split; try lia; reflexivity.
  - change (YesSave.run mapping (ev :: evs) st)
      with (YesSave.run mapping evs (YesSave.step mapping st ev)).
    destruct (counted_step mapping st ev) as (A1 & A2 & A3 & A4 & A5 & A6).
    destruct (IH (YesSave.step mapping st ev)) as (B1 & B2 & B3 & B4 & B5 & B6).
    unfold counted. split; [lia|]. split; [lia|]. split; [lia|]. split; [|split; lia].
    intros x Hx. apply B4, A4, Hx.
Qed.

Lemma alike_message (mapping : gmap string string) (now : string) (data : option value)
    (stA : NoSave.state) (stB : YesSave.state) :
  fresh stB -> alike stA stB ->
  alike (NoSave.on_message mapping now data stA)
        (YesSave.step mapping stB (YesSave.Message now data)).
Proof.
  intros Hf (Hm & Hc & Hx & Hn & Hab & Hba). unfold YesSave.step. rewrite Hx.
  destruct data as [message|]; [|unfold alike; refine (conj _ (conj _ (conj _ (conj _ (conj _ _))))); cbn; assumption].
  cbn. change (NoSave.accept message) with (YesSave.accept message).
  destruct (YesSave.accept message) as [[[coin payload]|]|] eqn:Ha;
    [|unfold alike; refine (conj _ (conj _ (conj _ (conj _ (conj _ _))))); assumption|unfold alike; refine (conj _ (conj _ (conj _ (conj _ (conj _ _))))); assumption].
  rewrite transformer_A_B, Hm.
  destruct (YesSave.processOrderbookData mapping (YesSave.allMidsCache stB) now coin payload)
    as [r|] eqn:Hr.
  - assert (Hs : symbol r = coin) by apply (transform_symbol _ _ _ _ _ _ Hr).
    unfold YesSave.Promise_race_dropped.
    match goal with |- alike _ (if ?c then ?x else _) => replace (if c then x else x) with x
      by (destruct c; reflexivity) end.
    unfold alike; refine (conj _ (conj _ (conj _ (conj _ (conj _ _))))); cbn.
    + reflexivity.
    + lia.
    + assumption.
    + rewrite lookup_insert_ne by lia.
      destruct (YesSave.saveQueue stB !! S (YesSave.promises stB)) eqn:Hq; [|reflexivity].
      assert (Hin : S (YesSave.promises stB) ∈ dom (YesSave.saveQueue stB))
        by (apply elem_of_dom; eexists; exact Hq).
      specialize (Hf _ Hin). lia.
    + intros k r0 Hl. destruct (decide (symbol r = k)) as [<-|Hne].
      * rewrite lookup_insert_eq in Hl. injection Hl as <-.
        exists (YesSave.promises stB). apply lookup_insert_eq.
      * rewrite lookup_insert_ne in Hl by assumption.
        destruct (Hab _ _ Hl) as [p Hp]. exists p.
        rewrite lookup_insert_ne; [exact Hp | intros <-; congruence].
    + intros p r0 Hl. destruct (decide (YesSave.promises stB = p)) as [<-|Hne].
      * rewrite lookup_insert_eq in Hl. injection Hl as <-.
        rewrite lookup_insert_eq. eexists. reflexivity.
      * rewrite lookup_insert_ne in Hl by assumption.
        destruct (decide (symbol r = symbol r0)) as [->|Hne'].
        -- rewrite lookup_insert_eq. eexists. reflexivity.
        -- rewrite lookup_insert_ne by assumption. exact (Hba _ _ Hl).
  - unfold alike; refine (conj _ (conj _ (conj _ (conj _ (conj _ _))))); cbn; first [assumption | reflexivity | lia].
Qed.

Lemma alike_run (mapping : gmap string string) (msgs : list (string * option value)) :
  forall stA stB,
    fresh stB -> alike stA stB ->
    alike (NoSave.run mapping msgs stA)
          (YesSave.run mapping (map (fun m => YesSave.Message (fst m) (snd m)) msgs) stB).
Proof.
  induction msgs as [|[now data] msgs IH]; intros stA stB Hf Ha; [exact Ha|].
  cbn [map fst snd].
  change (NoSave.run mapping ((now, data) :: msgs) stA)
    with (NoSave.run mapping msgs (NoSave.on_message mapping now data stA)).
  change (YesSave.run mapping (YesSave.Message now data :: ?l) stB)
    with (YesSave.run mapping l (YesSave.step mapping stB (YesSave.Message now data))).
  apply IH; [apply DispatchFacts.fresh_step; exact Hf | apply alike_message; assumption].
Qed.

(** X13. The two variants dispatch alike: on the same messages from their
    initial states they hand the same number of messages to the transformer,
    every record mode A caches is a record mode B queued for saving, and
    every record mode B queued is for a coin mode A has in its cache. *)
Theorem variants_dispatch_alike
    (mapping : gmap string string) (msgs : list (string * option value)) :
  NoSave.processCount (NoSave.run mapping msgs NoSave.init)
  = YesSave.processCount
      (YesSave.run mapping (map (fun m => YesSave.Message (fst m) (snd m)) msgs)
         YesSave.init) /\
  (forall k r,
     NoSave.latestOrderbooks (NoSave.run mapping msgs NoSave.init) !! k = Some r ->
     exists p,
       YesSave.saveQueue
         (YesSave.run mapping (map (fun m => YesSave.Message (fst m) (snd m)) msgs)
            YesSave.init) !! p = Some r) /\
  (forall p r,
     YesSave.saveQueue
       (YesSave.run mapping (map (fun m => YesSave.Message (fst m) (snd m)) msgs)
          YesSave.init) !! p = Some r ->
     is_Some (NoSave.latestOrderbooks (NoSave.run mapping msgs NoSave.init) !! symbol r)).
Proof.
  assert (Hinit : alike NoSave.init YesSave.init).
  { unfold alike; refine (conj _ (conj _ (conj _ (conj _ (conj _ _))))); cbn; try reflexivity.
    - intros k r H. rewrite lookup_empty in H. discriminate.
    - intros p r H. rewrite lookup_empty in H. discriminate. }
  destruct (alike_run mapping msgs NoSave.init YesSave.init
              (proj1 DispatchFacts.init_invariant) Hinit)
    as (_ & Hc & _ & _ & Hab & Hba).
  split; [exact Hc|]. split; assumption.
Qed.

(** The witness of X13. *)
Lemma variants_dispatch_alike_witness :
  exists r,
    NoSave.latestOrderbooks
      (NoSave.run ∅ [(Examples.stamp, Some Examples.example_message)] NoSave.init) !! "@1"
    = Some r /\
    exists p,
      YesSave.saveQueue
        (YesSave.run ∅ [YesSave.Message Examples.stamp (Some Examples.example_message)]
           YesSave.init) !! p = Some r.
Proof.
  eexists. split; [vm_compute; reflexivity|].
  apply (proj1 (proj2 (variants_dispatch_alike ∅
                         [(Examples.stamp, Some Examples.example_message)])) "@1").
  vm_compute. reflexivity.
Defined.

End CounterProperties.

(** ** The folder a record is saved under *)

Module PersistFacts.

Import JS Spec Persist Handlers.

Lemma hyphen_kept (s : string) :
  Text.occurs "-" s = true -> Text.occurs "-" (replace_reserved s) = true.
Proof.
  induction s as [|a s IH]; cbn [replace_reserved Text.occurs]; [discriminate|].
  intros H. apply orb_true_iff in H as [H|H].
  - apply Ascii.eqb_eq in H as ->. reflexivity.
  - rewrite (IH H). apply orb_true_r.
Qed.

Lemma prefix_kept (s : string) :
  String.prefix "@" s = true -> String.prefix "@" (replace_reserved s) = true.
Proof.
  destruct s as [|a s]; [discriminate|].
  change (String.prefix "@" (String a s))
    with (if Ascii.ascii_dec "@" a then String.prefix "" s else false).
  destruct (Ascii.ascii_dec "@" a) as [<-|Hne]; [|discriminate]. intros _.
  change (replace_reserved (String "@" s)) with (String "@" (replace_reserved s)).
  change (String.prefix "@" (String "@" (replace_reserved s)))
    with (String.prefix "" (replace_reserved s)).
  destruct (replace_reserved s); reflexivity.
Qed.

Lemma replace_reserved_app (a b : string) :
  replace_reserved (a +:+ b) = replace_reserved a +:+ replace_reserved b.
Proof.
  induction a as [|x a IH]; [reflexivity|].
  change (replace_reserved (String x (a +:+ b))
          = String (if reserved x then "-"%char else x)
                   (replace_reserved a +:+ replace_reserved b)).
  cbn [replace_reserved]. rewrite IH. reflexivity.
Qed.

Lemma replaced_clean (s : string) (c : ascii) :
  reserved c = true -> Text.occurs c (replace_reserved s) = false.
Proof.
  intros Hc. induction s as [|a s IH]; cbn [replace_reserved Text.occurs]; [reflexivity|].
  rewrite IH, orb_false_r. destruct (reserved a) eqn:Ha.
  - destruct (Ascii.eqb_spec "-"%char c) as [<-|Hne]; [discriminate | reflexivity].
  - destruct (Ascii.eqb_spec a c) as [->|Hne]; [congruence | reflexivity].
Qed.

Lemma queued_for_step (mapping : gmap string string) (st : YesSave.state)
    (ev : YesSave.event) :
  queued_for mapping st -> queued_for mapping (YesSave.step mapping st ev).
Proof.
  intros Hq. unfold YesSave.step. destruct (YesSave.exited st); [exact Hq|].
  destruct ev as [now data|p| |mids].
  - destruct (HandlerFacts.on_message_B_cases mapping now data st)
      as [E|(m & c & pl & _ & _ & Hp & [[_ E]|(r' & _ & Hs & Hd & E)])]; rewrite E.
    + exact Hq.
    + exact Hq.
    + intros p r Hl. cbn in Hl.
      destruct (decide (YesSave.promises st = p)) as [<-|Hne].
      * rewrite lookup_insert_eq in Hl. injection Hl as <-. rewrite Hs.
        split; [exact Hp | exact Hd].
      * rewrite lookup_insert_ne in Hl by assumption. exact (Hq _ _ Hl).
  - unfold YesSave.on_settled. destruct (YesSave.saveQueue st !! p) eqn:Hp; [|exact Hq].
    intros q r Hl. cbn in Hl. apply lookup_delete_Some in Hl as [_ Hl]. exact (Hq _ _ Hl).
  - unfold YesSave.on_sigint.
    destruct (0 <? base.size (YesSave.saveQueue st))%nat; exact Hq.
  - destruct mids; exact Hq.
Qed.

Lemma queued_for_run (mapping : gmap string string) (evs : list YesSave.event) :
  forall st, queued_for mapping st -> queued_for mapping (YesSave.run mapping evs st).
Proof.
  induction evs as [|ev evs IH]; intros st Hq; [exact Hq|].
  apply IH, queued_for_step, Hq.
Qed.

End PersistFacts.

Module PersistProperties.

Import JS Spec Persist Handlers PersistFacts.

(** X14. The folder name keeps the length of the display symbol and every
    character but the nine the pattern names, which become hyphens; so none
    of the nine occurs in it (no path separator among them), replacing
    again changes nothing, and a display symbol with one of the nine gets
    the folder of the display symbol with a hyphen in its place. *)
Theorem folder_name_sanitised (s : string) :
  String.length (replace_reserved s) = String.length s /\
  (forall i c, String.get i s = Some c ->
     String.get i (replace_reserved s) = Some (if reserved c then "-"%char else c)) /\
  (forall c, reserved c = true -> Text.occurs c (replace_reserved s) = false) /\
  replace_reserved (replace_reserved s) = replace_reserved s /\
  (forall c rest, reserved c = true ->
     replace_reserved (s +:+ String c rest) = replace_reserved (s +:+ String "-" rest)).
Proof.
  split; [|split; [|split; [|split]]]; cycle 4.
  { intros c rest Hc. rewrite !replace_reserved_app. f_equal.
    cbn [replace_reserved]. rewrite Hc. reflexivity. }
  - induction s as [|a s IH]; cbn [replace_reserved String.length];
      [reflexivity | rewrite IH; reflexivity].
  - induction s as [|a s IH]; intros i c H; cbn [String.get] in H; [discriminate|].
    destruct i as [|i]; cbn [replace_reserved String.get].
    + injection H as <-. reflexivity.
    + apply IH. exact H.
  - intros c Hc. apply replaced_clean. exact Hc.
  - induction s as [|a s IH]; cbn [replace_reserved]; [reflexivity|]. rewrite IH. f_equal.
    destruct (reserved a) eqn:Ha; [reflexivity | rewrite Ha; reflexivity].
Qed.

(** The witness of X14. *)
Lemma folder_name_sanitised_witness :
  String.get 4 (replace_reserved "PURR/USDC") = Some "-"%char /\
  Text.occurs "/" (replace_reserved "PURR/USDC") = false /\
  replace_reserved ("PURR" +:+ String "/" "USDC") = replace_reserved ("PURR" +:+ String "-" "USDC").
Proof.
  split; [|split].
  - apply (proj1 (proj2 (folder_name_sanitised "PURR/USDC")) 4 "/"%char). reflexivity.
  - apply (proj1 (proj2 (proj2 (folder_name_sanitised "PURR/USDC"))) "/"%char). reflexivity.
  - apply (proj2 (proj2 (proj2 (proj2 (folder_name_sanitised "PURR")))) "/"%char "USDC").
    reflexivity.
Defined.

(** X15. With the symbol mapping the loader has filled from empty maps, the
    folder name of every record mode B queues for saving starts with [@] or
    contains a hyphen and holds neither a slash nor a backslash: it is not
    empty and is neither [.] nor [..]. *)
Theorem saved_folder_is_plain_name
    (response : option value) (evs : list YesSave.event) (p : nat) (r : CoinOrderbook) :
  YesSave.saveQueue
    (YesSave.run
       (Metadata.spotSymbolMapping (fst (Metadata.initSpotMetadata response Metadata.empty_registry)))
       evs YesSave.init) !! p = Some r ->
  (String.prefix "@" (safeFolderName r) = true \/ Text.occurs "-" (safeFolderName r) = true) /\
  Text.occurs "/" (safeFolderName r) = false /\
  Text.occurs "\" (safeFolderName r) = false /\
  safeFolderName r <> "" /\ safeFolderName r <> "." /\ safeFolderName r <> "..".
Proof.
  intros Hl.
  set (mapping := Metadata.spotSymbolMapping
                    (fst (Metadata.initSpotMetadata response Metadata.empty_registry))) in *.
  assert (Hq : queued_for mapping (YesSave.run mapping evs YesSave.init)).
  { apply queued_for_run. intros q r0 H. cbn in H. rewrite lookup_empty in H. discriminate. }
  destruct (Hq _ _ Hl) as [Hp Hd].
  assert (Hshape : String.prefix "@" (safeFolderName r) = true \/
                   Text.occurs "-" (safeFolderName r) = true).
  { unfold safeFolderName. rewrite Hd. unfold or_else.
    destruct (mapping !! symbol r) as [d|] eqn:Hm.
    - destruct (String.eqb d ""); [left; apply prefix_kept; exact Hp|].
      right. apply hyphen_kept.
      destruct (MetadataFacts.init_well_formed response Metadata.empty_registry
                  MetadataFacts.well_formed_empty) as [Hwf _].
      exact (proj2 (Hwf _ _ Hm)).
    - left. apply prefix_kept. exact Hp. }
  split; [exact Hshape|].
  split; [apply replaced_clean; reflexivity|].
  split; [apply replaced_clean; reflexivity|].
  repeat split; intros E; rewrite E in Hshape; destruct Hshape; discriminate.
Qed.

(** The witness of X15. *)
Lemma saved_folder_is_plain_name_witness :
  exists r,
    YesSave.saveQueue
      (YesSave.run
         (Metadata.spotSymbolMapping
            (fst (Metadata.initSpotMetadata (Some Samples.example_metadata)
                    Metadata.empty_registry)))
         [YesSave.Message Examples.stamp (Some Examples.example_message)]
         YesSave.init) !! 0%nat = Some r /\
    safeFolderName r = "HFUN-USDC" /\
    (String.prefix "@" (safeFolderName r) = true \/ Text.occurs "-" (safeFolderName r) = true) /\
    Text.occurs "/" (safeFolderName r) = false /\
    Text.occurs "\" (safeFolderName r) = false /\
    safeFolderName r <> "" /\ safeFolderName r <> "." /\ safeFolderName r <> "..".
Proof.
  eexists. split; [vm_compute; reflexivity|]. split; [vm_compute; reflexivity|].
  apply (saved_folder_is_plain_name (Some Samples.example_metadata)
           [YesSave.Message Examples.stamp (Some Examples.example_message)] 0).
  vm_compute. reflexivity.
Defined.

End PersistProperties.

(** ** The rate of the progress line *)

Module ProgressFacts.

Import Num NumFacts Progress.
Local Open Scope Z_scope.

Lemma shl_align_snd (m : positive) (e e' : Z) :
  snd (shl_align m e e') = Z.min e e'.
Proof.
  unfold shl_align. destruct (e' - e) as [|d|d] eqn:Hd; cbn [snd]; lia.
Qed.

(** A positive integer literal is a positive number or, past the range,
    plus infinity. *)
Lemma of_Z_pos (p : positive) :
  of_Z (Zpos p) = S754_infinity false \/ exists m e, of_Z (Zpos p) = S754_finite false m e.
Proof.
  unfold of_Z, binary_normalize, binary_round.
  set (e' := fexp prec emax (Zpos (digits2_pos p) + 0)).
  pose proof (shl_align_snd p 0 e') as Hsnd.
  assert (He' : e' = Z.max (Z.log2 (Zpos p) + 1 - 53) (-1074)).
  { unfold e'. rewrite fexp_eq, digits2_log2. f_equal. lia. }
  pose proof (Z.log2_nonneg (Zpos p)) as Hlog.
  destruct (Z.le_gt_cases e' 0) as [Hle|Hgt].
  - pose proof (shl_align_fst p 0 e' Hle) as Hfst.
    destruct (shl_align p 0 e') as [mz ez]. cbn [fst snd] in Hfst, Hsnd.
    assert (Hez : ez = e') by lia. clear Hsnd. subst ez.
    assert (Hdig : Zdigits2 (Zpos mz) = Z.log2 (Zpos p) + 1 - e').
    { rewrite Zdigits2_log2 by lia. rewrite Hfst.
      replace (0 - e') with (- e') by lia.
      rewrite Z.log2_mul_pow2 by lia. lia. }
    assert (Hcan : fexp prec emax (Zdigits2 (Zpos mz) + e') = e').
    { rewrite Hdig, fexp_eq. lia. }
    pose proof (binary_round_aux_pos false mz e' loc_Exact ltac:(rewrite Hcan; lia)) as Hok.
    rewrite Hcan, Z.sub_diag, Z.shiftr_0_r in Hok. cbv beta iota.
    destruct (binary_round_aux prec emax false (Zpos mz) e' loc_Exact) as [s|s| |s m e];
      cbn in Hok.
    + destruct Hok as [_ H0]. lia.
    + left. rewrite Hok. reflexivity.
    + contradiction.
    + right. destruct Hok as (-> & _). exists m, e. reflexivity.
  - assert (Hal : shl_align p 0 e' = (p, 0)).
    { unfold shl_align. destruct (e' - 0) eqn:Hd; try reflexivity. lia. }
    rewrite Hal.
    assert (Hcan : fexp prec emax (Zdigits2 (Zpos p) + 0) = e').
    { unfold e'. reflexivity. }
    pose proof (binary_round_aux_pos false p 0 loc_Exact ltac:(rewrite Hcan; lia)) as Hok.
    rewrite Hcan in Hok. cbv beta iota.
    destruct (binary_round_aux prec emax false (Zpos p) 0 loc_Exact) as [s|s| |s m e];
      cbn in Hok.
    + destruct Hok as [_ H0]. apply Z.shiftr_eq_0_iff in H0.
      destruct H0 as [H0|[_ H0]]; lia.
    + left. rewrite Hok. reflexivity.
    + contradiction.
    + right. destruct Hok as (-> & _). exists m, e. reflexivity.
Qed.

Lemma count_over_zero (n : nat) :
  (0 < n)%nat -> div (number_of_count n) (S754_zero false) = S754_infinity false.
Proof.
  intros Hn. unfold number_of_count.
  destruct (Z.of_nat n) as [|p|p] eqn:E; try lia.
  destruct (of_Z_pos p) as [->|(m & e & ->)]; reflexivity.
Qed.

(** Less than half a second shows as ["0"]. *)
Lemma short_elapsed_table :
  forallb (fun d => String.eqb (toFixed (div (of_Z (Z.of_nat d)) (of_Z 1000)) 0) "0")
          (seq 0 500) = true.
Proof. vm_compute. reflexivity. Qed.

Lemma short_elapsed (d : Z) :
  0 <= d < 500 -> toFixed (div (of_Z d) (of_Z 1000)) 0 = "0"%string.
Proof.
  intros Hd. pose proof short_elapsed_table as H.
  rewrite forallb_forall in H.
  specialize (H (Z.to_nat d)). rewrite Z2Nat.id in H by lia.
  apply String.eqb_eq, H, in_seq. lia.
Qed.

End ProgressFacts.

Module ProgressProperties.

Import Num Progress ProgressFacts.

(** X16. During the first half second after the connection was set up the
    elapsed time shows as "0": the rate of mode B is then a division by
    zero and shows as "Infinity", whatever the count, while mode A shows
    "0.00".  Whenever the elapsed time parses to a positive number the two
    variants compute the same rate. *)
Theorem rate_in_first_half_second
    (now startTime : number) (d : Z) (processCount : nat) :
  sub now startTime = of_Z d -> (0 <= d < 500)%Z -> (0 < processCount)%nat ->
  elapsed now startTime = "0" /\
  updatesPerSec_B processCount (elapsed now startTime) = "Infinity" /\
  updatesPerSec_A processCount (elapsed now startTime) = "0.00" /\
  (forall text, gt (parse_decimal text) zero = true ->
     updatesPerSec_A processCount text = updatesPerSec_B processCount text).
Proof.
  intros Hs Hd Hn.
  assert (He : elapsed now startTime = "0").
  { unfold elapsed. rewrite Hs. apply short_elapsed. exact Hd. }
  split; [exact He|]. rewrite He. split; [|split].
  - unfold updatesPerSec_B.
    change (parse_decimal "0") with (S754_zero false).
    rewrite (count_over_zero processCount Hn). reflexivity.
  - reflexivity.
  - intros text Hgt. unfold updatesPerSec_A. rewrite Hgt. reflexivity.
Qed.

(** The witness of X16. *)
Lemma rate_in_first_half_second_witness :
  elapsed (of_Z 1700000000123) (of_Z 1700000000000) = "0" /\
  updatesPerSec_B 3 (elapsed (of_Z 1700000000123) (of_Z 1700000000000)) = "Infinity" /\
  updatesPerSec_A 3 (elapsed (of_Z 1700000000123) (of_Z 1700000000000)) = "0.00" /\
  (forall text, gt (parse_decimal text) zero = true ->
     updatesPerSec_A 3 text = updatesPerSec_B 3 text).
Proof.
  apply (rate_in_first_half_second (of_Z 1700000000123) (of_Z 1700000000000) 123 3).
  - vm_compute. reflexivity.
  - lia.
  - lia.
Defined.

End ProgressProperties.

(** ** Connections and timers *)

Module LifecycleFacts.

Import Lifecycle.

Lemma running_start : running start.
Proof.
  split; [reflexivity|]. split; [reflexivity|]. split.
  - repeat constructor. discriminate.
  - intros [|i] [|j] ci cj Hi Hj _ _; cbn in Hi, Hj; try discriminate. reflexivity.
Qed.

Lemma Forall_insert_at {A : Type} (P : A -> Prop) (l : list A) (i : nat) (x : A) :
  Forall P l -> P x -> Forall P (<[i := x]> l).
Proof.
  intros Hl Hx. apply list.Forall_lookup_2. intros j y Hj.
  destruct (decide (i = j)) as [<-|Hne].
  - apply list_lookup_insert_Some in Hj as [[_ [<- _]]|[Hne _]]; [exact Hx | contradiction].
  - rewrite list_lookup_insert_ne in Hj by assumption.
    eapply list.Forall_lookup_1; eassumption.
Qed.

Lemma running_step (st : state) (ev : event) :
  is_sigint ev = false -> running st -> running (step st ev).
Proof.
  intros Hev (Hr & Hx & Hall & Huniq). unfold step. rewrite Hx.
  destruct ev as [i|i|i|i|exits|]; try discriminate.
  - (* close *)
    unfold on_close. destruct (connections st !! i) as [c|] eqn:Hc;
      [|repeat split; assumption].
    destruct (closed c) eqn:Hcl; [repeat split; assumption|].
    rewrite Hr.
    destruct (list.Forall_lookup_1 _ _ _ _ Hall Hc) as (Hs & Hm & _).
    split; [exact Hr|]. split; [exact Hx|]. split; cbn.
    + apply Forall_insert_at; [exact Hall|]. cbn. repeat split; assumption.
    + intros a b ca cb Ha Hb Hca Hcb.
      assert (Ha' : exists ca', connections st !! a = Some ca' /\ current ca').
      { destruct (decide (i = a)) as [<-|Hne].
        - exists c. split; [exact Hc | left; exact Hcl].
        - rewrite list_lookup_insert_ne in Ha by assumption. exists ca. split; assumption. }
      assert (Hb' : exists cb', connections st !! b = Some cb' /\ current cb').
      { destruct (decide (i = b)) as [<-|Hne].
        - exists c. split; [exact Hc | left; exact Hcl].
        - rewrite list_lookup_insert_ne in Hb by assumption. exists cb. split; assumption. }
      destruct Ha' as (ca' & Ha1 & Ha2). destruct Hb' as (cb' & Hb1 & Hb2).
      exact (Huniq _ _ _ _ Ha1 Hb1 Ha2 Hb2).
  - (* the reconnect timer *)
    unfold on_reconnect. destruct (connections st !! i) as [c|] eqn:Hc;
      [|repeat split; assumption].
    destruct (reconnectTimeout c) eqn:Ht; [|repeat split; assumption].
    destruct (list.Forall_lookup_1 _ _ _ _ Hall Hc) as (Hs & Hm & Hcl).
    specialize (Hcl Ht).
    assert (Hi : (i < length (connections st))%nat).
    { apply lookup_lt_is_Some. eexists. exact Hc. }
    split; [exact Hr|]. split; [exact Hx|]. split; cbn.
    + apply Forall_app. split.
      * apply Forall_insert_at; [exact Hall|]. cbn. repeat split; try assumption. discriminate.
      * repeat constructor. discriminate.
    + assert (Hold : forall a ca,
                <[i := {| closed := closed c; statsInterval := statsInterval c;
                          midPriceInterval := midPriceInterval c;
                          reconnectTimeout := false |}]> (connections st) !! a = Some ca ->
                current ca -> False).
      { intros a ca Ha Hca. destruct (decide (i = a)) as [<-|Hne].
        - rewrite list_lookup_insert_eq in Ha by assumption. injection Ha as <-.
          destruct Hca as [Hca|Hca]; cbn in Hca; congruence.
        - rewrite list_lookup_insert_ne in Ha by assumption.
          assert (i = a); [|contradiction].
          apply (Huniq i a c ca Hc Ha); [right; exact Ht | exact Hca]. }
      intros a b ca cb Ha Hb Hca Hcb.
      apply lookup_app_Some in Ha as [Ha|[Hla Ha]]; [exfalso; eapply Hold; eassumption|].
      apply lookup_app_Some in Hb as [Hb|[Hlb Hb]]; [exfalso; eapply Hold; eassumption|].
      rewrite length_insert in *.
      destruct (a - length (connections st))%nat as [|a'] eqn:Ea; [|destruct a'; discriminate].
      destruct (b - length (connections st))%nat as [|b'] eqn:Eb; [|destruct b'; discriminate].
      lia.
  - (* the statistics interval *)
    unfold on_stats. destruct (connections st !! i) as [c|]; [|repeat split; assumption].
    destruct (statsInterval c); [|repeat split; assumption].
    rewrite Hr. repeat split; assumption.
  - (* the mid-price interval *)
    unfold on_midPrice. destruct (connections st !! i) as [c|]; [|repeat split; assumption].
    destruct (midPriceInterval c); [|repeat split; assumption].
    rewrite Hr. repeat split; assumption.
  - (* the suspended listener is not there yet *)
    unfold on_exit. rewrite Hr. repeat split; assumption.
Qed.

Lemma running_run (evs : list event) :
  forallb (fun ev => negb (is_sigint ev)) evs = true ->
  forall st, running st -> running (run evs st).
Proof.
  induction evs as [|ev evs IH]; intros Hevs st Hst; [exact Hst|].
  cbn in Hevs. apply andb_true_iff in Hevs as [Hev Hevs].
  apply (IH Hevs), running_step; [|exact Hst].
  destruct (is_sigint ev); [discriminate | reflexivity].
Qed.

Lemma run_app (a b : list event) (st : state) : run (a ++ b) st = run b (run a st).
Proof. apply fold_left_app. Qed.

Lemma stopped_step (st : state) (ev : event) :
  stopped st ->
  stopped (step st ev) /\
  length (connections (step st ev)) = length (connections st) /\
  refreshes (step st ev) = refreshes st.
Proof.
  intros Hst. unfold step. destruct (exited st) eqn:Hx.
  { split; [left; exact Hx|]. split; reflexivity. }
  destruct Hst as [Hst|[Hr Hall]]; [congruence|].
  destruct ev as [i|i|i|i|exits|].
  - unfold on_close. destruct (connections st !! i) as [c|] eqn:Hc;
      [|split; [right; split; assumption | split; reflexivity]].
    destruct (closed c); [split; [right; split; assumption | split; reflexivity]|].
    destruct (list.Forall_lookup_1 _ _ _ _ Hall Hc) as (Hm & Ht).
    rewrite Hr. split; [|split; [cbn; apply length_insert | reflexivity]].
    right. split; [exact Hr|]. cbn. apply Forall_insert_at; [exact Hall|].
    cbn. split; assumption.
  - unfold on_reconnect. destruct (connections st !! i) as [c|] eqn:Hc;
      [|split; [right; split; assumption | split; reflexivity]].
    destruct (list.Forall_lookup_1 _ _ _ _ Hall Hc) as (Hm & ->).
    split; [right; split; assumption | split; reflexivity].
  - unfold on_stats. destruct (connections st !! i) as [c|] eqn:Hc;
      [|split; [right; split; assumption | split; reflexivity]].
    destruct (statsInterval c); [|split; [right; split; assumption | split; reflexivity]].
    destruct (list.Forall_lookup_1 _ _ _ _ Hall Hc) as (Hm & Ht).
    rewrite Hr. split; [|split; [cbn; apply length_insert | reflexivity]].
    right. split; [exact Hr|]. cbn. apply Forall_insert_at; [exact Hall|].
    cbn. split; assumption.
  - unfold on_midPrice. destruct (connections st !! i) as [c|] eqn:Hc;
      [|split; [right; split; assumption | split; reflexivity]].
    destruct (list.Forall_lookup_1 _ _ _ _ Hall Hc) as (-> & Ht).
    split; [right; split; assumption | split; reflexivity].
  - unfold on_sigint. destruct exits.
    + split; [left; reflexivity | split; reflexivity].
    + split; [|split; [cbn; apply length_map | reflexivity]].
      right. split; [reflexivity|]. cbn. apply Forall_map.
      apply Forall_forall. intros c _. split; reflexivity.
  - unfold on_exit. rewrite Hr. split; [left; reflexivity | split; reflexivity].
Qed.

Lemma stopped_run (evs : list event) :
  forall st, stopped st ->
    length (connections (run evs st)) = length (connections st) /\
    refreshes (run evs st) = refreshes st.
Proof.
  induction evs as [|ev evs IH]; intros st Hst; [split; reflexivity|].
  change (run (ev :: evs) st) with (run evs (step st ev)).
  destruct (stopped_step st ev Hst) as (Hst' & Hl & Hr).
  destruct (IH _ Hst') as [H1 H2]. rewrite H1, H2. split; assumption.
Qed.

End LifecycleFacts.

Module LifecycleProperties.

Import Lifecycle LifecycleFacts.
Local Open Scope list_scope.

(** X17. As long as no stop signal has arrived, whatever sockets close and
    whatever timers fire: the statistics interval and the mid-price interval
    of every connection ever made are still active, those of closed sockets
    included, at most one connection has an open socket, and a tick of any
    of the mid-price intervals calls [updateMidPrices]. *)
Theorem intervals_stay_active (evs : list event) :
  forallb (fun ev => negb (is_sigint ev)) evs = true ->
  isRunning (run evs start) = true /\
  Forall (fun c => statsInterval c = true /\ midPriceInterval c = true)
         (connections (run evs start)) /\
  (forall i j ci cj,
     connections (run evs start) !! i = Some ci ->
     connections (run evs start) !! j = Some cj ->
     closed ci = false -> closed cj = false -> i = j) /\
  (forall i, (i < length (connections (run evs start)))%nat ->
     refreshes (step (run evs start) (MidPriceTick i)) = S (refreshes (run evs start))).
Proof.
  intros Hevs.
  destruct (running_run evs Hevs start running_start) as (Hr & Hx & Hall & Huniq).
  split; [exact Hr|]. split; [|split].
  - eapply Forall_impl; [exact Hall|]. intros c (Hs & Hm & _). split; assumption.
  - intros i j ci cj Hi Hj Hci Hcj.
    apply (Huniq i j ci cj Hi Hj); left; assumption.
  - intros i Hi. unfold step. rewrite Hx. unfold on_midPrice.
    apply lookup_lt_is_Some in Hi as [c Hc]. rewrite Hc.
    destruct (list.Forall_lookup_1 _ _ _ _ Hall Hc) as (_ & -> & _).
    rewrite Hr. reflexivity.
Qed.

(** The witness of X17. *)
Lemma intervals_stay_active_witness :
  isRunning (run [Close 0; MidPriceTick 0; ReconnectTimer 0; StatsTick 1] start) = true /\
  Forall (fun c => statsInterval c = true /\ midPriceInterval c = true)
         (connections (run [Close 0; MidPriceTick 0; ReconnectTimer 0; StatsTick 1] start)) /\
  (forall i j ci cj,
     connections (run [Close 0; MidPriceTick 0; ReconnectTimer 0; StatsTick 1] start) !! i
     = Some ci ->
     connections (run [Close 0; MidPriceTick 0; ReconnectTimer 0; StatsTick 1] start) !! j
     = Some cj ->
     closed ci = false -> closed cj = false -> i = j) /\
  (forall i,
     (i < length (connections
                    (run [Close 0; MidPriceTick 0; ReconnectTimer 0; StatsTick 1] start)))%nat ->
     refreshes (step (run [Close 0; MidPriceTick 0; ReconnectTimer 0; StatsTick 1] start)
                     (MidPriceTick i))
     = S (refreshes (run [Close 0; MidPriceTick 0; ReconnectTimer 0; StatsTick 1] start))).
Proof.
  apply (intervals_stay_active [Close 0; MidPriceTick 0; ReconnectTimer 0; StatsTick 1]).
  reflexivity.
Defined.

Lemma lookup_last_of (n : nat) (c : connection) :
  (repeat spent n ++ [c]) !! n = Some c.
Proof.
  rewrite lookup_app_r by (rewrite repeat_length; lia).
  rewrite repeat_length, Nat.sub_diag. reflexivity.
Qed.

Lemma insert_last_of (n : nat) (c c' : connection) :
  <[n := c']> (repeat spent n ++ [c]) = repeat spent n ++ [c'].
Proof.
  rewrite insert_app_r_alt by (rewrite repeat_length; lia).
  rewrite repeat_length, Nat.sub_diag. reflexivity.
Qed.

Lemma close_open_socket (n r : nat) :
  step {| isRunning := true; exited := false;
          connections := repeat spent n ++ [fresh_connection]; refreshes := r |}
       (Close n)
  = {| isRunning := true; exited := false;
       connections := repeat spent n ++ [awaiting]; refreshes := r |}.
Proof.
  unfold step, on_close, with_connections. cbn [exited connections isRunning refreshes].
  rewrite lookup_last_of. cbn [closed fresh_connection statsInterval midPriceInterval].
  rewrite insert_last_of. reflexivity.
Qed.

Lemma reconnect_fires (n r : nat) :
  step {| isRunning := true; exited := false;
          connections := repeat spent n ++ [awaiting]; refreshes := r |}
       (ReconnectTimer n)
  = {| isRunning := true; exited := false;
       connections := repeat spent (S n) ++ [fresh_connection]; refreshes := r |}.
Proof.
  unfold step, on_reconnect, connectWebSocket, with_connections.
  cbn [exited connections isRunning refreshes].
  rewrite lookup_last_of.
  cbn [closed awaiting statsInterval midPriceInterval reconnectTimeout].
  rewrite insert_last_of. fold spent fresh_connection.
  cbn [repeat]. rewrite repeat_cons. reflexivity.
Qed.

Lemma outages_run (k : nat) :
  forall n r,
    run (outages n k)
      {| isRunning := true; exited := false;
         connections := repeat spent n ++ [fresh_connection]; refreshes := r |}
    = {| isRunning := true; exited := false;
         connections := repeat spent (n + k) ++ [fresh_connection]; refreshes := r |}.
Proof.
  induction k as [|k IH]; intros n r.
  - rewrite Nat.add_0_r. reflexivity.
  - change (run (outages n (S k)) ?s)
      with (run (outages (S n) k) (step (step s (Close n)) (ReconnectTimer n))).
    rewrite close_open_socket, reconnect_fires, IH.
    replace (S n + k)%nat with (n + S k)%nat by lia. reflexivity.
Qed.

Lemma ticks_run (idxs : list nat) :
  forall st,
    isRunning st = true -> exited st = false ->
    Forall (fun c => midPriceInterval c = true) (connections st) ->
    Forall (fun i => (i < length (connections st))%nat) idxs ->
    run (map MidPriceTick idxs) st
    = {| isRunning := true; exited := false; connections := connections st;
         refreshes := refreshes st + length idxs |}.
Proof.
  induction idxs as [|i idxs IH]; intros st Hr Hx Hall Hidx.
  - cbn. rewrite Nat.add_0_r. destruct st; cbn in *. subst. reflexivity.
  - apply Forall_cons in Hidx as [Hi Hidx].
    cbn [map run fold_left].
    change (fold_left step (map MidPriceTick idxs) ?s) with (run (map MidPriceTick idxs) s).
    apply lookup_lt_is_Some in Hi as [c Hc].
    assert (Hstep : step st (MidPriceTick i)
                    = {| isRunning := true; exited := false;
                         connections := connections st; refreshes := S (refreshes st) |}).
    { unfold step. rewrite Hx. unfold on_midPrice. rewrite Hc.
      rewrite (list.Forall_lookup_1 _ _ _ _ Hall Hc), Hr, Hx. reflexivity. }
    rewrite Hstep, IH; cbn [isRunning exited connections refreshes length];
      try assumption; try reflexivity.
    f_equal. lia.
Qed.

(** X18. Reconnecting never clears the intervals of the connection it
    replaces: after [k] outages (the socket closes, the reconnect timer
    fires) there are [k + 1] connections with exactly one open socket, and
    one round of ticks of their mid-price intervals makes [k + 1] calls of
    [updateMidPrices]. *)
Theorem outages_multiply_refreshes (k : nat) :
  length (connections (run (outages 0 k) start)) = S k /\
  length (List.filter (fun c => negb (closed c)) (connections (run (outages 0 k) start))) = 1%nat /\
  refreshes (run (outages 0 k ++ map MidPriceTick (seq 0 (S k))) start) = S k.
Proof.
  assert (Hrun : run (outages 0 k) start
                 = {| isRunning := true; exited := false;
                      connections := repeat spent k ++ [fresh_connection];
                      refreshes := 0 |}).
  { exact (outages_run k 0 0). }
  assert (Hlen : length (repeat spent k ++ [fresh_connection]) = S k).
  { rewrite length_app, repeat_length. cbn. lia. }
  split; [rewrite Hrun; exact Hlen|]. split.
  - rewrite Hrun. cbn [connections]. rewrite List.filter_app.
    assert (Hnone : List.filter (fun c => negb (closed c)) (repeat spent k) = []).
    { induction k as [|k' IH']; [reflexivity|]. cbn. apply IH'.
      - exact (outages_run k' 0 0).
      - rewrite length_app, repeat_length. cbn. lia. }
    rewrite Hnone. reflexivity.
  - rewrite run_app, Hrun, ticks_run; cbn [isRunning exited connections refreshes].
    + rewrite length_seq. reflexivity.
    + reflexivity.
    + reflexivity.
    + apply Forall_app. split; [|repeat constructor].
      apply Forall_forall. intros c Hc. apply list_elem_of_In, repeat_spec in Hc. subst c.
      reflexivity.
    + rewrite Hlen. apply Forall_forall. intros i Hi.
      apply list_elem_of_In, in_seq in Hi. lia.
Qed.

(** X19. After a stop signal nothing is scheduled any more: whatever events
    follow it, no further connection is made and no interval calls
    [updateMidPrices] again. *)
Theorem no_reconnect_after_stop (st : state) (exits : bool) (evs : list event) :
  length (connections (run (Sigint exits :: evs) st)) = length (connections st) /\
  refreshes (run (Sigint exits :: evs) st) = refreshes st.
Proof.
  assert (Hfirst : stopped (step st (Sigint exits)) /\
                   length (connections (step st (Sigint exits))) = length (connections st) /\
                   refreshes (step st (Sigint exits)) = refreshes st).
  { unfold step. destruct (exited st) eqn:Hx.
    - split; [left; exact Hx | split; reflexivity].
    - unfold on_sigint. destruct exits.
      + split; [left; reflexivity | split; reflexivity].
      + split; [|split; [cbn; apply length_map | reflexivity]].
        right. split; [reflexivity|]. cbn. apply Forall_map.
        apply Forall_forall. intros c _. split; reflexivity. }
  destruct Hfirst as (Hst & Hl & Hr).
  change (run (Sigint exits :: evs) st) with (run evs (step st (Sigint exits))).
  destruct (stopped_run evs _ Hst) as [H1 H2]. rewrite H1, H2. split; assumption.
Qed.

End LifecycleProperties.

(** ** Saves started after the stop signal *)

Module ShutdownProperties.

Import JS Spec DispatchFacts HandlerFacts.

Lemma record_kept_step (mapping : gmap string string) (p : nat) (r : CoinOrderbook)
    (st : YesSave.state) (ev : YesSave.event) :
  fresh st -> YesSave.saveQueue st !! p = Some r -> ev <> YesSave.Settled p ->
  YesSave.saveQueue (YesSave.step mapping st ev) !! p = Some r.
Proof.
  intros Hf Hp Hev. unfold YesSave.step. destruct (YesSave.exited st); [exact Hp|].
  destruct ev as [now data|q| |mids].
  - destruct (on_message_B_cases mapping now data st)
      as [E|(m & c & pl & _ & _ & _ & [[_ E]|(r' & _ & _ & _ & E)])]; rewrite E;
      try exact Hp.
    cbn. rewrite lookup_insert_ne; [exact Hp|].
    assert (Hin : p ∈ dom (YesSave.saveQueue st)) by (apply elem_of_dom; eexists; exact Hp).
    specialize (Hf _ Hin). lia.
  - unfold YesSave.on_settled. destruct (YesSave.saveQueue st !! q) eqn:Hq; [|exact Hp].
    cbn. rewrite lookup_delete_ne; [exact Hp|]. intros ->. apply Hev. reflexivity.
  - unfold YesSave.on_sigint.
    destruct (0 <? base.size (YesSave.saveQueue st))%nat; exact Hp.
  - destruct mids; exact Hp.
Qed.

Lemma record_kept (mapping : gmap string string) (p : nat) (r : CoinOrderbook)
    (evs : list YesSave.event) :
  forall st,
    fresh st -> YesSave.saveQueue st !! p = Some r -> ~ In (YesSave.Settled p) evs ->
    YesSave.saveQueue (YesSave.run mapping evs st) !! p = Some r.
Proof.
  induction evs as [|ev evs IH]; intros st Hf Hp Hn; [exact Hp|].
  change (YesSave.run mapping (ev :: evs) st)
    with (YesSave.run mapping evs (YesSave.step mapping st ev)).
  apply IH.
  - apply fresh_step. exact Hf.
  - apply record_kept_step; [exact Hf | exact Hp |]. intros ->. apply Hn. left. reflexivity.
  - intros H. apply Hn. right. exact H.
Qed.

(** X20. The message handler of mode B does not look at the stop flag, and
    the shutdown waits only for the saves that were in the queue when the
    signal arrived: a message that is handled after the signal is
    transformed and queued like any other, and once the earlier saves have
    settled the process exits while that save is still in flight. *)
Theorem late_save_not_awaited
    (mapping : gmap string string) (before after : list YesSave.event)
    (now : string) (message payload : value) (coin : string) (r : CoinOrderbook) :
  YesSave.isRunning (YesSave.run mapping before YesSave.init) = true ->
  YesSave.saveQueue (YesSave.run mapping before YesSave.init) <> ∅ ->
  YesSave.accept message = Ok (Some (coin, payload)) ->
  YesSave.processOrderbookData mapping
    (YesSave.allMidsCache (YesSave.run mapping before YesSave.init)) now coin payload = Some r ->
  (forall p, p ∈ dom (YesSave.saveQueue (YesSave.run mapping before YesSave.init)) ->
             In (YesSave.Settled p) after) ->
  ~ In (YesSave.Settled (YesSave.promises (YesSave.run mapping before YesSave.init))) after ->
  YesSave.exited
    (YesSave.run mapping
       (YesSave.Sigint :: YesSave.Message now (Some message) :: after)
       (YesSave.run mapping before YesSave.init)) = true /\
  YesSave.saveQueue
    (YesSave.run mapping
       (YesSave.Sigint :: YesSave.Message now (Some message) :: after)
       (YesSave.run mapping before YesSave.init))
  !! YesSave.promises (YesSave.run mapping before YesSave.init) = Some r.
Proof.
  intros Hrun Hq Ha Hr Hall Hnot.
  set (st0 := YesSave.run mapping before YesSave.init) in *.
  destruct (reachable_invariant mapping before YesSave.init
              (proj1 init_invariant) (proj2 init_invariant)) as [Hf Hns].
  fold st0 in Hf, Hns. destruct (Hns Hrun) as [Hsh Hx].
  assert (Hsize : (0 <? base.size (YesSave.saveQueue st0))%nat = true).
  { apply Nat.ltb_lt. destruct (base.size (YesSave.saveQueue st0)) eqn:E; [|lia].
    apply map_size_empty_iff in E. contradiction. }
  set (st1 := YesSave.step mapping st0 YesSave.Sigint).
  assert (E1 : st1 = YesSave.on_sigint st0).
  { unfold st1, YesSave.step. rewrite Hx. reflexivity. }
  set (st2 := YesSave.step mapping st1 (YesSave.Message now (Some message))).
  assert (E2 : YesSave.saveQueue st2 = <[YesSave.promises st0 := r]> (YesSave.saveQueue st0) /\
               YesSave.shutdowns st2 = [dom (YesSave.saveQueue st0)] /\
               YesSave.exited st2 = false).
  { unfold st2, YesSave.step. rewrite E1. unfold YesSave.on_sigint. rewrite Hsize.
    cbn [YesSave.exited]. rewrite Hx. cbn [YesSave.on_message].
    rewrite Ha. cbn [YesSave.allMidsCache]. rewrite Hr.
    unfold YesSave.Promise_race_dropped.
    match goal with |- context [if ?c then ?x else _] =>
      replace (if c then x else x) with x by (destruct c; reflexivity) end.
    cbn. rewrite Hsh. repeat split. }
  destruct E2 as (Eq & Es & Ex).
  change (YesSave.run mapping
            (YesSave.Sigint :: YesSave.Message now (Some message) :: after) st0)
    with (YesSave.run mapping after st2).
  split.
  - apply drained_exits. intros _. rewrite Es. split.
    + constructor; [|constructor]. intros E. apply dom_empty_iff_L in E. contradiction.
    + exists (dom (YesSave.saveQueue st0)). split; [apply list_elem_of_here|]. split.
      * rewrite Eq, dom_insert_L. intros p Hp. apply elem_of_union. right. exact Hp.
      * exact Hall.
  - apply record_kept; [| rewrite Eq; apply lookup_insert_eq | exact Hnot].
    unfold st2, st1. apply fresh_step, fresh_step. exact Hf.
Qed.

(** The witness of X20. *)
Lemma late_save_not_awaited_witness :
  exists r,
    YesSave.processOrderbookData ∅ ∅ Examples.stamp "@1" Examples.example_snapshot = Some r /\
    YesSave.exited
      (YesSave.run ∅
         (YesSave.Sigint :: YesSave.Message Examples.stamp (Some Examples.example_message)
            :: [YesSave.Settled 1; YesSave.Settled 0])
         (YesSave.run ∅ (Examples.flood 2) YesSave.init)) = true /\
    YesSave.saveQueue
      (YesSave.run ∅
         (YesSave.Sigint :: YesSave.Message Examples.stamp (Some Examples.example_message)
            :: [YesSave.Settled 1; YesSave.Settled 0])
         (YesSave.run ∅ (Examples.flood 2) YesSave.init))
    !! YesSave.promises (YesSave.run ∅ (Examples.flood 2) YesSave.init) = Some r.
Proof.
  eexists. split; [vm_compute; reflexivity|].
  apply (late_save_not_awaited ∅ (Examples.flood 2) [YesSave.Settled 1; YesSave.Settled 0]
           Examples.stamp Examples.example_message Examples.example_snapshot "@1").
  - reflexivity.
  - intros E. apply (f_equal (fun m => m !! 0%nat)) in E. vm_compute in E. discriminate.
  - reflexivity.
  - vm_compute. reflexivity.
  - intros p Hp.
    destruct (reachable_invariant ∅ (Examples.flood 2) YesSave.init
                (proj1 init_invariant) (proj2 init_invariant)) as [Hf _].
    specialize (Hf p Hp).
    assert (E : YesSave.promises (YesSave.run ∅ (Examples.flood 2) YesSave.init) = 2%nat)
      by (vm_compute; reflexivity).
    rewrite E in Hf.
    destruct p as [|[|p]]; [right; left; reflexivity | left; reflexivity | lia].
  - intros [H|[H|[]]]; vm_compute in H; discriminate.
Defined.

End ShutdownProperties.

(** ** Ranking without valid sizes, and the mid price of a record *)

Module RankingProperties.

Import JS Spec TransformFacts.

Lemma side_ranked (ts : string) (feed : list value) (out : list OrderbookLevel) :
  Forall readable feed ->
  YesSave.top_levels ts (map entry_of (firstn 10 feed)) 0 Num.zero = Ok out ->
  length out = Nat.min 10 (length feed) /\
  map level out = seq 1 (length out) /\
  map price out = map (fun raw => field raw "px") (firstn 10 feed) /\
  map size out = map (fun raw => field raw "sz") (firstn 10 feed).
Proof.
  intros Hr Hout. apply top_levels_ok in Hout; [|apply Forall_take; exact Hr].
  destruct Hout as (sizes & _ & Hlen & Hp & Hs & Hl & _ & _).
  rewrite length_take in Hlen. split; [lia|].
  split; [rewrite Hl, length_take; f_equal; lia|]. split; assumption.
Qed.

(** X21. Truncation and ranking do not depend on the sizes being numbers:
    in every record the transformer returns, each side has as many levels
    as the feed has, but at most ten, numbered 1, 2, ... in feed order, and
    each level carries the [px] and [sz] of the feed unchanged. *)
Theorem levels_ranked_in_every_record
    (v : variant) (mapping mids : gmap string string) (now coin : string)
    (l2Data : value) (fb fa : list value) (r : CoinOrderbook) :
  transformer v mapping mids now coin l2Data = Some r ->
  feed_side l2Data 0 = Some fb -> feed_side l2Data 1 = Some fa ->
  (length (bids r) = Nat.min 10 (length fb) /\
   map level (bids r) = seq 1 (length (bids r)) /\
   map price (bids r) = map (fun raw => field raw "px") (firstn 10 fb) /\
   map size (bids r) = map (fun raw => field raw "sz") (firstn 10 fb)) /\
  (length (asks r) = Nat.min 10 (length fa) /\
   map level (asks r) = seq 1 (length (asks r)) /\
   map price (asks r) = map (fun raw => field raw "px") (firstn 10 fa) /\
   map size (asks r) = map (fun raw => field raw "sz") (firstn 10 fa)).
Proof.
  intros Hr H0 H1. rewrite variants_agree in Hr. apply transform_inv in Hr.
  destruct Hr as (gb & ga & bb & ba & tb & ta & G0 & G1 & Rb & Ra & _ & _ & Htb & Hta & ->).
  rewrite H0 in G0. rewrite H1 in G1. injection G0 as <-. injection G1 as <-.
  cbn [bids asks]. split; eapply side_ranked; eassumption.
Qed.

(** The witness of X21. *)
Lemma levels_ranked_in_every_record_witness :
  exists r,
    transformer ModeA ∅ ∅ Examples.stamp "@1" Samples.poisoned_snapshot = Some r /\
    (length (bids r) = Nat.min 10 (length Samples.poisoned_bids) /\
     map level (bids r) = seq 1 (length (bids r)) /\
     map price (bids r) = map (fun raw => field raw "px") (firstn 10 Samples.poisoned_bids) /\
     map size (bids r) = map (fun raw => field raw "sz") (firstn 10 Samples.poisoned_bids)) /\
    (length (asks r) = Nat.min 10 (length (@nil value)) /\
     map level (asks r) = seq 1 (length (asks r)) /\
     map price (asks r) = map (fun raw => field raw "px") (firstn 10 []) /\
     map size (asks r) = map (fun raw => field raw "sz") (firstn 10 [])).
Proof.
  eexists. split; [vm_compute; reflexivity|].
  apply (levels_ranked_in_every_record ModeA ∅ ∅ Examples.stamp "@1"
           Samples.poisoned_snapshot).
  - vm_compute. reflexivity.
  - reflexivity.
  - reflexivity.
Defined.

End RankingProperties.

Module MidPriceProperties.

Import JS Spec HandlerFacts.

Lemma exited_run (mapping : gmap string string) (evs : list YesSave.event) :
  forall st, YesSave.exited st = true -> YesSave.run mapping evs st = st.
Proof.
  induction evs as [|ev evs IH]; intros st Hx; [reflexivity|].
  change (YesSave.run mapping (ev :: evs) st)
    with (YesSave.run mapping evs (YesSave.step mapping st ev)).
  assert (Hs : YesSave.step mapping st ev = st) by (unfold YesSave.step; rewrite Hx; reflexivity).
  rewrite Hs. apply IH. exact Hx.
Qed.

Lemma mids_kept_step (mapping : gmap string string) (st : YesSave.state)
    (ev : YesSave.event) :
  (forall m, ev <> YesSave.MidPrices (Some m)) ->
  YesSave.allMidsCache (YesSave.step mapping st ev) = YesSave.allMidsCache st.
Proof.
  intros Hev. unfold YesSave.step. destruct (YesSave.exited st); [reflexivity|].
  destruct ev as [now data|p| |mids].
  - destruct (on_message_B_cases mapping now data st)
      as [E|(m & c & pl & _ & _ & _ & [[_ E]|(r' & _ & _ & _ & E)])]; rewrite E; reflexivity.
  - unfold YesSave.on_settled. destruct (YesSave.saveQueue st !! p); reflexivity.
  - unfold YesSave.on_sigint.
    destruct (0 <? base.size (YesSave.saveQueue st))%nat; reflexivity.
  - destruct mids as [m|]; [|reflexivity]. exfalso. apply (Hev m). reflexivity.
Qed.

Lemma mids_kept_run (mapping : gmap string string) (evs : list YesSave.event) :
  Forall (fun ev => forall m, ev <> YesSave.MidPrices (Some m)) evs ->
  forall st, YesSave.allMidsCache (YesSave.run mapping evs st) = YesSave.allMidsCache st.
Proof.
  induction 1 as [|ev evs Hev _ IH]; intros st; [reflexivity|].
  change (YesSave.run mapping (ev :: evs) st)
    with (YesSave.run mapping evs (YesSave.step mapping st ev)).
  rewrite IH. apply mids_kept_step. exact Hev.
Qed.

(** X22. Mode B stamps a record with the mid price of the latest successful
    refresh: after a refresh has stored the prices [m], and whatever
    messages, settled saves and failed refreshes follow, the record queued
    for the next accepted message has the entry of [m] for its coin as mid
    price, or "0" when [m] has none or an empty one. *)
Theorem mid_price_from_latest_refresh
    (mapping m : gmap string string) (before quiet : list YesSave.event)
    (now : string) (message payload : value) (coin : string) (r : CoinOrderbook) :
  Forall (fun ev => forall m', ev <> YesSave.MidPrices (Some m')) quiet ->
  YesSave.exited
    (YesSave.run mapping (before ++ YesSave.MidPrices (Some m) :: quiet) YesSave.init) = false ->
  YesSave.accept message = Ok (Some (coin, payload)) ->
  YesSave.saveQueue
    (YesSave.step mapping
       (YesSave.run mapping (before ++ YesSave.MidPrices (Some m) :: quiet) YesSave.init)
       (YesSave.Message now (Some message)))
  !! YesSave.promises
       (YesSave.run mapping (before ++ YesSave.MidPrices (Some m) :: quiet) YesSave.init)
  = Some r ->
  YesSave.processOrderbookData mapping m now coin payload = Some r /\
  midPrice r = or_else (m !! coin) "0".
Proof.
  intros Hquiet Hx Ha Hq.
  rewrite run_B_app in *.
  set (st0 := YesSave.run mapping before YesSave.init) in *.
  change (YesSave.run mapping (YesSave.MidPrices (Some m) :: quiet) st0)
    with (YesSave.run mapping quiet (YesSave.step mapping st0 (YesSave.MidPrices (Some m))))
    in *.
  assert (Hx0 : YesSave.exited st0 = false).
  { destruct (YesSave.exited st0) eqn:E; [|reflexivity].
    assert (Hs : YesSave.step mapping st0 (YesSave.MidPrices (Some m)) = st0)
      by (unfold YesSave.step; rewrite E; reflexivity).
    rewrite Hs, (exited_run mapping quiet st0 E) in Hx. congruence. }
  set (st := YesSave.run mapping quiet (YesSave.step mapping st0 (YesSave.MidPrices (Some m))))
    in *.
  assert (Hm : YesSave.allMidsCache st = m).
  { unfold st. rewrite (mids_kept_run mapping quiet Hquiet).
    unfold YesSave.step. rewrite Hx0. reflexivity. }
  assert (Hf : fresh st).
  { apply DispatchFacts.reachable_invariant.
    - apply DispatchFacts.fresh_step.
      apply (DispatchFacts.reachable_invariant mapping before YesSave.init
               (proj1 DispatchFacts.init_invariant) (proj2 DispatchFacts.init_invariant)).
    - apply DispatchFacts.not_stopped_step.
      apply (DispatchFacts.reachable_invariant mapping before YesSave.init
               (proj1 DispatchFacts.init_invariant) (proj2 DispatchFacts.init_invariant)). }
  assert (Hnone : YesSave.saveQueue st !! YesSave.promises st = None).
  { destruct (YesSave.saveQueue st !! YesSave.promises st) eqn:E; [|reflexivity].
    assert (Hin : YesSave.promises st ∈ dom (YesSave.saveQueue st))
      by (apply elem_of_dom; eexists; exact E).
    specialize (Hf _ Hin). lia. }
  unfold YesSave.step in Hq. rewrite Hx in Hq. cbn [YesSave.on_message] in Hq.
  rewrite Ha, Hm in Hq.
  destruct (YesSave.processOrderbookData mapping m now coin payload) as [r'|] eqn:Hr.
  - unfold YesSave.Promise_race_dropped in Hq.
    match type of Hq with context [if ?c then ?x else _] =>
      replace (if c then x else x) with x in Hq by (destruct c; reflexivity) end.
    cbn in Hq. rewrite lookup_insert_eq in Hq. injection Hq as <-.
    split; [reflexivity|].
    apply TransformFacts.transform_inv in Hr.
    destruct Hr as (? & ? & ? & ? & ? & ? & _ & _ & _ & _ & _ & _ & _ & _ & ->). reflexivity.
  - cbn in Hq. rewrite Hnone in Hq. discriminate.
Qed.

(** The witness of X22. *)
Lemma mid_price_from_latest_refresh_witness :
  exists r,
    YesSave.processOrderbookData ∅ {["@1" := "100.25"]} Examples.stamp "@1"
      Examples.example_snapshot = Some r /\
    midPrice r = or_else (({["@1" := "100.25"]} : gmap string string) !! "@1") "0".
Proof.
  eexists.
  apply (mid_price_from_latest_refresh ∅ {["@1" := "100.25"]}
           (Examples.flood 1) [YesSave.MidPrices None; YesSave.Settled 0]
           Examples.stamp Examples.example_message Examples.example_snapshot "@1").
  - repeat first [apply List.Forall_nil | apply List.Forall_cons]; intros m'; discriminate.
  - vm_compute. reflexivity.
  - reflexivity.
  - vm_compute. reflexivity.
Defined.

End MidPriceProperties.
